(** * harmonic-inference: the notebooks and the decoding contract

    The sources at hand are four notebooks that drive the
    harmonic-inference engine: the notebook that loads the submodels and
    decodes one piece by hand, two data-export notebooks and the Beethoven
    alignment notebook.  The engine proper ([joint_model],
    [beam_search_utils], [data_types], [piece]) is imported by them and is
    not among the sources.

    - Part I embeds the notebook cells that loop over pieces and that load
      the submodels, with Python's exceptions made explicit.
    - Part II models the decoding engine from its written specification;
      every definition of that kind says so in its doc comment.
    - Parts III and IV prove the properties, Part V runs them on small
      instances. *)

From Stdlib Require Import QArith Lia Lqa Sorting.Sorted Strings.Ascii.
From stdpp Require Import gmap strings list fin_maps.

Local Open Scope string_scope.
Local Open Scope list_scope.

(* ===================================================================== *)
(** * Part 0: Python outcomes, sorting, strings, paths *)
(* ===================================================================== *)

Module Py.

(** The exception classes the notebooks can meet.  [SystemExit] and
    [KeyboardInterrupt] derive from [BaseException] only, so a handler
    written [except Exception] does not catch them. *)
Inductive exn : Type :=
| KeyError
| IndexError
| TypeError
| ValueError
| AssertionError
| NameError (name : string)
| OtherException (cls : string)
| SystemExit (code : Z)
| KeyboardInterrupt.

Definition is_Exception (e : exn) : bool :=
  match e with
  | SystemExit _ | KeyboardInterrupt => false
  | _ => true
  end.

Inductive outcome (A : Type) : Type :=
| Returned (a : A)
| Raised (e : exn).
Arguments Returned {A} a.
Arguments Raised {A} e.

Definition bind {A B} (m : outcome A) (k : A -> outcome B) : outcome B :=
  match m with
  | Returned a => k a
  | Raised e => Raised e
  end.

End Py.

Notation "'try!' x '<-' m ';' k" := (Py.bind m (fun x => k))
  (at level 10, x pattern, m at level 100, k at level 200).

(** ** [sorted]: a stable sort

    Python's [sorted] is stable.  The insertion below places a new element
    in front of the first element it is [leb] to, so elements that compare
    equal keep their input order. *)

Section StableSort.
Context {A : Type} (leb : A -> A -> bool).

Fixpoint insert_by (x : A) (l : list A) : list A :=
  match l with
  | [] => [x]
  | y :: l' => if leb x y then x :: y :: l' else y :: insert_by x l'
  end.

Definition sort_by (l : list A) : list A := foldr insert_by [] l.

End StableSort.

(** [sorted] on a list of paths: by code point, as Python compares [str]. *)
Definition sorted (paths : list string) : list string := sort_by String.leb paths.

(** ** Python's string methods, as the cells use them

    A string is the UTF-8 text, byte by byte.  [split], [count] and
    [startswith] act on the bytes as Python acts on the characters, the
    separators being ASCII.  [strip] and an index from the end have to
    find the characters: the white space of [str.strip] is given by its
    encodings of one, two and three bytes, and the last character is the
    last byte that is no continuation byte, with the continuation bytes
    after it. *)

Module PyStr.

(** [s.split(sep)] for a separator of one character: the pieces between
    the separators, empty pieces included.  The result is never empty. *)
Fixpoint split (sep : ascii) (s : string) : list string :=
  match s with
  | EmptyString => [EmptyString]
  | String c s' =>
      if Ascii.eqb c sep then EmptyString :: split sep s'
      else
        match split sep s' with
        | [] => [String c EmptyString]
        | piece :: pieces => String c piece :: pieces
        end
  end.

(** [c] is one of the bytes listed. *)
Definition one_of (bytes : list nat) (c : ascii) : bool :=
  existsb (fun n => Ascii.eqb c (ascii_of_nat n)) bytes.

(** A byte below 128 is a character of its own. *)
Definition is_ascii (c : ascii) : bool :=
  match c with
  | Ascii _ _ _ _ _ _ _ high => negb high
  end.

(** The bytes [10xxxxxx], which go on a character begun before. *)
Definition is_continuation (c : ascii) : bool :=
  match c with
  | Ascii _ _ _ _ _ _ b6 b7 => b7 && negb b6
  end.

(** The characters [str.strip] takes off (those [str.isspace] accepts):
    U+0009 to U+000D, U+001C to U+001F and U+0020 are one byte each; *)
Definition isspace (c : ascii) : bool :=
  one_of [9; 10; 11; 12; 13; 28; 29; 30; 31; 32] c.

(** U+0085 and U+00A0 are [C2 85] and [C2 A0]; *)
Definition isspace2 (c d : ascii) : bool :=
  one_of [194] c && one_of [133; 160] d.

(** U+1680 is [E1 9A 80]; U+2000 to U+200A, U+2028, U+2029 and U+202F are
    [E2 80 80] to [E2 80 8A], [E2 80 A8], [E2 80 A9] and [E2 80 AF];
    U+205F is [E2 81 9F] and U+3000 is [E3 80 80]. *)
Definition isspace3 (c d e : ascii) : bool :=
  (one_of [225] c && one_of [154] d && one_of [128] e)
  || (one_of [226] c && one_of [128] d
      && one_of [128; 129; 130; 131; 132; 133; 134; 135; 136; 137; 138;
                 168; 169; 175] e)
  || (one_of [226] c && one_of [129] d && one_of [159] e)
  || (one_of [227] c && one_of [128] d && one_of [128] e).

(** The bytes that are left when the white space in front is taken off;
    [two] and [three] recognise the characters of two and three bytes in
    the order in which the bytes come. *)
Fixpoint skip_spaces (two : ascii -> ascii -> bool)
    (three : ascii -> ascii -> ascii -> bool) (bytes : list ascii)
  : list ascii :=
  match bytes with
  | [] => []
  | c :: rest1 =>
      if isspace c then skip_spaces two three rest1
      else
        match rest1 with
        | [] => bytes
        | d :: rest2 =>
            if two c d then skip_spaces two three rest2
            else
              match rest2 with
              | [] => bytes
              | e :: rest3 =>
                  if three c d e then skip_spaces two three rest3 else bytes
              end
        end
  end.

Definition lstrip (s : string) : string :=
  String.string_of_list_ascii
    (skip_spaces isspace2 isspace3 (String.list_ascii_of_string s)).

(** From the end the bytes of a character come last byte first. *)
Definition rstrip (s : string) : string :=
  String.string_of_list_ascii
    (rev (skip_spaces (fun d c => isspace2 c d) (fun e d c => isspace3 c d e)
            (rev (String.list_ascii_of_string s)))).

Definition strip (s : string) : string := rstrip (lstrip s).

(** [sep.join(pieces)] *)
Definition join (sep : string) (pieces : list string) : string :=
  String.concat sep pieces.

(** [s.count(c)] for one character. *)
Fixpoint count (c : ascii) (s : string) : nat :=
  match s with
  | EmptyString => 0
  | String d s' => (if Ascii.eqb d c then 1 else 0) + count c s'
  end.

(** The bytes of the last character, last byte first, from the bytes of
    the text in that order. *)
Fixpoint last_character_rev (reversed : list ascii) : list ascii :=
  match reversed with
  | [] => []
  | c :: rest =>
      if is_continuation c then c :: last_character_rev rest else [c]
  end.

(** [s[-1]]: the last character; indexing the empty string raises. *)
Definition last_character (s : string) : Py.outcome string :=
  match s with
  | EmptyString => Py.Raised Py.IndexError
  | String _ _ =>
      Py.Returned
        (String.string_of_list_ascii
           (rev (last_character_rev (rev (String.list_ascii_of_string s)))))
  end.

End PyStr.

(** ** Paths

    [os.path.join] on POSIX: a component that starts with a slash restarts
    the path; otherwise the components are joined by one slash. *)

Definition ends_with_slash (path : string) : bool :=
  match last (String.list_ascii_of_string path) with
  | Some c => Ascii.eqb c "/"%char
  | None => false
  end.

Definition join2 (path b : string) : string :=
  if String.prefix "/" b then b
  else if (String.eqb path "" || ends_with_slash path)%bool then path +:+ b
  else path +:+ "/" +:+ b.

Definition path_join (a : string) (p : list string) : string :=
  foldl join2 a p.

(** [pathlib] on POSIX keeps a path as a root and its parts.  The root is
    [//] for a text that begins with two slashes and no more, [/] for
    another text that begins with a slash, and empty otherwise; the parts
    are the pieces between the slashes, the empty pieces and the pieces
    [.] left out. *)
Definition path_root (s : string) : string :=
  match s with
  | String "/" (String "/" (String "/" _)) => "/"
  | String "/" (String "/" _) => "//"
  | String "/" _ => "/"
  | _ => ""
  end.

Definition path_parts (s : string) : list string :=
  List.filter (fun part => negb (String.eqb part "" || String.eqb part "."))
              (PyStr.split "/" s).

(** [str] of a path: the root and the parts joined by slashes, and [.]
    for the path without root and parts. *)
Definition path_str (root : string) (parts : list string) : string :=
  match root, parts with
  | EmptyString, [] => "."
  | _, _ => root +:+ PyStr.join "/" parts
  end.

(** [str(Path(a) / b)]: a [b] with a root replaces [a]; otherwise its
    parts follow those of [a]. *)
Definition path_div (a b : string) : string :=
  match path_root b with
  | EmptyString => path_str (path_root a) (path_parts a ++ path_parts b)
  | root => path_str root (path_parts b)
  end.

(* ===================================================================== *)
(** * Part I: the notebooks *)
(* ===================================================================== *)

(** ** Data shared by the notebook cells *)

Inductive KeyMode : Type := MAJOR | MINOR.

(** [str(mode)] for a member of the enum [KeyMode]. *)
Definition str_KeyMode (mode : KeyMode) : string :=
  match mode with
  | MAJOR => "KeyMode.MAJOR"
  | MINOR => "KeyMode.MINOR"
  end.

(** [str(mode).split(".")[1]] *)
Definition mode_label (mode : KeyMode) : string :=
  nth 1 (PyStr.split "." (str_KeyMode mode)) EmptyString.

(** A [ChordType] enum member, by its value. *)
Definition ChordType : Type := nat.

(** The fields of a chord and of a key that the notebooks read. *)
Record Chord : Type := mkChord {
  root : Z;
  key_tonic : Z;
  key_mode : KeyMode;
  chord_type : ChordType;
  inversion : Z
}.

Record Key : Type := mkKey {
  local_tonic : Z;
  global_tonic : Z;
  local_mode : KeyMode;
  global_mode : KeyMode
}.

(** A piece, as far as the notebooks look into it: [piece.get_chords()]
    and [piece.get_keys()]. *)
Record Piece : Type := mkPiece {
  get_chords : list Chord;
  get_keys : list Key
}.

(** One row of [files_df]. *)
Record file_row : Type := mkFileRow {
  corpus_name : string;
  file_name : string
}.

(** What the cells hand to [logging]. *)
Inductive message : Type :=
| NoDataCreated (file_id : Z)
| NoCheckpointsFound (model_name pattern : string)
| LoadingCheckpoint (checkpoint model_name : string)
| MultipleCheckpoints (model_name checkpoint : string).

Inductive log_record : Type :=
| LogError (m : message)
| LogException (e : Py.exn)
| LogInfo (m : message).

(** The world a cell acts on: the log and the files written so far, each
    file with content of type [C]. *)
Record env (C : Type) : Type := mkEnv {
  log : list log_record;
  files : gmap string C
}.
Arguments mkEnv {C} log files.
Arguments log {C} e.
Arguments files {C} e.

(** The handler the two export loops share:
    [logging.error(f"No data created for file_id {file_id}")] followed by
    [logging.exception(e)]. *)
Definition log_no_data {C} (file_id : Z) (e : Py.exn) (st : env C) : env C :=
  mkEnv (log st ++ [LogError (NoDataCreated file_id); LogException e]) (files st).

(** ** Selim_project_data.ipynb: the export loop *)

Module SelimProjectData.

Record Row : Type := mkRow {
  r_root : Z;
  r_relative_root : Z;
  r_relative_mode : KeyMode;
  r_type : string;
  r_inversion : Z;
  r_tonic : Z;
  r_mode : KeyMode
}.

Definition base_dir : string := "Selim_data".

(** [str(base_dir / name)] *)
Definition csv_path (name : string) : string := path_div base_dir name.

Section Loop.
(** The library calls of the cell.  The first stands for
    [get_score_piece_from_data_frames(notes_df.loc[file_id],
    chords_df.loc[file_id], measures_df.loc[file_id], ...)] with the cell's
    fixed [chord_reduction], [use_inversions] and [use_suspensions]: it
    depends on the file and on [use_relative], and it may raise.  The other
    two, [chord.to_pitch_type(PitchType.MIDI)] and the table
    [hu.hc.CHORD_TYPE_TO_STRING], are taken to return. *)
Variable get_score_piece_from_data_frames : Z -> bool -> Py.outcome Piece.
Variable to_pitch_type : Chord -> Chord.
Variable CHORD_TYPE_TO_STRING : ChordType -> string.
(** The [open(path, "w")] that [df.to_csv] does: it raises when the file
    cannot be made, as for a path whose directory is not there.  The
    notebook makes [base_dir] and no directory under it. *)
Variable open_file : string -> Py.outcome unit.

(** The body of the [try]: the relative and the local analysis of the same
    data frames. *)
Definition load_pieces (file_id : Z) : Py.outcome (Piece * Piece) :=
  try! relative_piece <- get_score_piece_from_data_frames file_id true;
  try! local_piece <- get_score_piece_from_data_frames file_id false;
  Py.Returned (relative_piece, local_piece).

Definition chord_row (pair : Chord * Chord) : Row :=
  let chord := to_pitch_type (fst pair) in
  let local_chord := to_pitch_type (snd pair) in
  {| r_root := root chord;
     r_relative_root := key_tonic chord;
     r_relative_mode := key_mode chord;
     r_type := CHORD_TYPE_TO_STRING (chord_type chord);
     r_inversion := inversion chord;
     r_tonic := key_tonic local_chord;
     r_mode := key_mode local_chord |}.

(** [df.to_csv(str(base_dir / name), ...)]: the file is opened and
    written over; when it cannot be opened nothing is written. *)
Definition to_csv (name : string) (df : list Row) (st : env (list Row))
  : env (list Row) * Py.outcome unit :=
  match open_file (csv_path name) with
  | Py.Raised e => (st, Py.Raised e)
  | Py.Returned _ =>
      (mkEnv (log st) (<[ csv_path name := df ]> (files st)), Py.Returned tt)
  end.

(** The loop over [files_df.iterrows()].  The [assert] and [to_csv] stand
    after the [try] statement, outside its handler. *)
Fixpoint export_pieces (rows : list (Z * file_row)) (st : env (list Row))
  : env (list Row) * Py.outcome unit :=
  match rows with
  | [] => (st, Py.Returned tt)
  | (file_id, row) :: rest =>
      let name := corpus_name row +:+ ".." +:+ file_name row in
      match load_pieces file_id with
      | Py.Raised e =>
          if Py.is_Exception e
          then export_pieces rest (log_no_data file_id e st)
          else (st, Py.Raised e)
      | Py.Returned (relative_piece, local_piece) =>
          if (length (get_chords relative_piece)
              =? length (get_chords local_piece))%nat
          then
            let df := map chord_row
              (zip (get_chords relative_piece) (get_chords local_piece)) in
            match to_csv name df st with
            | (st', Py.Returned _) => export_pieces rest st'
            | (st', Py.Raised e) => (st', Py.Raised e)
            end
          else (st, Py.Raised Py.AssertionError)
      end
  end.

End Loop.

End SelimProjectData.

(** ** The ML-course export notebook: keys and chords per composer *)

Module MLCourseData.

Definition key_dir : string := path_div "ML_course_data" "key".
Definition chord_dir : string := path_div "ML_course_data" "chord".

(** [key_dir / f"{composer}.csv"] *)
Definition key_csv (composer : string) : string :=
  path_div key_dir (composer +:+ ".csv").

Section Loop.
(** [ScorePiece(notes_df.loc[file_id], chords_df.loc[file_id],
    measures_df.loc[file_id], ...)] with the cell's fixed reduction and
    flags. *)
Variable ScorePiece : Z -> Py.outcome Piece.
(** [open(path, "a+")]: it raises when the file cannot be opened, as for
    a composer whose name holds a slash. *)
Variable open_file : string -> Py.outcome unit.
(** [hu.get_scale_degree_from_interval(interval, mode, PitchType.TPC)] *)
Variable get_scale_degree_from_interval : Z -> KeyMode -> Py.outcome string.

(** [open(path, "a+")] creates the file when it does not exist and leaves
    an existing one as it is. *)
Definition open_append (path : string) (st : env (list string))
  : env (list string) * Py.outcome unit :=
  match open_file path with
  | Py.Raised e => (st, Py.Raised e)
  | Py.Returned _ =>
      (match files st !! path with
       | Some _ => st
       | None => mkEnv (log st) (<[ path := [] ]> (files st))
       end,
       Py.Returned tt)
  end.

(** The comprehension [key_symbols]: for each key of the piece, in
    order, its scale degree, a colon and the name of its local mode. *)
Fixpoint key_symbols (keys : list Key) : Py.outcome (list string) :=
  match keys with
  | [] => Py.Returned []
  | key :: rest =>
      try! degree <- get_scale_degree_from_interval
                       (local_tonic key - global_tonic key) (global_mode key);
      try! symbols <- key_symbols rest;
      Py.Returned ((degree +:+ ":" +:+ mode_label (local_mode key)) :: symbols)
  end.

(** The statements after the [try], for a piece that was built.  The key
    file is opened and the key symbols are computed; then
    [key_labels[piece.get_keys()[0].global_mode].add([...])] indexes the
    key list and hands a list to [set.add].  A list is unhashable, so the
    call raises [TypeError]; what follows it in the body (the write to the
    key file and the whole chord file) is not reached. *)
Definition write_piece (composer : string) (piece : Piece)
    (st : env (list string)) : env (list string) * Py.outcome unit :=
  match open_append (key_csv composer) st with
  | (st1, Py.Raised e) => (st1, Py.Raised e)
  | (st1, Py.Returned _) =>
      match key_symbols (get_keys piece) with
      | Py.Raised e => (st1, Py.Raised e)
      | Py.Returned _ =>
          match get_keys piece with
          | [] => (st1, Py.Raised Py.IndexError)
          | _ :: _ => (st1, Py.Raised Py.TypeError)
          end
      end
  end.

(** The inner loop, over the files of one composer. *)
Fixpoint create_composer_data (composer : string)
    (composer_df : list (Z * file_row)) (st : env (list string))
  : env (list string) * Py.outcome unit :=
  match composer_df with
  | [] => (st, Py.Returned tt)
  | (file_id, row) :: rest =>
      match ScorePiece file_id with
      | Py.Raised e =>
          if Py.is_Exception e
          then create_composer_data composer rest (log_no_data file_id e st)
          else (st, Py.Raised e)
      | Py.Returned piece =>
          match write_piece composer piece st with
          | (st', Py.Returned _) => create_composer_data composer rest st'
          | (st', Py.Raised e) => (st', Py.Raised e)
          end
      end
  end.

(** [files_df.loc[files_df["corpus_name"].str.startswith(composer)]] *)
Definition composer_rows (composer : string) (files_df : list (Z * file_row))
  : list (Z * file_row) :=
  List.filter (fun r => String.prefix composer (corpus_name (snd r))) files_df.

(** The outer loop, over [composers]. *)
Fixpoint create_data (composers : list string) (files_df : list (Z * file_row))
    (st : env (list string)) : env (list string) * Py.outcome unit :=
  match composers with
  | [] => (st, Py.Returned tt)
  | composer :: rest =>
      match create_composer_data composer (composer_rows composer files_df) st with
      | (st', Py.Returned _) => create_data rest files_df st'
      | (st', Py.Raised e) => (st', Py.Raised e)
      end
  end.

End Loop.

End MLCourseData.

(** ** The decoding notebook: the cells that find and load the submodels *)

Module LoadModels.

Definition checkpoint_pattern (model : string) : string :=
  path_join "checkpoints"
    [model; "lightning_logs"; "version_*"; "checkpoints"; "*.ckpt"].

Definition icm_path : string :=
  path_join "checkpoints" ["icm"; "initial_chord_prior.json"].

(** The two globals of the cells: the log and the [models] dict. *)
Record cell_state (Model : Type) : Type := mkCell {
  cell_log : list log_record;
  models : gmap string Model
}.
Arguments mkCell {Model} cell_log models.
Arguments cell_log {Model} c.
Arguments models {Model} c.

Section Cells.
Context {Class Model : Type}.
(** [MODEL_CLASSES.items()]: the registry of [joint_model], in the dict's
    iteration order. *)
Variable MODEL_CLASSES : list (string * Class).
(** [glob(pattern)]: the matching paths of the file system. *)
Variable glob : string -> list string.
(** [model_class.load_from_checkpoint(checkpoint)] reads the file and may
    raise. *)
Variable load_from_checkpoint : Class -> string -> Py.outcome Model.
(** [model.freeze()] changes the model object in place: the model as it
    is afterwards. *)
Variable freeze : Model -> Py.outcome Model.
(** [icm.SimpleInitialChordModel(path)] reads the json file. *)
Variable SimpleInitialChordModel : string -> Py.outcome Model.

(** The cell "Get model paths". *)
Definition model_paths : gmap string string :=
  <[ "icm" := icm_path ]>
    (foldl (fun paths item =>
              let model := fst item in
              if String.eqb model "icm" then paths
              else <[ model := checkpoint_pattern model ]> paths)
           ∅ MODEL_CLASSES).

Definition info (m : message) (st : cell_state Model) : cell_state Model :=
  mkCell (cell_log st ++ [LogInfo m]) (models st).

Definition error (m : message) (st : cell_state Model) : cell_state Model :=
  mkCell (cell_log st ++ [LogError m]) (models st).

(** One turn of the loop of the cell "Load models", for a name other than
    ["icm"].  The notebook imports [logging], [os], [glob], [Path], [torch]
    and others, but not [sys]: evaluating [sys.exit(2)] raises
    [NameError], which ends the cell as the exit would have.  The model
    is stored under its name before it is frozen, so it stays in the dict
    when [freeze] raises. *)
Definition load_model (model_name : string) (model_class : Class)
    (st : cell_state Model) : cell_state Model * Py.outcome unit :=
  match model_paths !! model_name with
  | None => (st, Py.Raised Py.KeyError)
  | Some pattern =>
      let possible_checkpoints := sorted (glob pattern) in
      match possible_checkpoints with
      | [] =>
          (error (NoCheckpointsFound model_name pattern) st,
           Py.Raised (Py.NameError "sys"))
      | first :: others =>
          let '(checkpoint, st1) :=
            match others with
            | [] => (first, info (LoadingCheckpoint first model_name) st)
            | _ :: _ =>
                let c := List.last possible_checkpoints first in
                (c, info (MultipleCheckpoints model_name c) st)
            end in
          match load_from_checkpoint model_class checkpoint with
          | Py.Raised e => (st1, Py.Raised e)
          | Py.Returned model =>
              let st2 :=
                mkCell (cell_log st1) (<[ model_name := model ]> (models st1)) in
              match freeze model with
              | Py.Raised e => (st2, Py.Raised e)
              | Py.Returned frozen =>
                  (mkCell (cell_log st2)
                          (<[ model_name := frozen ]> (models st2)),
                   Py.Returned tt)
              end
          end
      end
  end.

Fixpoint load_models_loop (items : list (string * Class))
    (st : cell_state Model) : cell_state Model * Py.outcome unit :=
  match items with
  | [] => (st, Py.Returned tt)
  | (model_name, model_class) :: rest =>
      if String.eqb model_name "icm" then load_models_loop rest st
      else
        match load_model model_name model_class st with
        | (st', Py.Returned _) => load_models_loop rest st'
        | (st', Py.Raised e) => (st', Py.Raised e)
        end
  end.

(** The whole cell, from an empty [models] dict. *)
Definition load_models (log0 : list log_record)
  : cell_state Model * Py.outcome unit :=
  match load_models_loop MODEL_CLASSES (mkCell log0 ∅) with
  | (st, Py.Raised e) => (st, Py.Raised e)
  | (st, Py.Returned _) =>
      match model_paths !! "icm" with
      | None => (st, Py.Raised Py.KeyError)
      | Some path =>
          let st1 := info (LoadingCheckpoint path "icm") st in
          match SimpleInitialChordModel path with
          | Py.Raised e => (st1, Py.Raised e)
          | Py.Returned model =>
              (mkCell (cell_log st1) (<[ "icm" := model ]> (models st1)),
               Py.Returned tt)
          end
      end
  end.

End Cells.

End LoadModels.

(* ===================================================================== *)
(** * Part I, continued: the other cells of the notebooks *)
(* ===================================================================== *)

(** ** The ML-course export notebook: composers and label lines *)

Module MLCourseLabels.

(** [name.split('-')[0].strip()]; [split] never returns an empty list, so
    the index does not raise. *)
Definition composer_of (name : string) : string :=
  PyStr.strip (hd EmptyString (PyStr.split "-" name)).

(** [sorted(set(... for name in files_df.corpus_name.unique()))]: the
    order in which a set is walked does not matter to [sorted], the
    composers being distinct. *)
Definition composers (files_df : list (Z * file_row)) : list string :=
  sorted (elements
    (list_to_set (map (fun r => composer_of (corpus_name (snd r))) files_df)
     : gset string)).

(** [{KeyMode.MAJOR: set(), KeyMode.MINOR: set()}] *)
Record labels : Type := mkLabels {
  of_major : gset string;
  of_minor : gset string
}.

Definition no_labels : labels := mkLabels ∅ ∅.

Definition labels_of (mode : KeyMode) (l : labels) : gset string :=
  match mode with
  | MAJOR => of_major l
  | MINOR => of_minor l
  end.

(** [label_set = d[KeyMode.MAJOR] if key_label == "MAJOR" else
    d[KeyMode.MINOR]], followed by [label_set.add(label)] for each label. *)
Definition add_labels (key_label : string) (new : list string) (l : labels)
  : labels :=
  if String.eqb key_label "MAJOR"
  then mkLabels (of_major l ∪ list_to_set new) (of_minor l)
  else mkLabels (of_major l) (of_minor l ∪ list_to_set new).

(** One line of a chord csv:
    [key_label, chords = line.strip().split(";")], which raises
    [ValueError] unless the split gives two pieces. *)
Definition read_chord_line (line : string) (chord_labels : labels)
  : Py.outcome labels :=
  match PyStr.split ";" (PyStr.strip line) with
  | [key_label; chords] =>
      Py.Returned (add_labels key_label (PyStr.split "," chords) chord_labels)
  | _ => Py.Raised Py.ValueError
  end.

(** One line of a key csv: [keys = line.strip().split(",")] and
    [key_label = keys[0].split(":")[1]]. *)
Definition read_key_line (line : string) (key_labels : labels)
  : Py.outcome labels :=
  let keys := PyStr.split "," (PyStr.strip line) in
  match keys with
  | [] => Py.Raised Py.IndexError
  | first :: _ =>
      match PyStr.split ":" first with
      | _ :: key_label :: _ => Py.Returned (add_labels key_label keys key_labels)
      | _ => Py.Raised Py.IndexError
      end
  end.

(** [for line in fp: ...] *)
Fixpoint read_lines (read : string -> labels -> Py.outcome labels)
    (lines : list string) (l : labels) : Py.outcome labels :=
  match lines with
  | [] => Py.Returned l
  | line :: rest =>
      try! l' <- read line l;
      read_lines read rest l'
  end.

(** [for path in glob(...): with open(path, 'r') as fp: ...], each file
    by its lines. *)
Fixpoint read_files (read : string -> labels -> Py.outcome labels)
    (csvs : list (list string)) (l : labels) : Py.outcome labels :=
  match csvs with
  | [] => Py.Returned l
  | lines :: rest =>
      try! l' <- read_lines read lines l;
      read_files read rest l'
  end.

(** The line the export cell hands to [chord_file.write]:
    [str(mode).split(".")[1] + ";" + ",".join(chord_symbols) + "\n"]. *)
Definition chord_line (mode : KeyMode) (chord_symbols : list string) : string :=
  mode_label mode +:+ ";" +:+ PyStr.join "," chord_symbols +:+ String "010" "".

Section KeyLines.
(** What [hu.get_scale_degree_from_interval(key.local_tonic -
    key.global_tonic, key.global_mode, PitchType.TPC)] returns, for calls
    that return. *)
Variable get_scale_degree_from_interval : Z -> KeyMode -> string.

Definition key_symbol (key : Key) : string :=
  get_scale_degree_from_interval (local_tonic key - global_tonic key)
                                 (global_mode key)
  +:+ ":" +:+ mode_label (local_mode key).

(** The line the export cell hands to [key_file.write]:
    [",".join(key_symbols) + "\n"]. *)
Definition key_line (keys : list Key) : string :=
  PyStr.join "," (map key_symbol keys) +:+ String "010" "".

End KeyLines.

End MLCourseLabels.

(** ** The decoding notebook: the cell that builds the validation pieces *)

Module LoadPieces.

Inductive message : Type :=
| FileIdsNotFound (h5_path : string).

Definition h5_dir : string := "h5_data".
Definition h5_path : string :=
  path_div h5_dir "ChordTransitionDataset_valid_seed_0.h5".
Definition pkl_path : string := path_div h5_dir "pieces_valid_seed_0.pkl".

Section Cell.
Context {PieceDict : Type}.
(** [h5py.File(h5_path, "r")]: opening may raise; an open file has the
    data set ["file_ids"] or has not. *)
Variable h5_file : Py.outcome (option (list Z)).
(** [pickle.load] of [pkl_path], when that path exists. *)
Variable pkl_file : option (Py.outcome (list (option PieceDict))).
(** One element of the comprehension: the three [.loc[file_id]] look-ups,
    the name and the call of [ScorePiece] with [piece_dict]. *)
Variable ScorePiece : Z -> option PieceDict -> Py.outcome Piece.

(** The list comprehension: the elements are built in order, and the
    first exception ends it. *)
Fixpoint build (pairs : list (Z * option PieceDict)) : Py.outcome (list Piece) :=
  match pairs with
  | [] => Py.Returned []
  | (file_id, piece_dict) :: rest =>
      try! piece <- ScorePiece file_id piece_dict;
      try! pieces <- build rest;
      Py.Returned (piece :: pieces)
  end.

(** [piece_dicts]: the pickle when there is one, otherwise
    [[None] * len(file_ids)]. *)
Definition piece_dicts (file_ids : list Z)
  : Py.outcome (list (option PieceDict)) :=
  match pkl_file with
  | Some loaded => loaded
  | None => Py.Returned (replicate (length file_ids) None)
  end.

(** The cell.  As in the cell that loads the models, [sys] is not
    imported, so [sys.exit(1)] raises [NameError]. *)
Definition load_pieces : list message * Py.outcome (list Piece) :=
  match h5_file with
  | Py.Raised e => ([], Py.Raised e)
  | Py.Returned None =>
      ([FileIdsNotFound h5_path], Py.Raised (Py.NameError "sys"))
  | Py.Returned (Some file_ids) =>
      match piece_dicts file_ids with
      | Py.Raised e => ([], Py.Raised e)
      | Py.Returned dicts => ([], build (zip file_ids dicts))
      end
  end.

End Cell.

End LoadPieces.

(** ** The decoding notebook: the name of the chosen piece *)

Module ChoosePiece.

(** The name the cell that builds the pieces hands to [ScorePiece]:
    [f"{file_id}: {files_df.loc[file_id, 'corpus_name']}/"
     f"{files_df.loc[file_id, 'file_name']}"], the file id by its text. *)
Definition piece_name (file_id : string) (row : file_row) : string :=
  file_id +:+ ": " +:+ corpus_name row +:+ "/" +:+ file_name row.

(** [file_id, piece_name = [string.strip() for string in
    piece.name.split(':')]]: the unpacking raises [ValueError] unless the
    split gives two pieces. *)
Definition split_name (name : string) : Py.outcome (string * string) :=
  match map PyStr.strip (PyStr.split ":" name) with
  | [file_id; piece_name] => Py.Returned (file_id, piece_name)
  | _ => Py.Raised Py.ValueError
  end.

End ChoosePiece.

(** ** The decoding notebook: the cell "How many ranges are missed?" *)

Module MissedRanges.

(** A range as the cell compares them: a start and an end, the end of the
    last correct range being [None]. *)
Definition ChordRange : Type := (Z * option Z)%type.

Inductive print : Type :=
| NotFound (correct_range : ChordRange) (i : nat)
| Missed (missed total : nat)
(** the line that shows [1 - missed / total] *)
| Accuracy (missed total : nat).

(** [list(zip(correct_chord_change_indices,
              list(correct_chord_change_indices[1:]) + [None]))] *)
Definition correct_chord_ranges (correct_chord_change_indices : list Z)
  : list ChordRange :=
  zip correct_chord_change_indices
      (map Some (tail correct_chord_change_indices) ++ [None]).

(** The loop over [enumerate(correct_chord_ranges)]. *)
Fixpoint count_missed (chord_ranges : list ChordRange)
    (enumerated : list (nat * ChordRange)) (out : list print) (missed : nat)
  : list print * nat :=
  match enumerated with
  | [] => (out, missed)
  | (i, correct_range) :: rest =>
      if bool_decide (correct_range ∈ chord_ranges)
      then count_missed chord_ranges rest out missed
      else count_missed chord_ranges rest
             (out ++ [NotFound correct_range i]) (S missed)
  end.

(** The cell: what it prints and how it ends.  The division is by
    [len(correct_chord_change_indices)]. *)
Definition missed_cell (correct_chord_change_indices : list Z)
    (chord_ranges : list ChordRange) : list print * Py.outcome unit :=
  let total := length correct_chord_change_indices in
  let '(out, missed) :=
    count_missed chord_ranges
      (imap (fun i r => (i, r)) (correct_chord_ranges correct_chord_change_indices))
      [] 0 in
  let out := out ++ [Missed missed total] in
  if (total =? 0)%nat
  then (out, Py.Raised (Py.OtherException "ZeroDivisionError"))
  else (out ++ [Accuracy missed total], Py.Returned tt).

End MissedRanges.

(** ** The Beethoven alignment notebook *)

Module BeethovenAlignment.

(** What the loop hands to [logging.error]. *)
Inductive message : Type :=
| LabelFileMissing (label_csv_path : string)
| NoMatchingFile (music_xml_path : string)
| MultipleMatchingFiles (music_xml_path : string) (file_ids : list Z)
| NoMatchingChordData (music_xml_path : string) (file_id : Z).

(** The errors logged and the label files written so far. *)
Record world (L : Type) : Type := mkWorld {
  errors : list message;
  written : gmap string L
}.
Arguments mkWorld {L} errors written.
Arguments errors {L} w.
Arguments written {L} w.

Definition OUTPUT_DIR : string := "Beethoven-labels".
Definition dcml_corpus : string := "beethoven_piano_sonatas".
Definition bps_dir : string := "../functional-harmony/data/BPS".

(** The loop runs over [glob(".../BPS/scores/*.mxl")].  Such a path is
    the scores directory, a file name and the suffix; the loop is taken
    over the file names without the suffix, which is what [Path.stem]
    gives for each of them. *)
Definition music_xml_path (stem : string) : string :=
  path_div (path_div bps_dir "scores") (stem +:+ ".mxl").

(** [music_xml_path.parent.parent / "chords" / Path(stem + ".csv")] *)
Definition label_csv_path (stem : string) : string :=
  path_div (path_div bps_dir "chords") (stem +:+ ".csv").

(** [f"{number}-{movement[-1]}.tsv"]: the last character of [movement],
    whatever the number of its bytes; the index raises on an empty
    [movement]. *)
Definition dcml_file_name (number movement : string) : Py.outcome string :=
  try! last <- PyStr.last_character movement;
  Py.Returned (number +:+ "-" +:+ last +:+ ".tsv").

(** [files_df.loc[(files_df["corpus_name"] == dcml_corpus)
                  & (files_df["file_name"] == dcml_file_name)]] *)
Definition matching (files_df : list (Z * file_row)) (name : string)
  : list (Z * file_row) :=
  List.filter
    (fun r => String.eqb (corpus_name (snd r)) dcml_corpus
              && String.eqb (file_name (snd r)) name)
    files_df.

(** [OUTPUT_DIR / name] *)
Definition label_path (name : string) : string := path_div OUTPUT_DIR name.

Definition error {L} (m : message) (w : world L) : world L :=
  mkWorld (errors w ++ [m]) (written w).

Section Loop.
Context {L : Type}.
(** [Path.exists] *)
Variable path_exists : string -> bool.
(** The [open(path, "w")] that [df.to_csv] does: it raises when the file
    cannot be made. *)
Variable open_file : string -> Py.outcome unit.
Variable get_score_piece_from_music_xml : string -> string -> Py.outcome Piece.
Variable files_df : list (Z * file_row).
(** [get_score_piece_from_data_frames(notes_df.loc[file_id],
    chords_df.loc[file_id], measures_df.loc[file_id],
    use_suspensions=True)], the look-ups included. *)
Variable get_score_piece_from_data_frames : Z -> Py.outcome Piece.
(** [get_labels_df(score, tpc_c=0)] *)
Variable get_labels_df : Piece -> Py.outcome L.

(** [df.to_csv(OUTPUT_DIR / name, ...)]: the file is opened and written
    over; when it cannot be opened nothing is written. *)
Definition to_csv (name : string) (df : L) (w : world L)
  : world L * Py.outcome unit :=
  match open_file (label_path name) with
  | Py.Raised e => (w, Py.Raised e)
  | Py.Returned _ =>
      (mkWorld (errors w) (<[ label_path name := df ]> (written w)),
       Py.Returned tt)
  end.

(** The body of the loop for one score.  [Returned] is the end of the
    body or a [continue]; the handler is [except KeyError]. *)
Definition align_score (stem : string) (w : world L)
  : world L * Py.outcome unit :=
  if negb (path_exists (label_csv_path stem))
  then (error (LabelFileMissing (label_csv_path stem)) w, Py.Returned tt)
  else
    match get_score_piece_from_music_xml
            (music_xml_path stem) (label_csv_path stem) with
    | Py.Raised e => (w, Py.Raised e)
    | Py.Returned fh_score =>
        match PyStr.split "_" stem with
        | [_; number; movement] =>
            match dcml_file_name number movement with
            | Py.Raised e => (w, Py.Raised e)
            | Py.Returned name =>
                match matching files_df name with
                | [] => (error (NoMatchingFile (music_xml_path stem)) w,
                         Py.Returned tt)
                | (file_id, _) :: others =>
                    let w1 :=
                      match others with
                      | [] => w
                      | _ :: _ =>
                          error (MultipleMatchingFiles (music_xml_path stem)
                                   (map fst (matching files_df name))) w
                      end in
                    match get_score_piece_from_data_frames file_id with
                    | Py.Raised Py.KeyError =>
                        (error (NoMatchingChordData (music_xml_path stem) file_id) w1,
                         Py.Returned tt)
                    | Py.Raised e => (w1, Py.Raised e)
                    | Py.Returned dcml_score =>
                        match get_labels_df fh_score with
                        | Py.Raised e => (w1, Py.Raised e)
                        | Py.Returned fh_label_df =>
                            match to_csv ("fh-" +:+ name) fh_label_df w1 with
                            | (w2, Py.Raised e) => (w2, Py.Raised e)
                            | (w2, Py.Returned _) =>
                                match get_labels_df dcml_score with
                                | Py.Raised e => (w2, Py.Raised e)
                                | Py.Returned dcml_label_df =>
                                    to_csv ("dcml-" +:+ name) dcml_label_df w2
                                end
                            end
                        end
                    end
                end
            end
        | _ => (w, Py.Raised Py.ValueError)
        end
    end.

Fixpoint align_scores (stems : list string) (w : world L)
  : world L * Py.outcome unit :=
  match stems with
  | [] => (w, Py.Returned tt)
  | stem :: rest =>
      match align_score stem w with
      | (w', Py.Returned _) => align_scores rest w'
      | (w', Py.Raised e) => (w', Py.Raised e)
      end
  end.

End Loop.

End BeethovenAlignment.

(** ** The files of the export loops *)

(** [str(base_dir / name)] of the Selim export, for
    [name = file_row["corpus_name"] + ".." + file_row["file_name"]]. *)
Definition csv_path (row : file_row) : string :=
  SelimProjectData.csv_path (corpus_name row +:+ ".." +:+ file_name row).

(** What the export loop can have done to the files: a file that was there is
    as it was, and a file that is there now was there before or is an
    empty key file of one of the composers. *)
Definition only_empty_key_files (composers : list string)
    (before after : gmap string (list string)) : Prop :=
  (forall path content,
      before !! path = Some content -> after !! path = Some content)
  /\ (forall path content,
        after !! path = Some content ->
        before !! path = Some content
        \/ (content = [] /\ exists composer,
               In composer composers
               /\ path = MLCourseData.key_csv composer)).

(** ** The label files of the alignment loop *)

(** [OUTPUT_DIR / f"fh-{number}-{movement[-1]}.tsv"] and
    [OUTPUT_DIR / f"dcml-{number}-{movement[-1]}.tsv"], by the part of the
    name the two share. *)
Definition fh_path (name : string) : string :=
  BeethovenAlignment.label_path ("fh-" +:+ name).

Definition dcml_path (name : string) : string :=
  BeethovenAlignment.label_path ("dcml-" +:+ name).

(** The label files come in pairs: a functional-harmony file is there
    exactly when its DCML twin is. *)
Definition paired {L} (fs : gmap string L) : Prop :=
  forall name, is_Some (fs !! fh_path name) <-> is_Some (fs !! dcml_path name).

(** ** Labels that a csv line can carry *)

(** A label of ASCII characters, none of them white space or one of the
    separators. *)
Definition plain (separators : list ascii) (label : string) : bool :=
  forallb (fun c => PyStr.is_ascii c
                    && negb (PyStr.isspace c)
                    && negb (existsb (Ascii.eqb c) separators))
          (String.list_ascii_of_string label).

(* ===================================================================== *)
(** * Part II: the decoding engine, modelled from its specification *)
(* ===================================================================== *)

(** The notebooks call the engine ([State], [get_chord_ranges],
    [get_harmony]) but its code is not among the sources.  The definitions
    of this part follow the written specification of the engine; the
    argument lists of [State], [chord_transition] and [key_transition]
    follow the calls the decoding notebook makes. *)

Module Decoder.

(** A half-open span [(start, end)] of frame indices. *)
Definition ChordRange : Type := (nat * nat)%type.





(** The same, link by link: every range starts where the one before it
    ended, the first one at [from], and none is empty. *)
Fixpoint consecutive (from : nat) (rs : list ChordRange) : Prop :=
  match rs with
  | [] => True
  | r :: rest => fst r = from /\ (fst r < snd r)%nat /\ consecutive (snd r) rest
  end.

Definition ends_at (from : nat) (rs : list ChordRange) : nat :=
  match last rs with
  | Some r => snd r
  | None => from
  end.

Local Unset Elimination Schemes.

(** Modelled from the spec: the [State] of [beam_search_utils] (section 3,
    State): the current key, the chord and key histories, the cumulative
    log-probability and the parent.  [csm_log_prior] is the keyword the
    notebook passes to the constructor: the log-prior over the next chord
    label, by label index. *)
Inductive State : Type := mkState {
  key : nat;
  chord_history : list (nat * ChordRange);
  key_history : list (nat * nat);
  log_prob : Q;
  csm_log_prior : nat -> Q;
  parent : option State
}.

Local Set Elimination Schemes.

Definition ranges (s : State) : list ChordRange := map snd (chord_history s).

(** The frame at which the state's last chord ends ([0] for a root). *)
Definition change_index (s : State) : nat := ends_at 0 (ranges s).

(** The frame at which the state's last chord starts. *)
Definition last_start (s : State) : nat :=
  match last (ranges s) with
  | Some r => fst r
  | None => 0%nat
  end.

(** Modelled from the spec: [State(key=..., csm_log_prior=...)], the root
    of a hypothesis tree. *)
Definition root_state (key : nat) (csm_log_prior : nat -> Q) : State :=
  mkState key [] [(key, 0%nat)] 0%Q csm_log_prior None.

(** Modelled from the spec: [state.chord_transition(chord, change_index,
    log_prob, ...)] makes a new State whose history has one more chord, from
    the end of the last one to [change_index], and whose score is the
    parent's plus the transition's log-probability.  (The two further
    arguments of the call, the output type and [LABELS], name the label
    vocabulary; no field of the spec's State depends on them.) *)
Definition chord_transition (s : State) (chord new_change_index : nat)
    (transition_log_prob : Q) : State :=
  mkState (key s)
          (chord_history s ++ [(chord, (change_index s, new_change_index))])
          (key_history s)
          (log_prob s + transition_log_prob)%Q
          (csm_log_prior s)
          (Some s).

(** Modelled from the spec: [state.key_transition(key, log_prob, ...)]: the
    new key holds from the start of the chord just added. *)
Definition key_transition (s : State) (new_key : nat) (transition_log_prob : Q)
  : State :=
  mkState new_key
          (chord_history s)
          (key_history s ++ [(new_key, last_start s)])
          (log_prob s + transition_log_prob)%Q
          (csm_log_prior s)
          (Some s).

(** Modelled from the spec: the state with the log-prior for its next chord
    renewed, which is what [run_csm_batched] leaves in each state it is
    given (section 4.1, ChordSequenceModel). *)
Definition with_csm_log_prior (s : State) (prior : nat -> Q) : State :=
  mkState (key s) (chord_history s) (key_history s) (log_prob s) prior (parent s).

(** The parent chain of a hypothesis, nearest first. *)
Fixpoint ancestors (s : State) : list State :=
  match s with
  | mkState _ _ _ _ _ (Some p) => p :: ancestors p
  | mkState _ _ _ _ _ None => []
  end.

(** The hypotheses a search can hold: roots, and what the transitions make
    of them when every transition carries the logarithm of a probability,
    which is at most [0]. *)
Inductive grown : State -> Prop :=
| grown_root k prior : grown (root_state k prior)
| grown_chord s chord e lp :
    grown s -> (lp <= 0)%Q -> grown (chord_transition s chord e lp)
| grown_key s k lp :
    grown s -> (lp <= 0)%Q -> grown (key_transition s k lp)
| grown_prior s prior : grown s -> grown (with_csm_log_prior s prior).

(** Modelled from the spec: the configuration of section 6. *)
Record Config : Type := mkConfig {
  min_chord_change_prob : Q;
  max_no_chord_change_prob : Q;
  beam_width : nat;
  max_chord_branching_factor : nat;
  max_key_branching_factor : nat
}.

(** Modelled from the spec: a frame of the timeline (section 3). *)
Record Frame : Type := mkFrame {
  onset : Q;
  onset_level : nat;
  duration : Q
}.

(** Modelled from the spec: the timeline, the frames in order. *)
Definition Timeline : Type := list Frame.

(** Modelled from the spec: the six adapters of section 4.1, each a pure
    function of its context.  A distribution over label indices is a
    function of the index; [num_chords] and [key_modes] are the two label
    vocabularies (a key label index is a position in [key_modes]). *)
Record Submodels : Type := mkSubmodels {
  num_chords : nat;
  key_modes : list KeyMode;
  icm : KeyMode -> nat -> Q;
  ctm : Timeline -> nat -> Q;
  ccm : Timeline -> ChordRange -> nat -> Q;
  csm : list (nat * ChordRange) -> nat -> Q;
  ktm : State -> Q;
  ktm_threshold : Q;
  ksm : list (nat * nat) -> nat -> Q
}.

(** Modelled from the spec (sections 3 and 4.1): what the adapters hand
    out are probabilities and logarithms of probabilities: the change
    detector stays between [0] and [1], every log-probability is at most
    [0], and so is the logarithm [ln] on probabilities. *)
Definition log_probabilities (ln : Q -> Q) (m : Submodels) : Prop :=
  (forall q, 0 <= q <= 1 -> ln q <= 0)%Q
  /\ (forall timeline i, 0 <= ctm m timeline i <= 1)%Q
  /\ (forall mode chord, icm m mode chord <= 0)%Q
  /\ (forall timeline r chord, ccm m timeline r chord <= 0)%Q
  /\ (forall history chord, csm m history chord <= 0)%Q
  /\ (forall history k, ksm m history k <= 0)%Q.

(** Modelled from the spec: a decode ends with a value or with the
    decoding-exhausted failure, which names a frame (sections 4.3 and 7). *)
Inductive decoded (A : Type) : Type :=
| Decoded (a : A)
| DecodingExhausted (frame : nat).
Arguments Decoded {A} a.
Arguments DecodingExhausted {A} frame.

(** Modelled from the spec (section 4.3, pruning): the higher score first;
    equal scores keep their order. *)
Definition by_score {A} (score : A -> Q) (a b : A) : bool :=
  Qle_bool (score b) (score a).

(** Modelled from the spec (section 4.3, pruning): a stable sort by score. *)
Definition rank {A} (score : A -> Q) (l : list A) : list A :=
  sort_by (by_score score) l.

Section Engine.
(** The logarithm the range proposer takes of a probability. *)
Variable ln : Q -> Q.
Variable cfg : Config.

(** Modelled from the spec (section 4.2): below the lower threshold a
    frame is never a boundary. *)
Definition may_change (p : Q) : bool :=
  Qle_bool (min_chord_change_prob cfg) p.

(** Modelled from the spec (sections 4.2 and 8): at or above the upper
    threshold a frame is always a boundary. *)
Definition may_continue (p : Q) : bool :=
  negb (Qle_bool (max_no_chord_change_prob cfg) p).

(** Modelled from the spec (section 4.2): the candidate ends of a range
    whose frames before [j] are settled:
    [ps] holds the change probabilities of the frames from [j] on, and
    [running] the log-probability of no change on the frames passed.  A
    frame that may change closes the range there; a frame that may stay
    lets the range go on; past the last frame the range ends with the
    timeline. *)
Fixpoint scan (ps : list Q) (j : nat) (running : Q) : list (nat * Q) :=
  match ps with
  | [] => [(j, running)]
  | p :: ps' =>
      (if may_change p then [(j, (running + ln p)%Q)] else [])
      ++ (if may_continue p then scan ps' (S j) (running + ln (1 - p))%Q else [])
  end.

(** Modelled from the spec: the candidate next ranges of a hypothesis whose
    last chord ends at [start], each with its log-probability. *)
Definition next_ranges (probs : list Q) (start : nat) : list (nat * Q) :=
  if (start <? length probs)%nat
  then scan (drop (S start) probs) (S start) 0%Q
  else [].

(** Modelled from the spec (section 4.2): the ranges the proposer gives,
    each with its log-probability.  [start] runs over the frames in order;
    [starts] holds the frames at which a range may start, which are frame
    [0] and every end of a range proposed so far. *)
Fixpoint propose (fuel : nat) (probs : list Q) (start : nat) (starts : list nat)
  : list (ChordRange * Q) :=
  match fuel with
  | O => []
  | S fuel' =>
      if existsb (Nat.eqb start) starts then
        let ends := next_ranges probs start in
        map (fun cand : nat * Q => ((start, fst cand), snd cand)) ends
        ++ propose fuel' probs (S start) (map fst ends ++ starts)
      else propose fuel' probs (S start) starts
  end.

(** Modelled from the spec (section 4.2): the range proposer.  The notebook
    takes its result apart as [chord_ranges, chord_range_log_probs]: the
    candidate ranges as [(start, end)] pairs and, in step, their
    log-probabilities. *)
Definition get_chord_ranges (chord_change_probs : list Q)
  : list ChordRange * list Q :=
  let proposed :=
    propose (length chord_change_probs) chord_change_probs 0 [0%nat] in
  (proposed.*1, proposed.*2).

(** Modelled from the spec (section 4.3): the proposed ranges that start at
    [start], the candidate next ranges of a hypothesis that ends there. *)
Definition ranges_from (chord_ranges : list ChordRange * list Q) (start : nat)
  : list (ChordRange * Q) :=
  List.filter (fun cand : ChordRange * Q => (fst (fst cand) =? start)%nat)
              (zip (fst chord_ranges) (snd chord_ranges)).

Variable m : Submodels.
Variable timeline : Timeline.

(** Modelled from the spec (section 4.1): the change detector's
    probability for every frame of the timeline. *)
Definition get_chord_change_probs : list Q :=
  map (ctm m timeline) (seq 0 (length timeline)).

(** Modelled from the spec (section 4.3, INIT): one root per key of the
    vocabulary, with the initial-chord prior of the key's mode. *)
Definition root_states : list State :=
  imap (fun k mode => root_state k (icm m mode)) (key_modes m).

(** Modelled from the spec (section 4.1): the prior over the next chord is
    the initial-chord prior kept by a root and the sequence model's for a
    state that has chords. *)
Definition run_csm (s : State) : State :=
  match chord_history s with
  | [] => s
  | _ :: _ => with_csm_log_prior s (csm m (chord_history s))
  end.

(** Modelled from the spec (sections 4.1 and 5): the sequence model run on
    a whole beam, state by state; the notebook calls it on a state before
    it takes the state's next chord transition. *)
Definition run_csm_batched (states : list State) : list State :=
  map run_csm states.

(** Modelled from the spec (section 4.3, SEGMENTING_CHORDS): the children
    of [s], one per proposed range that starts where [s] ends and per chord
    label, scored by classifier likelihood, sequence prior and the range's
    log-probability. *)
Definition chord_candidates (s : State) : list State :=
  flat_map
    (fun cand : ChordRange * Q =>
       let '(r, range_log_prob) := cand in
       let likelihood := ccm m timeline r in
       map (fun chord =>
              chord_transition s chord (snd r)
                (likelihood chord + csm_log_prior s chord + range_log_prob)%Q)
           (seq 0 (num_chords m)))
    (ranges_from (get_chord_ranges get_chord_change_probs) (change_index s)).

(** Modelled from the spec (section 4.3, SCORING_KEY_BOUNDARY): where the
    key-change detector crosses its threshold the state is extended by the
    candidate next keys; elsewhere the key is carried over. *)
Definition key_candidates (s : State) : list State :=
  if Qle_bool (ktm_threshold m) (ktm m s)
  then
    take (max_key_branching_factor cfg)
         (rank log_prob
               (imap (fun k _ => key_transition s k (ksm m (key_history s) k))
                     (key_modes m)))
  else [s].

(** Modelled from the spec (section 4.3): the extensions of one hypothesis
    in a round, at most [max_chord_branching_factor] chord candidates, each
    followed by its key candidates. *)
Definition extend (s : State) : list State :=
  flat_map key_candidates
           (take (max_chord_branching_factor cfg) (rank log_prob (chord_candidates s))).

(** Modelled from the spec (section 4.3, DONE): a hypothesis is complete
    when its chords reach the end of the timeline. *)
Definition complete (s : State) : bool :=
  (change_index s =? length timeline)%nat.

(** Modelled from the spec (section 4.3): one round over the frozen beam.
    Complete hypotheses stay, every other one is replaced by its
    extensions; a hypothesis with none is the decoding-exhausted failure,
    at its frame. *)
Fixpoint extend_all (beam : list State) : decoded (list State) :=
  match beam with
  | [] => Decoded []
  | s :: rest =>
      if complete s then
        match extend_all rest with
        | Decoded cs => Decoded (s :: cs)
        | DecodingExhausted f => DecodingExhausted f
        end
      else
        match extend s with
        | [] => DecodingExhausted (change_index s)
        | c :: cs' =>
            match extend_all rest with
            | Decoded cs => Decoded ((c :: cs') ++ cs)
            | DecodingExhausted f => DecodingExhausted f
            end
        end
  end.

(** Modelled from the spec (section 4.3, pruning): by score, the higher
    first, ties in creation order; the first [beam_width] stay. *)
Definition prune (candidates : list State) : list State :=
  take (beam_width cfg) (rank log_prob candidates).

(** Modelled from the spec (section 4.3): rounds until every hypothesis of
    the beam is complete.  A round renews the sequence priors of the frozen
    beam and extends it.  Each round moves every incomplete hypothesis on
    by a frame at least, so a round per frame is enough
    ([search_rounds_suffice]). *)
Fixpoint search (fuel : nat) (beam : list State) : decoded (list State) :=
  if forallb complete beam then Decoded beam
  else
    match fuel with
    | O => DecodingExhausted (length timeline)
    | S fuel' =>
        match extend_all (run_csm_batched beam) with
        | Decoded candidates => search fuel' (prune candidates)
        | DecodingExhausted f => DecodingExhausted f
        end
    end.

(** Modelled from the spec (section 4.3): [get_harmony], from INIT to DONE;
    the answer is the best complete hypothesis, the earliest on a tie. *)
Definition get_harmony : decoded State :=
  match search (length timeline) root_states with
  | Decoded beam =>
      match head (rank log_prob beam) with
      | Some best => Decoded best
      | None => DecodingExhausted 0
      end
  | DecodingExhausted f => DecodingExhausted f
  end.

End Engine.

End Decoder.

(* ===================================================================== *)
(** * Small instances *)
(* ===================================================================== *)

(** The instances on which Part V runs the definitions. *)

Module Instances.

(** *** Three files for the export loops: file 0 has no data, the two
    analyses of file 1 disagree (two chords against one), file 2 is fine. *)

Definition a_chord : Chord := mkChord 0 0 MAJOR 0 0.

Definition three_files (file_id : Z) (use_relative : bool) : Py.outcome Piece :=
  if (file_id =? 1)%Z then
    Py.Returned
      (mkPiece (if use_relative then [a_chord; a_chord] else [a_chord]) [])
  else if (file_id =? 2)%Z then Py.Returned (mkPiece [a_chord] [])
  else Py.Raised Py.KeyError.

Definition a_row : file_row := mkFileRow "Bach" "prelude.tsv".

(** The directories the notebooks make. *)
Definition data_dirs : list string :=
  ["Selim_data"; "ML_course_data/key"; "ML_course_data/chord";
   "Beethoven-labels"].

(** A file system in which a file can be opened when it lies in one of
    the directories itself, none of them having a directory under it. *)
Definition open_in (dirs : list string) (path : string) : Py.outcome unit :=
  if existsb
       (fun dir =>
          String.prefix (dir +:+ "/") path
          && (PyStr.count "/" path =? S (PyStr.count "/" dir))%nat)
       dirs
  then Py.Returned tt
  else Py.Raised (Py.OtherException "FileNotFoundError").

Definition type_name (t : ChordType) : string := "M".

(** *** A registry of three submodels; the file system has two checkpoints
    for the first and none for the last. *)

Definition registry : list (string * nat) :=
  [("ccm", 1%nat); ("icm", 0%nat); ("ctm", 2%nat)].

Definition ccm_checkpoints : list string :=
  ["checkpoints/ccm/lightning_logs/version_1/checkpoints/epoch=3.ckpt";
   "checkpoints/ccm/lightning_logs/version_0/checkpoints/epoch=9.ckpt"].

Definition two_checkpoints (pattern : string) : list string :=
  if String.eqb pattern (LoadModels.checkpoint_pattern "ccm")
  then ccm_checkpoints else [].

(** A loaded model: its class, its checkpoint, and whether it is frozen. *)
Definition toy_load (cls : nat) (checkpoint : string)
  : Py.outcome (nat * string * bool) :=
  Py.Returned (cls, checkpoint, false).

Definition toy_freeze (model : nat * string * bool)
  : Py.outcome (nat * string * bool) :=
  Py.Returned (fst (fst model), snd (fst model), true).

Definition toy_prior (path : string) : Py.outcome (nat * string * bool) :=
  Py.Returned (0%nat, path, false).

(** The checkpoint of [version_1] cannot be read. *)
Definition unreadable_load (cls : nat) (checkpoint : string)
  : Py.outcome (nat * string * bool) :=
  if String.eqb checkpoint
       "checkpoints/ccm/lightning_logs/version_1/checkpoints/epoch=3.ckpt"
  then Py.Raised (Py.OtherException "UnpicklingError")
  else toy_load cls checkpoint.

(** *** A decode of four frames *)

(** A rational stand-in for the logarithm: its tangent at [1]. *)
Definition tangent_ln (q : Q) : Q := (q - 1)%Q.

Definition thresholds : Decoder.Config :=
  Decoder.mkConfig (2 # 10) (9 # 10) 4 4 2.

Definition four_frames : Decoder.Timeline :=
  repeat (Decoder.mkFrame 0 0 1) 4.

Definition forced_split : list Q := [1; 1 # 10; 1; 1 # 10]%Q.

Definition two_chords_one_key : Decoder.Submodels :=
  Decoder.mkSubmodels 2 [MAJOR]
    (fun _ chord => if (chord =? 0)%nat then (-1 # 2) else (-1))%Q
    (fun _ i => nth i forced_split 0%Q)
    (fun _ r chord => if (chord =? fst r)%nat then (-1 # 4) else (-2))%Q
    (fun _ _ => (-1 # 3)%Q)
    (fun _ => 0%Q) (1 # 2)%Q
    (fun _ _ => (-1 # 5)%Q).

End Instances.

(** ** Small instances for the other notebook cells *)

Module CellInstances.
Import Instances.

Definition another_row : file_row := mkFileRow "Bach" "fugue.tsv".

(** A registry whose only submodel has checkpoints. *)
Definition small_registry : list (string * nat) :=
  [("ccm", 1%nat); ("icm", 0%nat)].

(** The same file system, listed in the opposite order. *)
Definition two_checkpoints_reversed (pattern : string) : list string :=
  rev (two_checkpoints pattern).

(** Three file ids; the piece of file 2 cannot be built. *)
Definition three_ids : Py.outcome (option (list Z)) :=
  Py.Returned (Some [1; 2; 3]%Z).

Definition two_dicts : option (Py.outcome (list (option nat))) :=
  Some (Py.Returned [Some 10%nat; Some 20%nat]).

Definition any_piece (file_id : Z) (piece_dict : option nat) : Py.outcome Piece :=
  Py.Returned (mkPiece [] []).

Definition all_but_two (file_id : Z) (piece_dict : option nat)
  : Py.outcome Piece :=
  if (file_id =? 2)%Z then Py.Raised Py.ValueError
  else Py.Returned (mkPiece [] []).

(** A proposal that has every correct boundary. *)
Definition every_boundary : list MissedRanges.ChordRange :=
  [(0, Some 4); (4, Some 8); (8, Some 12)]%Z.

(** Five scores for the alignment loop: [a] is aligned, [b] has no label
    file, the data of [c] raise [KeyError], those of [d] raise
    [ValueError], and [e] has no row. *)
Definition no_labels_for_b (path : string) : bool :=
  negb (String.eqb path (BeethovenAlignment.label_csv_path "b_02_mv1")).

Definition any_score (music_xml_path label_csv_path : string)
  : Py.outcome Piece :=
  Py.Returned (mkPiece [a_chord] []).

Definition sonata_files : list (Z * file_row) :=
  [(7%Z, mkFileRow "beethoven_piano_sonatas" "01-1.tsv");
   (9%Z, mkFileRow "beethoven_piano_sonatas" "03-2.tsv");
   (11%Z, mkFileRow "beethoven_piano_sonatas" "04-1.tsv")].

Definition sonata_data (file_id : Z) : Py.outcome Piece :=
  if (file_id =? 9)%Z then Py.Raised Py.KeyError
  else if (file_id =? 11)%Z then Py.Raised Py.ValueError
  else Py.Returned (mkPiece [a_chord; a_chord] []).

(** The labels of a piece, by their number. *)
Definition count_labels (score : Piece) : Py.outcome nat :=
  Py.Returned (length (get_chords score)).

Definition nothing_yet : BeethovenAlignment.world nat :=
  BeethovenAlignment.mkWorld [] ∅.

(** Two keys: the piece begins in the minor and moves to the major. *)
Definition minor_then_major : list Key :=
  [mkKey 0 0 MINOR MAJOR; mkKey 3 0 MAJOR MAJOR].

Definition degree_name (interval : Z) (mode : KeyMode) : string :=
  if (interval =? 0)%Z then "I" else "bIII".


Definition nested_row : file_row := mkFileRow "Bach/WTC" "prelude.tsv".

(** A piece in one key. *)
Definition one_key_piece (file_id : Z) : Py.outcome Piece :=
  if (file_id =? 0)%Z then Py.Raised Py.KeyError
  else Py.Returned (mkPiece [a_chord] [mkKey 0 0 MAJOR MAJOR]).

Definition degree_of (interval : Z) (mode : KeyMode) : Py.outcome string :=
  Py.Returned (degree_name interval mode).

End CellInstances.
(* ===================================================================== *)
(** * Part III: properties of the notebook cells *)
(* ===================================================================== *)

(** ** The stable sort *)

Section StableSortFacts.
Context {A : Type} (leb : A -> A -> bool).

Lemma insert_by_perm x l : Permutation (insert_by leb x l) (x :: l).
Proof.
  induction l as [|y l IH]; simpl; [reflexivity|].
  destruct (leb x y); [reflexivity|].
  rewrite IH. apply perm_swap.
Qed.

Lemma sort_by_perm l : Permutation (sort_by leb l) l.
Proof.
  induction l as [|x l IH]; simpl; [reflexivity|].
  rewrite insert_by_perm. now constructor.
Qed.

Lemma sort_by_In x l : In x (sort_by leb l) <-> In x l.
Proof.
  split; apply Permutation_in; [|symmetry]; apply sort_by_perm.
Qed.

Lemma sort_by_length l : length (sort_by leb l) = length l.
Proof. apply Permutation_length, sort_by_perm. Qed.

Section Ordered.
Hypothesis leb_total : forall x y, leb x y = true \/ leb y x = true.
Hypothesis leb_trans :
  forall x y z, leb x y = true -> leb y z = true -> leb x z = true.

Let le := fun x y => leb x y = true.

Lemma insert_by_sorted x l :
  StronglySorted le l -> StronglySorted le (insert_by leb x l).
Proof using leb_total leb_trans.
  induction 1 as [|y l Hs IH Hall]; simpl.
  - constructor; constructor.
  - destruct (leb x y) eqn:Hxy.
    + constructor; [constructor; assumption|].
      constructor; [exact Hxy|].
      apply List.Forall_forall. intros z Hz.
      rewrite List.Forall_forall in Hall.
      exact (leb_trans _ _ _ Hxy (Hall z Hz)).
    + constructor; [exact IH|].
      assert (Hyx : leb y x = true).
      { destruct (leb_total x y) as [H|H]; [congruence|exact H]. }
      apply List.Forall_forall. intros z Hz.
      apply (Permutation_in _ (insert_by_perm x l)) in Hz.
      destruct Hz as [<-|Hz]; [exact Hyx|].
      rewrite List.Forall_forall in Hall. exact (Hall z Hz).
Qed.

Lemma sort_by_sorted l : StronglySorted le (sort_by leb l).
Proof using leb_total leb_trans.
  induction l as [|x l IH]; simpl; [constructor|].
  now apply insert_by_sorted.
Qed.

Lemma leb_refl x : leb x x = true.
Proof using leb_total. destruct (leb_total x x); assumption. Qed.

(** The last element of a sorted list dominates every element. *)
Lemma sorted_last_max l c :
  StronglySorted le l -> last l = Some c -> forall x, In x l -> leb x c = true.
Proof using leb_total.
  induction 1 as [|y l Hs IH Hall]; intros Hlast x Hx; [inversion Hx|].
  destruct l as [|z l'].
  - simpl in Hlast. injection Hlast as <-.
    destruct Hx as [<-|[]]. apply leb_refl.
  - change (last (y :: z :: l')) with (last (z :: l')) in Hlast.
    destruct Hx as [<-|Hx].
    + rewrite List.Forall_forall in Hall. apply Hall.
      apply list_elem_of_In. eapply last_Some_elem_of. exact Hlast.
    + now apply IH.
Qed.

Lemma sort_by_last_max l c :
  last (sort_by leb l) = Some c ->
  In c l /\ forall x, In x l -> leb x c = true.
Proof using leb_total leb_trans.
  intros Hlast. split.
  - apply sort_by_In, list_elem_of_In. eapply last_Some_elem_of. exact Hlast.
  - intros x Hx. eapply sorted_last_max; eauto using sort_by_sorted.
    now apply sort_by_In.
Qed.

End Ordered.

(** Stability: a class [p] of mutually [leb] elements keeps its order. *)
Section Stable.
Variable p : A -> bool.
Hypothesis p_tied : forall x y, p x = true -> p y = true -> leb x y = true.

Lemma insert_by_filter x l :
  List.filter p (insert_by leb x l) = List.filter p (x :: l).
Proof using p_tied.
  induction l as [|y l IH]; [reflexivity|].
  simpl insert_by. destruct (leb x y) eqn:Hxy; [reflexivity|].
  simpl in *. rewrite IH.
  destruct (p x) eqn:Hpx; [|reflexivity].
  destruct (p y) eqn:Hpy; [|reflexivity].
  rewrite (p_tied _ _ Hpx Hpy) in Hxy. discriminate.
Qed.

Lemma sort_by_stable l : List.filter p (sort_by leb l) = List.filter p l.
Proof using p_tied.
  induction l as [|x l IH]; [reflexivity|].
  simpl sort_by. rewrite insert_by_filter. simpl. now rewrite IH.
Qed.
End Stable.

End StableSortFacts.

(** ** Code-point order on strings is transitive *)

Lemma ascii_compare_trans_lt a b c :
  Ascii.compare a b = Lt -> Ascii.compare b c = Lt -> Ascii.compare a c = Lt.
Proof.
  unfold Ascii.compare. rewrite !N.compare_lt_iff. lia.
Qed.

Lemma string_compare_trans_lt s1 : forall s2 s3,
  String.compare s1 s2 = Lt -> String.compare s2 s3 = Lt ->
  String.compare s1 s3 = Lt.
Proof.
  induction s1 as [|a s1 IH]; intros [|b s2] [|c s3]; simpl; try congruence.
  destruct (Ascii.compare a b) eqn:Hab; try discriminate;
    destruct (Ascii.compare b c) eqn:Hbc; try discriminate; intros H1 H2.
  - apply Ascii.compare_eq_iff in Hab, Hbc. subst.
    assert (Ascii.compare c c = Eq) as ->
      by (unfold Ascii.compare; apply N.compare_refl).
    eauto.
  - apply Ascii.compare_eq_iff in Hab. subst. now rewrite Hbc.
  - apply Ascii.compare_eq_iff in Hbc. subst. now rewrite Hab.
  - now rewrite (ascii_compare_trans_lt _ _ _ Hab Hbc).
Qed.

Lemma string_leb_trans s1 s2 s3 :
  String.leb s1 s2 = true -> String.leb s2 s3 = true -> String.leb s1 s3 = true.
Proof.
  unfold String.leb.
  destruct (String.compare s1 s2) eqn:H12; try discriminate;
    destruct (String.compare s2 s3) eqn:H23; try discriminate; intros _ _.
  - apply String.compare_eq_iff in H12, H23. subst.
    destruct (String.compare s3 s3) eqn:E; try reflexivity.
    pose proof (String.compare_antisym s3 s3) as Ha. rewrite E in Ha. discriminate.
  - apply String.compare_eq_iff in H12. subst. now rewrite H23.
  - apply String.compare_eq_iff in H23. subst. now rewrite H12.
  - now rewrite (string_compare_trans_lt _ _ _ H12 H23).
Qed.

Lemma sorted_last_is_max paths c :
  last (sorted paths) = Some c ->
  In c paths /\ forall p, In p paths -> String.leb p c = true.
Proof.
  apply sort_by_last_max; [apply String.leb_total | apply string_leb_trans].
Qed.


(** ** The export loops *)

Section ExportLoops.
Variable get_score_piece_from_data_frames : Z -> bool -> Py.outcome Piece.
Variable to_pitch_type : Chord -> Chord.
Variable CHORD_TYPE_TO_STRING : ChordType -> string.
Variable ScorePiece : Z -> Py.outcome Piece.
Variable open_file : string -> Py.outcome unit.
Variable get_scale_degree_from_interval : Z -> KeyMode -> Py.outcome string.

Local Abbreviation export_pieces :=
  (SelimProjectData.export_pieces
    get_score_piece_from_data_frames to_pitch_type CHORD_TYPE_TO_STRING
    open_file).
Local Abbreviation load_pieces :=
  (SelimProjectData.load_pieces get_score_piece_from_data_frames).
Local Abbreviation to_csv := (SelimProjectData.to_csv open_file).
Local Abbreviation write_piece :=
  (MLCourseData.write_piece open_file get_scale_degree_from_interval).
Local Abbreviation create_composer_data :=
  (MLCourseData.create_composer_data
    ScorePiece open_file get_scale_degree_from_interval).

Lemma export_pieces_app pre post st st' :
  export_pieces pre st = (st', Py.Returned tt) ->
  export_pieces (pre ++ post) st = export_pieces post st'.
Proof.
  revert st. induction pre as [|[file_id row] pre IH]; intros st H; simpl in *.
  - now injection H as ->.
  - destruct (load_pieces file_id) as [[rp lp]|e].
    + destruct (_ =? _)%nat; [|discriminate].
      destruct (SelimProjectData.to_csv _ _ _ st) as [st1 [[]|e]];
        [now apply IH | discriminate].
    + destruct (Py.is_Exception e); [now apply IH | discriminate].
Qed.

(** C8.  When the relative and the local analysis of one file are both
    built and their chord lists differ in length, the export loop stops at
    that file with [AssertionError]: the world is left exactly as the
    earlier files left it (no skip is logged, nothing is written for the
    file) and no later file is processed. *)
Theorem chord_count_mismatch_is_fatal
    (pre post : list (Z * file_row)) (file_id : Z) (row : file_row)
    (st st' : env (list SelimProjectData.Row))
    (relative_piece local_piece : Piece) :
  export_pieces pre st = (st', Py.Returned tt) ->
  get_score_piece_from_data_frames file_id true = Py.Returned relative_piece ->
  get_score_piece_from_data_frames file_id false = Py.Returned local_piece ->
  length (get_chords relative_piece) <> length (get_chords local_piece) ->
  export_pieces (pre ++ (file_id, row) :: post) st
  = (st', Py.Raised Py.AssertionError).
Proof.
  intros Hpre Hrel Hloc Hlen.
  rewrite (export_pieces_app _ _ _ _ Hpre).
  simpl. unfold SelimProjectData.load_pieces. rewrite Hrel, Hloc. simpl.
  apply Nat.eqb_neq in Hlen. now rewrite Hlen.
Qed.

(** *** The batch without the failed piece *)

Lemma to_csv_log_free name df st1 st2 :
  files st1 = files st2 ->
  files (fst (to_csv name df st1)) = files (fst (to_csv name df st2))
  /\ snd (to_csv name df st1) = snd (to_csv name df st2).
Proof.
  intros Hfiles. unfold SelimProjectData.to_csv.
  destruct (open_file _); simpl; rewrite ?Hfiles; now split.
Qed.

(** What a run writes and how it ends do not depend on the log. *)
Lemma export_pieces_log_free rows : forall st1 st2,
  files st1 = files st2 ->
  files (fst (export_pieces rows st1)) = files (fst (export_pieces rows st2))
  /\ snd (export_pieces rows st1) = snd (export_pieces rows st2).
Proof.
  induction rows as [|[file_id row] rows IH]; intros st1 st2 Hfiles; simpl.
  - now split.
  - destruct (load_pieces file_id) as [[rp lp]|e].
    + destruct (_ =? _)%nat; [|now split].
      destruct (to_csv_log_free (corpus_name row +:+ ".." +:+ file_name row)
                  (map (SelimProjectData.chord_row to_pitch_type
                          CHORD_TYPE_TO_STRING)
                       (zip (get_chords rp) (get_chords lp)))
                  st1 st2 Hfiles) as [Hf Ho].
      destruct (SelimProjectData.to_csv _ _ _ st1) as [st1' o1].
      destruct (SelimProjectData.to_csv _ _ _ st2) as [st2' o2].
      simpl in Hf, Ho. subst o2. destruct o1; [now apply IH | now split].
    + destruct (Py.is_Exception e); [|now split].
      apply IH. exact Hfiles.
Qed.

Lemma export_pieces_app_raised pre post st st' e :
  export_pieces pre st = (st', Py.Raised e) ->
  export_pieces (pre ++ post) st = (st', Py.Raised e).
Proof.
  revert st. induction pre as [|[file_id row] pre IH]; intros st H; simpl in *.
  - discriminate.
  - destruct (load_pieces file_id) as [[rp lp]|e0].
    + destruct (_ =? _)%nat; [|exact H].
      destruct (SelimProjectData.to_csv _ _ _ st) as [st1 [[]|e1]];
        [now apply IH | exact H].
    + destruct (Py.is_Exception e0); [now apply IH | exact H].
Qed.

(** A batch with a piece that cannot be built writes what the batch
    without that piece writes, and ends as it ends. *)
Lemma export_pieces_without_failed pre post file_id row e st :
  Py.is_Exception e = true ->
  load_pieces file_id = Py.Raised e ->
  files (fst (export_pieces (pre ++ (file_id, row) :: post) st))
  = files (fst (export_pieces (pre ++ post) st))
  /\ snd (export_pieces (pre ++ (file_id, row) :: post) st)
     = snd (export_pieces (pre ++ post) st).
Proof.
  intros He Hload.
  destruct (export_pieces pre st) as [st' [[]|e']] eqn:Hpre.
  - rewrite !(export_pieces_app _ _ _ _ Hpre). simpl. rewrite Hload, He.
    now apply export_pieces_log_free.
  - rewrite !(export_pieces_app_raised _ _ _ _ _ Hpre). now split.
Qed.

Lemma write_piece_log_free composer piece st1 st2 :
  files st1 = files st2 ->
  files (fst (write_piece composer piece st1))
  = files (fst (write_piece composer piece st2))
  /\ snd (write_piece composer piece st1)
     = snd (write_piece composer piece st2).
Proof.
  intros Hfiles. unfold MLCourseData.write_piece, MLCourseData.open_append.
  rewrite Hfiles.
  destruct (open_file _); [|now split].
  destruct (files st2 !! _); destruct (MLCourseData.key_symbols _ _);
    destruct (get_keys piece); simpl; rewrite ?Hfiles; now split.
Qed.

Lemma create_composer_data_log_free composer rows : forall st1 st2,
  files st1 = files st2 ->
  files (fst (create_composer_data composer rows st1))
  = files (fst (create_composer_data composer rows st2))
  /\ snd (create_composer_data composer rows st1)
     = snd (create_composer_data composer rows st2).
Proof.
  induction rows as [|[file_id row] rows IH]; intros st1 st2 Hfiles; simpl.
  - now split.
  - destruct (ScorePiece file_id) as [piece|e].
    + destruct (write_piece_log_free composer piece st1 st2 Hfiles) as [Hf Ho].
      destruct (MLCourseData.write_piece _ _ composer piece st1) as [st1' o1].
      destruct (MLCourseData.write_piece _ _ composer piece st2) as [st2' o2].
      simpl in Hf, Ho. subst o2. destruct o1; [now apply IH | now split].
    + destruct (Py.is_Exception e); [|now split].
      apply IH. exact Hfiles.
Qed.

Lemma create_composer_data_app composer pre post st :
  create_composer_data composer (pre ++ post) st
  = match create_composer_data composer pre st with
    | (st', Py.Returned _) => create_composer_data composer post st'
    | (st', Py.Raised e) => (st', Py.Raised e)
    end.
Proof.
  revert st. induction pre as [|[file_id row] pre IH]; intros st; simpl.
  - reflexivity.
  - destruct (ScorePiece file_id) as [piece|e].
    + destruct (MLCourseData.write_piece _ _ composer piece st) as [st' [[]|e']];
        [apply IH | reflexivity].
    + destruct (Py.is_Exception e); [apply IH | reflexivity].
Qed.

Lemma create_composer_data_without_failed composer pre post file_id row e st :
  Py.is_Exception e = true ->
  ScorePiece file_id = Py.Raised e ->
  files (fst (create_composer_data composer (pre ++ (file_id, row) :: post) st))
  = files (fst (create_composer_data composer (pre ++ post) st))
  /\ snd (create_composer_data composer (pre ++ (file_id, row) :: post) st)
     = snd (create_composer_data composer (pre ++ post) st).
Proof.
  intros He Hload. rewrite !create_composer_data_app.
  destruct (create_composer_data composer pre st) as [st' [[]|e']];
    [|now split].
  simpl. rewrite Hload, He. now apply create_composer_data_log_free.
Qed.

(** C9.  In both export loops, a file whose piece cannot be built (the
    constructor raises an [Exception]) costs two log records and nothing
    else: the files written so far are untouched and the loop goes on with
    the remaining files from that world.  So a batch with such a file
    writes what the batch without it writes, and ends as it ends. *)
Theorem failed_piece_is_skipped
    (file_id : Z) (row : file_row) (rest : list (Z * file_row)) (e : Py.exn) :
  Py.is_Exception e = true ->
  (load_pieces file_id = Py.Raised e ->
   (forall st,
      export_pieces ((file_id, row) :: rest) st
      = export_pieces rest (log_no_data file_id e st))
   /\ (forall pre st,
         files (fst (export_pieces (pre ++ (file_id, row) :: rest) st))
         = files (fst (export_pieces (pre ++ rest) st))
         /\ snd (export_pieces (pre ++ (file_id, row) :: rest) st)
            = snd (export_pieces (pre ++ rest) st)))
  /\ (ScorePiece file_id = Py.Raised e ->
      (forall composer st,
         create_composer_data composer ((file_id, row) :: rest) st
         = create_composer_data composer rest (log_no_data file_id e st))
      /\ (forall composer pre st,
            files (fst (create_composer_data composer
                          (pre ++ (file_id, row) :: rest) st))
            = files (fst (create_composer_data composer (pre ++ rest) st))
            /\ snd (create_composer_data composer
                      (pre ++ (file_id, row) :: rest) st)
               = snd (create_composer_data composer (pre ++ rest) st)))
  /\ (forall C (st : env C),
        files (log_no_data file_id e st) = files st
        /\ log (log_no_data file_id e st)
           = (log st ++ [LogError (NoDataCreated file_id); LogException e])%list).
Proof.
  intros He. split; [|split].
  - intros Hload. split.
    + intros st. simpl. now rewrite Hload, He.
    + intros pre st. now apply export_pieces_without_failed with (e := e).
  - intros Hload. split.
    + intros composer st. simpl. now rewrite Hload, He.
    + intros composer pre st.
      now apply create_composer_data_without_failed with (e := e).
  - intros C st. now split.
Qed.

End ExportLoops.
(** ** Loading the submodels *)

(** Two lists in increasing order with the same elements are the same
    list, the order being antisymmetric. *)
Lemma sorted_perm_eq {A} (R : A -> A -> Prop) (l1 : list A) : forall l2,
  (forall x y, R x y -> R y x -> x = y) ->
  StronglySorted R l1 -> StronglySorted R l2 -> Permutation l1 l2 -> l1 = l2.
Proof.
  induction l1 as [|x t1 IH]; intros l2 Hanti H1 H2 Hperm.
  - symmetry. now apply Permutation_nil.
  - destruct l2 as [|y t2];
      [symmetry in Hperm; now apply Permutation_nil in Hperm|].
    apply StronglySorted_inv in H1 as [H1 Hx].
    apply StronglySorted_inv in H2 as [H2 Hy].
    rewrite List.Forall_forall in Hx, Hy.
    assert (Hxy : x = y).
    { assert (Hin : In x (y :: t2))
        by (apply (Permutation_in _ Hperm); now left).
      assert (Hin' : In y (x :: t1))
        by (apply (Permutation_in _ (Permutation_sym Hperm)); now left).
      destruct Hin as [->|Hin]; [reflexivity|].
      destruct Hin' as [->|Hin']; [reflexivity|].
      apply Hanti; [apply Hx, Hin' | apply Hy, Hin]. }
    subst y. f_equal. apply IH; try assumption.
    now apply Permutation_cons_inv in Hperm.
Qed.

Lemma string_leb_antisym s t :
  String.leb s t = true -> String.leb t s = true -> s = t.
Proof.
  unfold String.leb. rewrite (String.compare_antisym t s).
  destruct (String.compare s t) eqn:E; simpl; try discriminate.
  intros _ _. now apply String.compare_eq_iff.
Qed.

Lemma sorted_perm (l1 l2 : list string) :
  Permutation l1 l2 -> sorted l1 = sorted l2.
Proof.
  intros Hperm. unfold sorted.
  apply (sorted_perm_eq (fun x y => String.leb x y = true)).
  - apply string_leb_antisym.
  - apply sort_by_sorted; [apply String.leb_total | apply string_leb_trans].
  - apply sort_by_sorted; [apply String.leb_total | apply string_leb_trans].
  - rewrite (sort_by_perm String.leb l1), (sort_by_perm String.leb l2).
    exact Hperm.
Qed.

Lemma last_cons_default {A} (l : list A) (x d : A) :
  last (x :: l) = Some (List.last (x :: l) d).
Proof.
  revert x. induction l as [|y l IH]; intros x; [reflexivity|].
  change (last (x :: y :: l)) with (last (y :: l)).
  change (List.last (x :: y :: l) d) with (List.last (y :: l) d).
  apply IH.
Qed.

Section LoadModelsCell.
Context {Class Model : Type}.
Variable MODEL_CLASSES : list (string * Class).
Variable load_from_checkpoint : Class -> string -> Py.outcome Model.
Variable freeze : Model -> Py.outcome Model.
Variable SimpleInitialChordModel : string -> Py.outcome Model.

Local Abbreviation model_paths := (LoadModels.model_paths MODEL_CLASSES).

Local Abbreviation add_path :=
  (fun (paths : gmap string string) (item : string * Class) =>
     let model := fst item in
     if String.eqb model "icm" then paths
     else <[ model := LoadModels.checkpoint_pattern model ]> paths).

Lemma add_paths_other (items : list (string * Class)) acc name :
  ~ In name (map fst items) ->
  foldl add_path acc items !! name = acc !! name.
Proof.
  revert acc. induction items as [|[n c] items IH]; intros acc Hnot; [reflexivity|].
  simpl in *. rewrite IH by tauto.
  destruct (String.eqb n "icm"); [reflexivity|].
  apply lookup_insert_ne. tauto.
Qed.

Lemma add_paths_member (items : list (string * Class)) acc name :
  name <> "icm" -> In name (map fst items) ->
  foldl add_path acc items !! name = Some (LoadModels.checkpoint_pattern name).
Proof.
  intros Hicm. revert acc.
  induction items as [|[n c] items IH]; intros acc Hin; [destruct Hin|].
  simpl in *. destruct (in_dec String.string_dec name (map fst items)) as [Hi|Hni].
  - now apply IH.
  - destruct Hin as [->|Hin]; [|contradiction].
    rewrite add_paths_other by assumption.
    apply String.eqb_neq in Hicm. rewrite Hicm. apply lookup_insert_eq.
Qed.

(** Every registered name other than ["icm"] has its search pattern. *)
Lemma model_paths_lookup name :
  name <> "icm" -> In name (map fst MODEL_CLASSES) ->
  model_paths !! name = Some (LoadModels.checkpoint_pattern name).
Proof.
  intros Hicm Hin. unfold LoadModels.model_paths.
  rewrite lookup_insert_ne by congruence.
  now apply (add_paths_member MODEL_CLASSES ∅ name).
Qed.

Lemma registered (pre post : list (string * Class)) name cls :
  MODEL_CLASSES = pre ++ (name, cls) :: post ->
  In name (map fst MODEL_CLASSES).
Proof.
  intros ->. apply in_map_iff. exists (name, cls). split; [reflexivity|].
  apply in_app_iff. right. now left.
Qed.

Section OneFileSystem.
Variable glob : string -> list string.

Local Abbreviation load_model :=
  (LoadModels.load_model MODEL_CLASSES glob load_from_checkpoint freeze).
Local Abbreviation load_models_loop :=
  (LoadModels.load_models_loop MODEL_CLASSES glob load_from_checkpoint freeze).
Local Abbreviation load_models :=
  (LoadModels.load_models MODEL_CLASSES glob load_from_checkpoint freeze
    SimpleInitialChordModel).

Lemma load_models_loop_app pre post st st' :
  load_models_loop pre st = (st', Py.Returned tt) ->
  load_models_loop (pre ++ post) st = load_models_loop post st'.
Proof.
  revert st.
  induction pre as [|[n c] pre IH]; intros st H; simpl in *.
  - now injection H as ->.
  - destruct (String.eqb n "icm"); [now apply IH|].
    destruct (LoadModels.load_model _ _ _ _ n c st) as [st1 [[]|e]];
      [now apply IH | discriminate].
Qed.

(** One turn of the loop on a name without a matching checkpoint. *)
Lemma load_model_missing name cls st :
  name <> "icm" -> In name (map fst MODEL_CLASSES) ->
  glob (LoadModels.checkpoint_pattern name) = [] ->
  load_model name cls st
  = (LoadModels.error
       (NoCheckpointsFound name (LoadModels.checkpoint_pattern name)) st,
     Py.Raised (Py.NameError "sys")).
Proof.
  intros Hicm Hin Hglob. unfold LoadModels.load_model.
  rewrite (model_paths_lookup name Hicm Hin), Hglob.
  reflexivity.
Qed.

(** One turn of the loop on a name that has matching checkpoints: the
    last of the sorted matches is announced and loaded; the model is
    stored and then frozen. *)
Lemma load_model_found name cls st :
  name <> "icm" -> In name (map fst MODEL_CLASSES) ->
  glob (LoadModels.checkpoint_pattern name) <> [] ->
  exists c msg,
    last (sorted (glob (LoadModels.checkpoint_pattern name))) = Some c
    /\ load_model name cls st
       = match load_from_checkpoint cls c with
         | Py.Raised e => (LoadModels.info msg st, Py.Raised e)
         | Py.Returned model =>
             match freeze model with
             | Py.Raised e =>
                 (LoadModels.mkCell (LoadModels.cell_log st ++ [LogInfo msg])
                    (<[ name := model ]> (LoadModels.models st)),
                  Py.Raised e)
             | Py.Returned frozen =>
                 (LoadModels.mkCell (LoadModels.cell_log st ++ [LogInfo msg])
                    (<[ name := frozen ]> (LoadModels.models st)),
                  Py.Returned tt)
             end
         end.
Proof.
  intros Hicm Hin Hglob. unfold LoadModels.load_model.
  rewrite (model_paths_lookup name Hicm Hin).
  destruct (sorted (glob (LoadModels.checkpoint_pattern name)))
    as [|first others] eqn:Es.
  - exfalso. apply Hglob. apply length_zero_iff_nil.
    rewrite <- (sort_by_length String.leb). unfold sorted in Es. now rewrite Es.
  - destruct others as [|second others].
    + exists first, (LoadingCheckpoint first name). split; [reflexivity|].
      destruct (load_from_checkpoint cls first) as [model|e]; [|reflexivity].
      destruct (freeze model) as [frozen|e]; [|reflexivity].
      simpl. now rewrite insert_insert_eq.
    + exists (List.last (first :: second :: others) first),
             (MultipleCheckpoints name (List.last (first :: second :: others) first)).
      split; [apply last_cons_default|].
      destruct (load_from_checkpoint cls _) as [model|e]; [|reflexivity].
      destruct (freeze model) as [frozen|e]; [|reflexivity].
      cbn [LoadModels.models LoadModels.cell_log LoadModels.info].
      now rewrite insert_insert_eq.
Qed.

(** A turn that returns has found a checkpoint, loaded it and frozen the
    model. *)
Lemma load_model_returned name cls st st' :
  name <> "icm" -> In name (map fst MODEL_CLASSES) ->
  load_model name cls st = (st', Py.Returned tt) ->
  exists c model frozen,
    last (sorted (glob (LoadModels.checkpoint_pattern name))) = Some c
    /\ load_from_checkpoint cls c = Py.Returned model
    /\ freeze model = Py.Returned frozen
    /\ LoadModels.models st' = <[ name := frozen ]> (LoadModels.models st).
Proof.
  intros Hicm Hin Hrun.
  destruct (glob (LoadModels.checkpoint_pattern name)) as [|p ps] eqn:Hglob.
  - rewrite (load_model_missing name cls st Hicm Hin Hglob) in Hrun.
    discriminate.
  - destruct (load_model_found name cls st Hicm Hin) as (c & msg & Hlast & Hstep);
      [rewrite Hglob; discriminate|].
    rewrite Hglob in Hlast. rewrite Hstep in Hrun.
    exists c.
    destruct (load_from_checkpoint cls c) as [model|e]; [|discriminate].
    destruct (freeze model) as [frozen|e] eqn:Hf; [|discriminate].
    exists model, frozen. injection Hrun as <-. auto.
Qed.

(** When every submodel of [items] has a checkpoint that loads and
    freezes, the loop returns. *)
Lemma load_models_loop_found (items : list (string * Class)) : forall st,
  (forall n c, In (n, c) items -> In n (map fst MODEL_CLASSES)) ->
  (forall n c, In (n, c) items -> n <> "icm" ->
               glob (LoadModels.checkpoint_pattern n) <> []) ->
  (forall n cls c, In (n, cls) items -> n <> "icm" ->
     last (sorted (glob (LoadModels.checkpoint_pattern n))) = Some c ->
     exists model frozen,
       load_from_checkpoint cls c = Py.Returned model
       /\ freeze model = Py.Returned frozen) ->
  exists st', load_models_loop items st = (st', Py.Returned tt).
Proof.
  induction items as [|[n c] items IH]; intros st Hreg Hall Hload; simpl;
    [now eexists|].
  destruct (String.eqb n "icm") eqn:En.
  - apply IH; eauto using in_cons.
  - apply String.eqb_neq in En.
    destruct (load_model_found n c st En) as (ckpt & msg & Hlast & ->);
      [eapply Hreg; now left | eapply Hall; [now left | exact En] |].
    destruct (Hload n c ckpt (or_introl eq_refl) En Hlast)
      as (model & frozen & -> & ->).
    apply IH; eauto using in_cons.
Qed.

(** What a run of the loop that returns leaves in the dict: under every
    name of [items] other than ["icm"] the frozen model loaded from the
    last of the sorted matches, and under every other name what was there
    before. *)
Lemma load_models_loop_lookup (items : list (string * Class)) : forall st st',
  (forall n c, In (n, c) items -> In n (map fst MODEL_CLASSES)) ->
  NoDup (map fst items) ->
  load_models_loop items st = (st', Py.Returned tt) ->
  (forall n cls, In (n, cls) items -> n <> "icm" ->
     exists c model frozen,
       last (sorted (glob (LoadModels.checkpoint_pattern n))) = Some c
       /\ load_from_checkpoint cls c = Py.Returned model
       /\ freeze model = Py.Returned frozen
       /\ LoadModels.models st' !! n = Some frozen)
  /\ (forall n, ~ In n (map fst items) ->
        LoadModels.models st' !! n = LoadModels.models st !! n).
Proof.
  induction items as [|[n0 c0] items IH]; intros st st' Hreg Hnd Hrun.
  - simpl in Hrun. injection Hrun as <-. split; [intros n cls []|reflexivity].
  - simpl in Hnd. apply NoDup_cons in Hnd as [Hfresh Hnd].
    rewrite list_elem_of_In in Hfresh. simpl in Hrun.
    assert (Hreg' : forall n c, In (n, c) items -> In n (map fst MODEL_CLASSES))
      by eauto using in_cons.
    destruct (String.eqb n0 "icm") eqn:En.
    + apply String.eqb_eq in En. subst n0.
      destruct (IH st st' Hreg' Hnd Hrun) as [Hin Hout]. split.
      * intros n cls [[= <- <-]|Hi] Hicm; [congruence | eauto].
      * intros n Hn. apply Hout. simpl in Hn. tauto.
    + apply String.eqb_neq in En.
      assert (Hn0 : In n0 (map fst MODEL_CLASSES)) by (eapply Hreg; now left).
      destruct (LoadModels.load_model _ _ _ _ n0 c0 st) as [st1 [[]|e]] eqn:Hstep;
        [|discriminate].
      destruct (load_model_returned n0 c0 st st1 En Hn0 Hstep)
        as (c & model & frozen & Hlast & Hl & Hf & Hmodels).
      destruct (IH _ st' Hreg' Hnd Hrun) as [Hin Hout]. split.
      * intros n cls [[= <- <-]|Hi] Hicm; [|eauto].
        exists c, model, frozen. repeat split; try assumption.
        rewrite Hout by exact Hfresh. rewrite Hmodels. apply lookup_insert_eq.
      * intros n Hn. simpl in Hn. rewrite Hout by tauto. rewrite Hmodels.
        apply lookup_insert_ne. tauto.
Qed.

Lemma dom_insert (m m' : gmap string Model) name x (P : string -> Prop) :
  name <> "icm" ->
  (forall n, is_Some (m' !! n) ->
     is_Some (<[ name := x ]> m !! n) \/ (P n /\ n <> "icm")) ->
  forall n, is_Some (m' !! n) ->
    is_Some (m !! n) \/ ((name = n \/ P n) /\ n <> "icm").
Proof.
  intros Hicm Hdom n Hn. destruct (Hdom n Hn) as [H|[H1 H2]].
  - destruct (String.string_dec name n) as [<-|Hne].
    + right. split; [now left | exact Hicm].
    + rewrite lookup_insert_ne in H by exact Hne. now left.
  - right. split; [now right | exact H2].
Qed.

(** What the loop leaves in the dict, and why it ended if it raised. *)
Lemma load_models_loop_outcome (items : list (string * Class)) : forall st,
  (forall n c, In (n, c) items -> In n (map fst MODEL_CLASSES)) ->
  match load_models_loop items st with
  | (st', Py.Returned _) =>
      forall n, is_Some (LoadModels.models st' !! n) ->
        is_Some (LoadModels.models st !! n)
        \/ (In n (map fst items) /\ n <> "icm")
  | (st', Py.Raised e) =>
      exists pre name cls post,
        items = pre ++ (name, cls) :: post
        /\ name <> "icm"
        /\ (forall n c, In (n, c) pre -> n <> "icm" ->
              glob (LoadModels.checkpoint_pattern n) <> [])
        /\ ((glob (LoadModels.checkpoint_pattern name) = []
             /\ e = Py.NameError "sys"
             /\ last (LoadModels.cell_log st')
                = Some (LogError (NoCheckpointsFound
                                    name (LoadModels.checkpoint_pattern name)))
             /\ forall n, is_Some (LoadModels.models st' !! n) ->
                  is_Some (LoadModels.models st !! n)
                  \/ (In n (map fst pre) /\ n <> "icm"))
            \/ (exists c,
                  last (sorted (glob (LoadModels.checkpoint_pattern name)))
                  = Some c
                  /\ load_from_checkpoint cls c = Py.Raised e
                  /\ forall n, is_Some (LoadModels.models st' !! n) ->
                       is_Some (LoadModels.models st !! n)
                       \/ (In n (map fst pre) /\ n <> "icm"))
            \/ (exists c model,
                  last (sorted (glob (LoadModels.checkpoint_pattern name)))
                  = Some c
                  /\ load_from_checkpoint cls c = Py.Returned model
                  /\ freeze model = Py.Raised e
                  /\ LoadModels.models st' !! name = Some model
                  /\ forall n, is_Some (LoadModels.models st' !! n) ->
                       is_Some (LoadModels.models st !! n)
                       \/ ((In n (map fst pre) \/ n = name) /\ n <> "icm")))
  end.
Proof.
  induction items as [|[name cls] items IH]; intros st Hreg; simpl.
  - intros n Hn. now left.
  - assert (Hreg' : forall n c, In (n, c) items -> In n (map fst MODEL_CLASSES))
      by (intros n c Hin; apply (Hreg n c); now right).
    destruct (String.eqb name "icm") eqn:Eicm.
    + specialize (IH st Hreg').
      destruct (LoadModels.load_models_loop _ _ _ _ items st) as [st' [[]|e]].
      * intros n Hn. destruct (IH n Hn) as [H|[H1 H2]]; [now left|].
        right. split; [now right | exact H2].
      * destruct IH as (pre & nm & c & post & -> & Hnm & Hpre & Hwhy).
        exists ((name, cls) :: pre), nm, c, post.
        split; [reflexivity|]. split; [exact Hnm|]. split.
        -- intros n c0 [Heq|Hin] Hn; [|eauto].
           inversion Heq; subst. apply String.eqb_eq in Eicm. contradiction.
        -- destruct Hwhy as [(Hg & He & Hlog & Hdom)
                            |[(c1 & Hlast & Hl & Hdom)
                             |(c1 & model & Hlast & Hl & Hf & Hm & Hdom)]].
           ++ left. repeat split; try assumption.
              intros n Hn. destruct (Hdom n Hn) as [H|[H1 H2]]; [now left|].
              right. split; [now right | exact H2].
           ++ right. left. exists c1. repeat split; try assumption.
              intros n Hn. destruct (Hdom n Hn) as [H|[H1 H2]]; [now left|].
              right. split; [now right | exact H2].
           ++ right. right. exists c1, model. repeat split; try assumption.
              intros n Hn. destruct (Hdom n Hn) as [H|[[H1|H1] H2]];
                [now left| |].
              ** right. split; [left; now right | exact H2].
              ** right. split; [now right | exact H2].
    + apply String.eqb_neq in Eicm.
      assert (Hname : In name (map fst MODEL_CLASSES))
        by (apply (Hreg name cls); now left).
      destruct (glob (LoadModels.checkpoint_pattern name)) as [|p ps] eqn:Hglob.
      * rewrite (load_model_missing name cls st Eicm Hname Hglob).
        exists [], name, cls, items.
        split; [reflexivity|]. split; [exact Eicm|].
        split; [intros n c []|].
        left. rewrite Hglob. split; [reflexivity|]. split; [reflexivity|].
        split; [simpl; apply last_snoc | intros n Hn; now left].
      * assert (Hsome : glob (LoadModels.checkpoint_pattern name) <> [])
          by (rewrite Hglob; discriminate).
        destruct (load_model_found name cls st Eicm Hname Hsome)
          as (c & msg & Hlast & ->).
        destruct (load_from_checkpoint cls c) as [model|e] eqn:Hl.
        2:{ exists [], name, cls, items.
            split; [reflexivity|]. split; [exact Eicm|].
            split; [intros n c0 []|].
            right. left. exists c. repeat split; try assumption.
            intros n Hn; now left. }
        destruct (freeze model) as [frozen|e] eqn:Hf.
        2:{ exists [], name, cls, items.
            split; [reflexivity|]. split; [exact Eicm|].
            split; [intros n c0 []|].
            right. right. exists c, model.
            repeat split; try assumption; [simpl; apply lookup_insert_eq|].
            intros n Hn. simpl in Hn.
            destruct (String.string_dec name n) as [<-|Hne].
            - right. split; [now right | exact Eicm].
            - rewrite lookup_insert_ne in Hn by exact Hne. now left. }
        match goal with
        | |- context [LoadModels.load_models_loop _ _ _ _ items ?s] =>
            specialize (IH s Hreg');
            destruct (LoadModels.load_models_loop
                        MODEL_CLASSES glob load_from_checkpoint freeze items s)
              as [st' [[]|e]]
        end.
        -- exact (dom_insert _ _ name frozen _ Eicm IH).
        -- destruct IH as (pre & nm & c0 & post & -> & Hnm & Hpre & Hwhy).
           exists ((name, cls) :: pre), nm, c0, post.
           split; [reflexivity|]. split; [exact Hnm|]. split.
           ++ intros n c1 [Heq|Hin] Hn; [|eauto].
              inversion Heq; subst. exact Hsome.
           ++ destruct Hwhy as [(Hg & He & Hlog & Hdom)
                               |[(c1 & Hlast1 & Hl1 & Hdom)
                                |(c1 & model1 & Hlast1 & Hl1 & Hf1 & Hm & Hdom)]].
              ** left. repeat split; try assumption.
                 exact (dom_insert _ _ name frozen _ Eicm Hdom).
              ** right. left. exists c1. repeat split; try assumption.
                 exact (dom_insert _ _ name frozen _ Eicm Hdom).
              ** right. right. exists c1, model1. repeat split; try assumption.
                 intros n Hn.
                 destruct (dom_insert _ _ name frozen _ Eicm Hdom n Hn)
                   as [H|[[H|[H|H]] H2]]; [now left| | |];
                   right; (split; [|exact H2]).
                 --- left. now left.
                 --- left. now right.
                 --- now right.
Qed.

(** C10.  When the loading loop reaches a submodel other than ["icm"],
    the earlier ones being loaded: if paths match its pattern, the one
    that is loaded is the last of the sorted matches, which is a match
    and is not below any match in code-point order, and when it loads and
    freezes, the dict then holds under the name the frozen model.  If no
    path matches, the cell logs the error and evaluates [sys.exit(2)]; the
    notebook does not import [sys], so the cell ends with [NameError] and
    not with the exit: nothing more is loaded, but what ends the cell is an
    ordinary [Exception] and no exit status [2]. *)
Theorem checkpoint_selection
    (pre post : list (string * Class)) (name : string) (cls : Class)
    (log0 : list log_record) (st1 : LoadModels.cell_state Model) :
  MODEL_CLASSES = pre ++ (name, cls) :: post ->
  name <> "icm" ->
  load_models_loop pre (LoadModels.mkCell log0 ∅) = (st1, Py.Returned tt) ->
  let matches := glob (LoadModels.checkpoint_pattern name) in
  (matches = [] ->
     load_models log0
     = (LoadModels.error
          (NoCheckpointsFound name (LoadModels.checkpoint_pattern name)) st1,
        Py.Raised (Py.NameError "sys"))
     /\ Py.is_Exception (Py.NameError "sys") = true
     /\ Py.is_Exception (Py.SystemExit 2) = false)
  /\ (matches <> [] ->
        exists c,
          last (sorted matches) = Some c
          /\ In c matches
          /\ (forall p, In p matches -> String.leb p c = true)
          /\ forall model frozen,
               load_from_checkpoint cls c = Py.Returned model ->
               freeze model = Py.Returned frozen ->
               exists st,
                 load_models_loop (pre ++ [(name, cls)]) (LoadModels.mkCell log0 ∅)
                 = (st, Py.Returned tt)
                 /\ LoadModels.models st
                    = <[ name := frozen ]> (LoadModels.models st1)).
Proof.
  intros HMC Hicm Hst1 matches.
  pose proof (registered pre post name cls HMC) as Hname.
  apply String.eqb_neq in Hicm as Hicm'.
  split.
  - intros Hnone. split; [|split; reflexivity].
    unfold LoadModels.load_models.
    pose proof (load_models_loop_app pre ((name, cls) :: post) _ _ Hst1) as Happ.
    rewrite <- HMC in Happ. rewrite Happ. simpl. rewrite Hicm'.
    now rewrite (load_model_missing name cls st1 Hicm Hname Hnone).
  - intros Hsome.
    destruct (load_model_found name cls st1 Hicm Hname Hsome)
      as (c & msg & Hlast & Hstep).
    destruct (sorted_last_is_max _ _ Hlast) as [Hin Hmax].
    exists c. repeat split; [exact Hlast | exact Hin | exact Hmax |].
    intros model frozen Hl Hf.
    rewrite (load_models_loop_app _ _ _ _ Hst1). simpl. rewrite Hicm'.
    rewrite Hstep, Hl, Hf. eexists. split; reflexivity.
Qed.

(** X4.  When every registered submodel other than ["icm"] has a
    checkpoint, and the last of its sorted checkpoints loads and freezes,
    and the initial chord model is read, the cell that loads the models
    returns, and the [models] dict then holds exactly the registered names
    and ["icm"]: under each submodel's name the frozen model loaded from
    the last of its sorted checkpoints, and under ["icm"] the
    [SimpleInitialChordModel] of [checkpoints/icm/initial_chord_prior.json],
    which is not frozen. *)
Theorem every_submodel_is_loaded (log0 : list log_record) :
  NoDup (map fst MODEL_CLASSES) ->
  (forall n c, In (n, c) MODEL_CLASSES -> n <> "icm" ->
               glob (LoadModels.checkpoint_pattern n) <> []) ->
  (forall n cls c, In (n, cls) MODEL_CLASSES -> n <> "icm" ->
     last (sorted (glob (LoadModels.checkpoint_pattern n))) = Some c ->
     exists model frozen,
       load_from_checkpoint cls c = Py.Returned model
       /\ freeze model = Py.Returned frozen) ->
  (exists prior,
     SimpleInitialChordModel "checkpoints/icm/initial_chord_prior.json"
     = Py.Returned prior) ->
  exists st,
    load_models log0 = (st, Py.Returned tt)
    /\ (exists prior,
          SimpleInitialChordModel "checkpoints/icm/initial_chord_prior.json"
          = Py.Returned prior
          /\ LoadModels.models st !! "icm" = Some prior)
    /\ (forall n cls, In (n, cls) MODEL_CLASSES -> n <> "icm" ->
          exists c model frozen,
            last (sorted (glob (LoadModels.checkpoint_pattern n))) = Some c
            /\ load_from_checkpoint cls c = Py.Returned model
            /\ freeze model = Py.Returned frozen
            /\ LoadModels.models st !! n = Some frozen)
    /\ (forall n, is_Some (LoadModels.models st !! n) ->
          n = "icm" \/ In n (map fst MODEL_CLASSES)).
Proof.
  intros Hnd Hall Hload [prior Hprior].
  assert (Hreg : forall n c, In (n, c) MODEL_CLASSES -> In n (map fst MODEL_CLASSES)).
  { intros n c Hin. apply in_map_iff. now exists (n, c). }
  destruct (load_models_loop_found MODEL_CLASSES (LoadModels.mkCell log0 ∅)
              Hreg Hall Hload) as [st1 Hrun].
  destruct (load_models_loop_lookup _ _ _ Hreg Hnd Hrun) as [Hin Hout].
  unfold LoadModels.load_models. rewrite Hrun.
  unfold LoadModels.model_paths at 1. rewrite lookup_insert_eq.
  change LoadModels.icm_path with "checkpoints/icm/initial_chord_prior.json".
  rewrite Hprior.
  eexists. split; [reflexivity|]. split; [|split].
  - exists prior. split; [reflexivity|]. simpl. apply lookup_insert_eq.
  - intros n cls Hn Hicm.
    destruct (Hin n cls Hn Hicm) as (c & model & frozen & Hlast & Hl & Hf & Hlook).
    exists c, model, frozen. repeat split; try assumption. simpl.
    rewrite lookup_insert_ne by congruence. exact Hlook.
  - intros n Hn. simpl in Hn.
    destruct (String.string_dec "icm" n) as [<-|Hne]; [now left|].
    rewrite lookup_insert_ne in Hn by exact Hne.
    right. destruct (in_dec String.string_dec n (map fst MODEL_CLASSES))
      as [Hyes|Hno]; [exact Hyes|].
    rewrite (Hout n Hno) in Hn. simpl in Hn. rewrite lookup_empty in Hn.
    now destruct Hn.
Qed.

(** X5.  How the cell that loads the models can end.  Either it returns;
    or the initial chord model could not be read, after every submodel
    was loaded; or it ends at the first registered submodel, other than
    ["icm"], that could not be loaded, every earlier one having had a
    checkpoint.  At that submodel one of three things happened: no path
    matched its pattern, the error for the name is the last record of the
    log and the cell ends with the [NameError] of [sys.exit(2)]; or
    [load_from_checkpoint] raised on the last of the sorted matches; or
    [freeze] raised, the model staying in the dict as it was loaded.
    The cell ends with what was raised; the dict holds no name but those
    of earlier submodels (and, when [freeze] raised, the name itself); in
    particular neither a later submodel nor the initial chord model was
    loaded. *)
Theorem how_loading_the_models_can_fail (log0 : list log_record) :
  snd (load_models log0) = Py.Returned tt
  \/ (exists e,
        snd (load_models log0) = Py.Raised e
        /\ LoadModels.models (fst (load_models log0)) !! "icm" = None
        /\ ((SimpleInitialChordModel "checkpoints/icm/initial_chord_prior.json"
             = Py.Raised e
             /\ exists st,
                  load_models_loop MODEL_CLASSES (LoadModels.mkCell log0 ∅)
                  = (st, Py.Returned tt))
            \/ exists pre name cls post,
                 MODEL_CLASSES = pre ++ (name, cls) :: post
                 /\ name <> "icm"
                 /\ (forall n c, In (n, c) pre -> n <> "icm" ->
                       glob (LoadModels.checkpoint_pattern n) <> [])
                 /\ ((glob (LoadModels.checkpoint_pattern name) = []
                      /\ e = Py.NameError "sys"
                      /\ last (LoadModels.cell_log (fst (load_models log0)))
                         = Some (LogError
                                   (NoCheckpointsFound
                                      name (LoadModels.checkpoint_pattern name)))
                      /\ forall n,
                           is_Some (LoadModels.models (fst (load_models log0)) !! n) ->
                           In n (map fst pre))
                     \/ (exists c,
                           last (sorted (glob (LoadModels.checkpoint_pattern name)))
                           = Some c
                           /\ load_from_checkpoint cls c = Py.Raised e
                           /\ forall n,
                                is_Some (LoadModels.models (fst (load_models log0)) !! n) ->
                                In n (map fst pre))
                     \/ (exists c model,
                           last (sorted (glob (LoadModels.checkpoint_pattern name)))
                           = Some c
                           /\ load_from_checkpoint cls c = Py.Returned model
                           /\ freeze model = Py.Raised e
                           /\ LoadModels.models (fst (load_models log0)) !! name
                              = Some model
                           /\ forall n,
                                is_Some (LoadModels.models (fst (load_models log0)) !! n) ->
                                In n (map fst pre) \/ n = name)))).
Proof.
  assert (Hreg : forall n c, In (n, c) MODEL_CLASSES -> In n (map fst MODEL_CLASSES)).
  { intros n c Hin. apply in_map_iff. now exists (n, c). }
  pose proof (load_models_loop_outcome MODEL_CLASSES (LoadModels.mkCell log0 ∅) Hreg)
    as Hloop.
  unfold LoadModels.load_models.
  destruct (LoadModels.load_models_loop MODEL_CLASSES glob load_from_checkpoint
              freeze MODEL_CLASSES (LoadModels.mkCell log0 ∅)) as [st [[]|e]].
  - unfold LoadModels.model_paths. rewrite lookup_insert_eq.
    change LoadModels.icm_path with "checkpoints/icm/initial_chord_prior.json".
    destruct (SimpleInitialChordModel _) as [prior|e] eqn:Hprior; [now left|].
    right. exists e. split; [reflexivity|]. split.
    + simpl. destruct (LoadModels.models st !! "icm") as [m|] eqn:E;
        [|reflexivity].
      destruct (Hloop "icm") as [H|[_ H]]; [rewrite E; eauto | |contradiction].
      simpl in H. rewrite lookup_empty in H. now destruct H.
    + left. split; [reflexivity|]. now exists st.
  - right. exists e.
    destruct Hloop as (pre & nm & c & post & HMC & Hnm & Hpre & Hwhy).
    split; [reflexivity|]. simpl.
    assert (Hempty : forall n (P : Prop),
              is_Some (LoadModels.models
                         (LoadModels.mkCell log0 (∅ : gmap string Model)) !! n)
              \/ P /\ n <> "icm" -> P /\ n <> "icm").
    { intros n P [H|H]; [|exact H].
      simpl in H. rewrite lookup_empty in H. now destruct H. }
    assert (Hicm : forall P : string -> Prop,
              (forall n, is_Some (LoadModels.models st !! n) ->
                 is_Some (LoadModels.models
                            (LoadModels.mkCell log0 (∅ : gmap string Model)) !! n)
                 \/ P n /\ n <> "icm") ->
              LoadModels.models st !! "icm" = None).
    { intros P Hdom.
      destruct (LoadModels.models st !! "icm") as [m|] eqn:E; [|reflexivity].
      destruct (Hempty _ _ (Hdom "icm" ltac:(rewrite E; eauto))) as [_ H].
      contradiction. }
    destruct Hwhy as [(Hg & He & Hlog & Hdom)
                     |[(c1 & Hlast & Hl & Hdom)
                      |(c1 & model & Hlast & Hl & Hf & Hm & Hdom)]].
    + split; [exact (Hicm _ Hdom)|].
      right. exists pre, nm, c, post. repeat split; try assumption.
      left. repeat split; try assumption.
      intros n Hn. exact (proj1 (Hempty _ _ (Hdom n Hn))).
    + split; [exact (Hicm _ Hdom)|].
      right. exists pre, nm, c, post. repeat split; try assumption.
      right. left. exists c1. repeat split; try assumption.
      intros n Hn. exact (proj1 (Hempty _ _ (Hdom n Hn))).
    + split; [exact (Hicm _ Hdom)|].
      right. exists pre, nm, c, post. repeat split; try assumption.
      right. right. exists c1, model. repeat split; try assumption.
      intros n Hn. exact (proj1 (Hempty _ _ (Hdom n Hn))).
Qed.

End OneFileSystem.

Lemma load_model_ext (glob1 glob2 : string -> list string) :
  (forall pattern, sorted (glob1 pattern) = sorted (glob2 pattern)) ->
  forall name cls st,
    LoadModels.load_model MODEL_CLASSES glob1 load_from_checkpoint freeze
      name cls st
    = LoadModels.load_model MODEL_CLASSES glob2 load_from_checkpoint freeze
        name cls st.
Proof.
  intros Hsame name cls st. unfold LoadModels.load_model.
  destruct (LoadModels.model_paths MODEL_CLASSES !! name) as [pattern|];
    [|reflexivity].
  now rewrite (Hsame pattern).
Qed.

Lemma load_models_loop_ext (glob1 glob2 : string -> list string) :
  (forall pattern, sorted (glob1 pattern) = sorted (glob2 pattern)) ->
  forall items st,
    LoadModels.load_models_loop MODEL_CLASSES glob1 load_from_checkpoint freeze
      items st
    = LoadModels.load_models_loop MODEL_CLASSES glob2 load_from_checkpoint freeze
        items st.
Proof.
  intros Hsame. induction items as [|[name cls] items IH]; intros st; simpl;
    [reflexivity|].
  destruct (String.eqb name "icm"); [apply IH|].
  rewrite (load_model_ext glob1 glob2 Hsame).
  destruct (LoadModels.load_model _ _ _ _ name cls st) as [st' [[]|e]];
    [apply IH | reflexivity].
Qed.

(** X6.  The order in which [glob] lists the checkpoints does not
    matter: two file systems whose listings of every pattern are
    permutations of each other give the same log, the same [models] dict
    and the same outcome. *)
Theorem listing_order_is_irrelevant
    (glob1 glob2 : string -> list string) (log0 : list log_record) :
  (forall pattern, Permutation (glob1 pattern) (glob2 pattern)) ->
  LoadModels.load_models MODEL_CLASSES glob1 load_from_checkpoint freeze
    SimpleInitialChordModel log0
  = LoadModels.load_models MODEL_CLASSES glob2 load_from_checkpoint freeze
      SimpleInitialChordModel log0.
Proof.
  intros Hperm. unfold LoadModels.load_models.
  rewrite (load_models_loop_ext glob1 glob2); [reflexivity|].
  intros pattern. apply sorted_perm, Hperm.
Qed.

End LoadModelsCell.

(** ** The export loops: what they write and what they leave alone *)

Section ExportFiles.
Variable get_score_piece_from_data_frames : Z -> bool -> Py.outcome Piece.
Variable to_pitch_type : Chord -> Chord.
Variable CHORD_TYPE_TO_STRING : ChordType -> string.
Variable open_file : string -> Py.outcome unit.

Local Abbreviation export_pieces :=
  (SelimProjectData.export_pieces
    get_score_piece_from_data_frames to_pitch_type CHORD_TYPE_TO_STRING
    open_file).
Local Abbreviation load_pieces :=
  (SelimProjectData.load_pieces get_score_piece_from_data_frames).
Local Abbreviation chord_row :=
  (SelimProjectData.chord_row to_pitch_type CHORD_TYPE_TO_STRING).




Lemma export_pieces_step_returned file_id row rest st st' :
  export_pieces ((file_id, row) :: rest) st = (st', Py.Returned tt) ->
  match load_pieces file_id with
  | Py.Returned (relative_piece, local_piece) =>
      let df := map chord_row
                  (zip (get_chords relative_piece) (get_chords local_piece)) in
      length (get_chords relative_piece) = length (get_chords local_piece)
      /\ open_file (csv_path row) = Py.Returned tt
      /\ export_pieces rest
           (mkEnv (log st) (<[ csv_path row := df ]> (files st)))
         = (st', Py.Returned tt)
  | Py.Raised e =>
      Py.is_Exception e = true
      /\ export_pieces rest (log_no_data file_id e st) = (st', Py.Returned tt)
  end.
Proof.
  simpl. destruct (SelimProjectData.load_pieces _ file_id) as [[rp lp]|e].
  - destruct (_ =? _)%nat eqn:Hlen; [|discriminate].
    apply Nat.eqb_eq in Hlen. unfold SelimProjectData.to_csv.
    change (SelimProjectData.csv_path
              (corpus_name row +:+ ".." +:+ file_name row))
      with (csv_path row).
    destruct (open_file (csv_path row)) as [[]|e]; [|discriminate].
    intros Hrun. auto.
  - destruct (Py.is_Exception e); [auto | discriminate].
Qed.


(** X22.  The log of the Selim export tells which files were skipped.
    When the loop returns, what it added to the log is, for each row
    whose construction raised and in the order of the rows, the error
    with the file id followed by the exception; the rows that were
    exported leave no record, and what was logged before stays in front. *)
Theorem export_log_lists_skipped_files
    (rows : list (Z * file_row)) (st st' : env (list SelimProjectData.Row)) :
  export_pieces rows st = (st', Py.Returned tt) ->
  log st'
  = log st
    ++ flat_map (fun r : Z * file_row =>
                   match load_pieces (fst r) with
                   | Py.Raised e =>
                       [LogError (NoDataCreated (fst r)); LogException e]
                   | Py.Returned _ => []
                   end) rows.
Proof.
  revert st. induction rows as [|[file_id row] rows IH]; intros st Hrun.
  - simpl in Hrun. inversion Hrun; subst. simpl. now rewrite app_nil_r.
  - pose proof (export_pieces_step_returned _ _ _ _ _ Hrun) as Hstep.
    cbn [flat_map fst].
    destruct (SelimProjectData.load_pieces _ file_id) as [[rp lp]|e].
    + destruct Hstep as (_ & _ & Hrest). rewrite (IH _ Hrest). reflexivity.
    + destruct Hstep as [_ Hrest].
      rewrite (IH _ Hrest). simpl. now rewrite <- app_assoc.
Qed.

End ExportFiles.

(** ** The ML-course export: nothing is written *)

Section MLCourseFiles.
Variable ScorePiece : Z -> Py.outcome Piece.
Variable open_file : string -> Py.outcome unit.
Variable get_scale_degree_from_interval : Z -> KeyMode -> Py.outcome string.

Local Abbreviation key_symbols :=
  (MLCourseData.key_symbols get_scale_degree_from_interval).
Local Abbreviation write_piece :=
  (MLCourseData.write_piece open_file get_scale_degree_from_interval).
Local Abbreviation create_composer_data :=
  (MLCourseData.create_composer_data
     ScorePiece open_file get_scale_degree_from_interval).
Local Abbreviation create_data :=
  (MLCourseData.create_data
     ScorePiece open_file get_scale_degree_from_interval).

(** Why the body of the loop ended, for a piece that was built: the key
    file could not be opened, or a scale degree could not be computed, or
    the key list was empty, or [set.add] was handed its list. *)
Local Abbreviation body_raised :=
  (fun (composer : string) (piece : Piece) (e : Py.exn) =>
     open_file (MLCourseData.key_csv composer) = Py.Raised e
     \/ (open_file (MLCourseData.key_csv composer) = Py.Returned tt
         /\ (key_symbols (get_keys piece) = Py.Raised e
             \/ (exists symbols,
                   key_symbols (get_keys piece) = Py.Returned symbols
                   /\ ((get_keys piece = [] /\ e = Py.IndexError)
                       \/ (get_keys piece <> [] /\ e = Py.TypeError)))))).

Lemma only_empty_key_files_refl composers fs :
  only_empty_key_files composers fs fs.
Proof. split; intros; [assumption | now left]. Qed.

Lemma only_empty_key_files_trans cs1 cs2 composers a b c :
  (forall x, In x cs1 -> In x composers) ->
  (forall x, In x cs2 -> In x composers) ->
  only_empty_key_files cs1 a b -> only_empty_key_files cs2 b c ->
  only_empty_key_files composers a c.
Proof.
  intros H1 H2 [Hab1 Hab2] [Hbc1 Hbc2]. split.
  - intros path content H. now apply Hbc1, Hab1.
  - intros path content H.
    destruct (Hbc2 _ _ H) as [Hb|(-> & composer & Hc & ->)].
    + destruct (Hab2 _ _ Hb) as [Ha|(-> & composer & Hc & ->)];
        [now left | right; split; [reflexivity|]; exists composer; auto].
    + right; split; [reflexivity|]; exists composer; auto.
Qed.

Lemma open_append_only_empty composer st :
  only_empty_key_files [composer] (files st)
    (files (fst (MLCourseData.open_append open_file
                   (MLCourseData.key_csv composer) st))).
Proof.
  unfold MLCourseData.open_append.
  destruct (open_file _); [|apply only_empty_key_files_refl].
  destruct (files st !! MLCourseData.key_csv composer) as [old|] eqn:Hold;
    [apply only_empty_key_files_refl|].
  simpl. split.
  - intros path content H.
    rewrite lookup_insert_ne; [exact H|]. intros <-. congruence.
  - intros path content H.
    destruct (String.string_dec (MLCourseData.key_csv composer) path)
      as [<-|Hne].
    + rewrite lookup_insert_eq in H. inversion H; subst.
      right. split; [reflexivity|]. exists composer.
      split; [now left | reflexivity].
    + rewrite lookup_insert_ne in H by exact Hne. now left.
Qed.

(** The body never gets to a [write]. *)
Lemma write_piece_raises composer piece st :
  only_empty_key_files [composer] (files st)
    (files (fst (write_piece composer piece st)))
  /\ exists e,
       snd (write_piece composer piece st) = Py.Raised e
       /\ body_raised composer piece e.
Proof.
  pose proof (open_append_only_empty composer st) as Hfiles.
  unfold MLCourseData.write_piece.
  unfold MLCourseData.open_append in *.
  destruct (open_file (MLCourseData.key_csv composer)) as [[]|e].
  2:{ split; [exact Hfiles|]. exists e. split; [reflexivity | now left]. }
  cbn [fst snd] in *.
  destruct (MLCourseData.key_symbols _ (get_keys piece)) as [symbols|e] eqn:Hk.
  2:{ split; [exact Hfiles|]. exists e. split; [reflexivity|].
      right. split; [reflexivity | now left]. }
  destruct (get_keys piece) as [|key keys] eqn:Hkeys.
  - split; [exact Hfiles|]. exists Py.IndexError. split; [reflexivity|].
    right. split; [reflexivity|]. right. exists symbols. split; [reflexivity|].
    left. now split.
  - split; [exact Hfiles|]. exists Py.TypeError. split; [reflexivity|].
    right. split; [reflexivity|]. right. exists symbols. split; [reflexivity|].
    right. now split.
Qed.

(** What the inner loop does, by its outcome. *)
Lemma create_composer_data_writes_no_line composer rows : forall st,
  only_empty_key_files [composer] (files st)
    (files (fst (create_composer_data composer rows st)))
  /\ match snd (create_composer_data composer rows st) with
     | Py.Returned _ =>
         files (fst (create_composer_data composer rows st)) = files st
         /\ forall file_id row, In (file_id, row) rows ->
              exists e, ScorePiece file_id = Py.Raised e
                        /\ Py.is_Exception e = true
     | Py.Raised e =>
         exists file_id row,
           In (file_id, row) rows
           /\ ((ScorePiece file_id = Py.Raised e /\ Py.is_Exception e = false)
               \/ exists piece,
                    ScorePiece file_id = Py.Returned piece
                    /\ body_raised composer piece e)
     end.
Proof.
  induction rows as [|[file_id row] rows IH]; intros st; simpl.
  - split; [apply only_empty_key_files_refl|]. split; [reflexivity|].
    intros ? ? [].
  - destruct (ScorePiece file_id) as [piece|e] eqn:Hpiece.
    + destruct (write_piece_raises composer piece st) as (Hfiles & e & Hout & Hwhy).
      destruct (MLCourseData.write_piece _ _ composer piece st) as [st' o].
      simpl in *. subst o. simpl. split; [exact Hfiles|].
      exists file_id, row. split; [now left|]. right. now exists piece.
    + destruct (Py.is_Exception e) eqn:He.
      * destruct (IH (log_no_data file_id e st)) as [Hfiles Hout].
        split; [exact Hfiles|].
        destruct (snd (create_composer_data composer rows (log_no_data file_id e st))).
        -- destruct Hout as [Hsame Hall]. split; [exact Hsame|].
           intros fid r [Heq|Hin]; [inversion Heq; subst; eauto | eauto].
        -- destruct Hout as (fid & r & Hin & Hwhy).
           exists fid, r. split; [now right | exact Hwhy].
      * simpl. split; [apply only_empty_key_files_refl|].
        exists file_id, row. split; [now left|]. left. now split.
Qed.

(** X3.  The ML-course export cell never writes a line.  The body of
    its loop, reached for the first piece that is built, cannot get to a
    [write]: opening the key csv may raise; computing a scale degree may
    raise; an empty key list raises [IndexError]; and otherwise [set.add]
    is handed a list and raises [TypeError].  So, whatever the composers
    and the batch: every file that existed is unchanged, a new file is an
    empty key csv of a composer, and no chord csv is made; the cell
    returns only if no piece of any composer was built, every
    construction having raised an [Exception]; and if it raises, then at
    a row of a composer, either with what the construction raised, which
    is not an [Exception], or, the piece being built, with one of the
    four failures of the body. *)
Theorem ml_course_export_writes_no_line
    (composers : list string) (files_df : list (Z * file_row))
    (st : env (list string)) :
  only_empty_key_files composers (files st)
    (files (fst (create_data composers files_df st)))
  /\ match snd (create_data composers files_df st) with
     | Py.Returned _ =>
         files (fst (create_data composers files_df st)) = files st
         /\ forall composer file_id row,
              In composer composers ->
              In (file_id, row) (MLCourseData.composer_rows composer files_df) ->
              exists e, ScorePiece file_id = Py.Raised e
                        /\ Py.is_Exception e = true
     | Py.Raised e =>
         exists composer file_id row,
           In composer composers
           /\ In (file_id, row) (MLCourseData.composer_rows composer files_df)
           /\ ((ScorePiece file_id = Py.Raised e /\ Py.is_Exception e = false)
               \/ exists piece,
                    ScorePiece file_id = Py.Returned piece
                    /\ (open_file (MLCourseData.key_csv composer) = Py.Raised e
                        \/ (open_file (MLCourseData.key_csv composer)
                            = Py.Returned tt
                            /\ (key_symbols (get_keys piece) = Py.Raised e
                                \/ (exists symbols,
                                      key_symbols (get_keys piece)
                                      = Py.Returned symbols
                                      /\ ((get_keys piece = []
                                           /\ e = Py.IndexError)
                                          \/ (get_keys piece <> []
                                              /\ e = Py.TypeError)))))))
     end.
Proof.
  revert st. induction composers as [|composer composers IH]; intros st; simpl.
  - split; [apply only_empty_key_files_refl|]. split; [reflexivity|].
    intros ? ? ? [].
  - pose proof (create_composer_data_writes_no_line composer
                  (MLCourseData.composer_rows composer files_df) st)
      as [Hfiles Hout].
    destruct (MLCourseData.create_composer_data _ _ _ composer
                (MLCourseData.composer_rows composer files_df) st)
      as [st1 [[]|e]]; simpl in *.
    + destruct Hout as [Hsame Hall].
      destruct (IH st1) as [Hfiles' Hout'].
      split.
      * eapply (only_empty_key_files_trans [composer] composers);
          [| | exact Hfiles | exact Hfiles'].
        -- intros x [<-|[]]. now left.
        -- intros x Hx. now right.
      * destruct (snd (create_data composers files_df st1)).
        -- destruct Hout' as [Hsame' Hall']. split; [congruence|].
           intros c fid row [<-|Hc] Hin; eauto.
        -- destruct Hout' as (c & fid & row & Hc & Hin & Hwhy).
           exists c, fid, row. split; [now right|]. split; assumption.
    + split.
      * eapply (only_empty_key_files_trans [composer] [] );
          [| | exact Hfiles | apply only_empty_key_files_refl].
        -- intros x [<-|[]]. now left.
        -- intros x [].
      * destruct Hout as (fid & row & Hin & Hwhy).
        exists composer, fid, row. split; [now left|]. split; assumption.
Qed.

(** When every scale degree is computed, the key symbols of the export
    are those of the key line. *)
Lemma key_symbols_returned (degree : Z -> KeyMode -> string) (keys : list Key) :
  (forall key, In key keys ->
     get_scale_degree_from_interval (local_tonic key - global_tonic key)%Z
                                    (global_mode key)
     = Py.Returned (degree (local_tonic key - global_tonic key)%Z
                           (global_mode key))) ->
  key_symbols keys
  = Py.Returned (map (MLCourseLabels.key_symbol degree) keys).
Proof.
  induction keys as [|key keys IH]; intros Hall; [reflexivity|].
  cbn [MLCourseData.key_symbols map].
  rewrite (Hall key (or_introl eq_refl)), IH by (intros k Hk; apply Hall; now right).
  reflexivity.
Qed.

End MLCourseFiles.

(** ** The validation pieces *)

Section LoadPiecesProofs.
Context {PieceDict : Type}.
Variable h5_file : Py.outcome (option (list Z)).
Variable pkl_file : option (Py.outcome (list (option PieceDict))).
Variable ScorePiece : Z -> option PieceDict -> Py.outcome Piece.

Local Abbreviation build := (LoadPieces.build ScorePiece).
Local Abbreviation piece_dicts := (LoadPieces.piece_dicts pkl_file).
Local Abbreviation load_pieces :=
  (LoadPieces.load_pieces h5_file pkl_file ScorePiece).

Lemma build_returned pairs : forall pieces,
  build pairs = Py.Returned pieces ->
  length pieces = length pairs
  /\ forall i piece, pieces !! i = Some piece ->
       exists file_id piece_dict,
         pairs !! i = Some (file_id, piece_dict)
         /\ ScorePiece file_id piece_dict = Py.Returned piece.
Proof.
  induction pairs as [|[file_id piece_dict] pairs IH]; intros pieces Hrun;
    simpl in Hrun.
  - inversion Hrun; subst. split; [reflexivity|]. intros i piece H.
    now rewrite lookup_nil in H.
  - destruct (ScorePiece file_id piece_dict) as [piece0|e] eqn:Hpiece;
      [|discriminate].
    simpl in Hrun.
    destruct (LoadPieces.build ScorePiece pairs) as [rest|e] eqn:Hrest;
      [|discriminate].
    simpl in Hrun. inversion Hrun; subst.
    destruct (IH rest eq_refl) as [Hlen Hall].
    split; [simpl; now rewrite Hlen|].
    intros [|i] piece H; simpl in H.
    + inversion H; subst. now exists file_id, piece_dict.
    + apply Hall, H.
Qed.

Lemma build_raised pre : forall file_id piece_dict post e,
  (forall pair, In pair pre ->
     exists piece, ScorePiece (fst pair) (snd pair) = Py.Returned piece) ->
  ScorePiece file_id piece_dict = Py.Raised e ->
  build (pre ++ (file_id, piece_dict) :: post) = Py.Raised e.
Proof.
  induction pre as [|[fid d] pre IH]; intros file_id piece_dict post e Hpre Hfail;
    simpl.
  - now rewrite Hfail.
  - destruct (Hpre (fid, d)) as [piece Hpiece]; [now left|].
    simpl in Hpiece. rewrite Hpiece. simpl.
    rewrite (IH file_id piece_dict post e); [reflexivity | | exact Hfail].
    intros pair Hin. apply Hpre. now right.
Qed.

(** X7.  When the cell that builds the validation pieces returns, the
    pieces follow the file ids position by position: the piece at index
    [i] was built from the file id and from the pickled dict at index
    [i].  There are as many pieces as the shorter of the two lists has
    entries, so a pickle with fewer entries than there are file ids drops
    the last file ids without a word; without a pickle every file id has
    its piece, built with [piece_dict=None]. *)
Theorem pieces_follow_file_ids
    (printed : list LoadPieces.message) (pieces : list Piece) :
  load_pieces = (printed, Py.Returned pieces) ->
  exists file_ids dicts,
    h5_file = Py.Returned (Some file_ids)
    /\ piece_dicts file_ids = Py.Returned dicts
    /\ printed = []
    /\ length pieces = Nat.min (length file_ids) (length dicts)
    /\ (pkl_file = None ->
        length pieces = length file_ids
        /\ dicts = replicate (length file_ids) None)
    /\ forall i piece, pieces !! i = Some piece ->
         exists file_id piece_dict,
           file_ids !! i = Some file_id
           /\ dicts !! i = Some piece_dict
           /\ ScorePiece file_id piece_dict = Py.Returned piece.
Proof.
  unfold LoadPieces.load_pieces.
  destruct h5_file as [[file_ids|]|e]; try discriminate.
  destruct (LoadPieces.piece_dicts pkl_file file_ids) as [dicts|e] eqn:Hdicts;
    [|discriminate].
  intros Hrun. inversion Hrun as [[Hprinted Hbuild]]. clear Hrun.
  destruct (build_returned _ _ Hbuild) as [Hlen Hall].
  exists file_ids, dicts.
  assert (Hmin : length pieces = Nat.min (length file_ids) (length dicts))
    by (rewrite Hlen; apply length_zip_with).
  repeat split; try reflexivity; try assumption.
  - rewrite Hmin. unfold LoadPieces.piece_dicts in Hdicts. rewrite H in Hdicts.
    inversion Hdicts; subst. rewrite length_replicate. lia.
  - unfold LoadPieces.piece_dicts in Hdicts. rewrite H in Hdicts.
    now inversion Hdicts.
  - intros i piece Hi.
    destruct (Hall i piece Hi) as (file_id & piece_dict & Hpair & Hpiece).
    exists file_id, piece_dict.
    apply lookup_zip_with_Some in Hpair as (x & y & Heq & Hx & Hy).
    inversion Heq; subst. auto.
Qed.

(** X8.  The cell that builds the validation pieces has no handler: the
    first file id whose piece cannot be built ends the cell with that
    exception, whatever its class, and no piece list is made, though
    every earlier piece was built. *)
Theorem first_failing_piece_ends_the_cell
    (file_ids : list Z) (dicts : list (option PieceDict))
    (pre post : list (Z * option PieceDict))
    (file_id : Z) (piece_dict : option PieceDict) (e : Py.exn) :
  h5_file = Py.Returned (Some file_ids) ->
  piece_dicts file_ids = Py.Returned dicts ->
  zip file_ids dicts = pre ++ (file_id, piece_dict) :: post ->
  (forall pair, In pair pre ->
     exists piece, ScorePiece (fst pair) (snd pair) = Py.Returned piece) ->
  ScorePiece file_id piece_dict = Py.Raised e ->
  load_pieces = ([], Py.Raised e).
Proof.
  intros Hh5 Hdicts Hzip Hpre Hfail. unfold LoadPieces.load_pieces.
  rewrite Hh5, Hdicts, Hzip.
  now rewrite (build_raised pre file_id piece_dict post e Hpre Hfail).
Qed.

End LoadPiecesProofs.

(** ** The missed ranges *)

Section MissedRangesProofs.
Import MissedRanges.

Lemma correct_chord_ranges_cons (start : Z) (rest : list Z) :
  correct_chord_ranges (start :: rest)
  = (start, head rest) :: correct_chord_ranges rest.
Proof. destruct rest; reflexivity. Qed.

(** X9.  The correct ranges of the cell "How many ranges are missed?"
    are contiguous and open at the end: there is one per chord change
    index, the range at position [i] starts at the index at position [i]
    and ends at the index at position [i + 1], and the end of the last
    one is [None]. *)
Theorem correct_ranges_are_contiguous (indices : list Z) :
  length (correct_chord_ranges indices) = length indices
  /\ forall i,
       correct_chord_ranges indices !! i
       = (fun start => (start, indices !! S i)) <$> indices !! i.
Proof.
  induction indices as [|start rest [IHlen IH]].
  - split; [reflexivity|]. intros i. reflexivity.
  - rewrite correct_chord_ranges_cons. split; [simpl; now rewrite IHlen|].
    intros [|i]; simpl.
    + now destruct rest.
    + apply IH.
Qed.

Local Abbreviation misses chord_ranges enumerated :=
  (omap (fun ir : nat * ChordRange =>
           if bool_decide (snd ir ∈ chord_ranges) then None
           else Some (NotFound (snd ir) (fst ir)))
        enumerated).

Lemma count_missed_spec (chord_ranges : list ChordRange) enumerated : forall out missed,
  count_missed chord_ranges enumerated out missed
  = (out ++ misses chord_ranges enumerated,
     missed + length (misses chord_ranges enumerated)).
Proof.
  induction enumerated as [|[i r] enumerated IH]; intros out missed; simpl.
  - now rewrite app_nil_r, Nat.add_0_r.
  - destruct (bool_decide (r ∈ chord_ranges)); simpl.
    + apply IH.
    + rewrite IH, <- app_assoc. simpl. f_equal.
      rewrite Nat.add_succ_r. reflexivity.
Qed.

Lemma misses_length (chord_ranges : list ChordRange) enumerated :
  length (misses chord_ranges enumerated) <= length enumerated.
Proof.
  induction enumerated as [|[i r] enumerated IH]; simpl; [lia|].
  destruct (bool_decide (r ∈ chord_ranges)); simpl.
  - apply Nat.le_trans with (m := length enumerated); [exact IH | lia].
  - apply le_n_S. exact IH.
Qed.

Lemma misses_app (chord_ranges : list ChordRange) l1 l2 :
  misses chord_ranges (l1 ++ l2)
  = misses chord_ranges l1 ++ misses chord_ranges l2.
Proof. apply omap_app. Qed.

Lemma correct_chord_ranges_last (indices : list Z) (start : Z) :
  correct_chord_ranges (indices ++ [start])
  = zip indices (map Some (tail (indices ++ [start]))) ++ [(start, None)].
Proof.
  induction indices as [|first rest IH]; [reflexivity|].
  rewrite <- app_comm_cons, correct_chord_ranges_cons, IH.
  destruct rest; reflexivity.
Qed.

Lemma misses_filter (chord_ranges : list ChordRange) enumerated :
  misses chord_ranges enumerated
  = map (fun ir : nat * ChordRange => NotFound (snd ir) (fst ir))
        (List.filter
           (fun ir : nat * ChordRange =>
              negb (bool_decide (snd ir ∈ chord_ranges)))
           enumerated).
Proof.
  induction enumerated as [|[i r] enumerated IH]; [reflexivity|].
  cbn [omap list_omap List.filter fst snd].
  destruct (bool_decide (r ∈ chord_ranges)); simpl; now rewrite <- IH.
Qed.

(** X10.  How the cell "How many ranges are missed?" ends.  With no
    chord change index it prints that 0 of 0 ranges were missed and then
    divides by zero.  Otherwise it returns, having printed one line for
    each missed range, then their number, which is at most the number of
    correct ranges, and the accuracy.  The lines are those of the correct
    ranges that are not among the proposed ranges, each with its
    position, in the order of the positions: every line names a missed
    range, and every missed range has its line. *)
Theorem missed_cell_outcome
    (indices : list Z) (chord_ranges : list ChordRange) :
  match indices with
  | [] =>
      missed_cell indices chord_ranges
      = ([Missed 0 0], Py.Raised (Py.OtherException "ZeroDivisionError"))
  | _ :: _ =>
      exists not_found,
        missed_cell indices chord_ranges
        = (not_found ++ [Missed (length not_found) (length indices);
                         Accuracy (length not_found) (length indices)],
           Py.Returned tt)
        /\ length not_found <= length indices
        /\ not_found
           = map (fun ir : nat * ChordRange => NotFound (snd ir) (fst ir))
               (List.filter
                  (fun ir : nat * ChordRange =>
                     negb (bool_decide (snd ir ∈ chord_ranges)))
                  (imap (fun i r => (i, r)) (correct_chord_ranges indices)))
        /\ (forall line, In line not_found ->
              exists r i,
                line = NotFound r i
                /\ correct_chord_ranges indices !! i = Some r
                /\ ~ In r chord_ranges)
        /\ (forall r i,
              correct_chord_ranges indices !! i = Some r ->
              ~ In r chord_ranges ->
              In (NotFound r i) not_found)
  end.
Proof.
  destruct indices as [|start rest]; [reflexivity|].
  unfold missed_cell. rewrite count_missed_spec.
  set (enumerated := imap (fun i r => (i, r))
                          (correct_chord_ranges (start :: rest))).
  exists (misses chord_ranges enumerated).
  change (length (start :: rest) =? 0)%nat with false. simpl app at 1.
  split; [now rewrite <- app_assoc|].
  split; [|split; [apply misses_filter|split]].
  - etransitivity; [apply misses_length|]. unfold enumerated.
    rewrite length_imap. now rewrite (proj1 (correct_ranges_are_contiguous _)).
  - intros line Hin. apply list_elem_of_In in Hin.
    apply list_elem_of_omap in Hin as ([i r] & Hir & Hline).
    simpl in Hline.
    destruct (bool_decide (r ∈ chord_ranges)) eqn:Hdec; [discriminate|].
    inversion Hline; subst. exists r, i. split; [reflexivity|].
    apply bool_decide_eq_false in Hdec. rewrite list_elem_of_In in Hdec.
    split; [|exact Hdec].
    unfold enumerated in Hir.
    apply list_elem_of_lookup in Hir as [j Hj].
    rewrite list_lookup_imap in Hj.
    destruct (correct_chord_ranges (start :: rest) !! j) as [r'|] eqn:Hr;
      [|discriminate].
    simpl in Hj. inversion Hj; subst. exact Hr.
  - intros r i Hr Hmiss. apply list_elem_of_In.
    apply list_elem_of_omap. exists (i, r). split.
    + unfold enumerated. apply list_elem_of_lookup. exists i.
      rewrite list_lookup_imap, Hr. reflexivity.
    + simpl. rewrite bool_decide_false; [reflexivity|].
      now rewrite list_elem_of_In.
Qed.

(** X11.  The last correct range is never found among proposed ranges
    that have an end: its end is [None].  So when no proposed range has
    [None] for its end and there is a chord change index, the last line
    printed for a missed range is the one of the last chord, at least one
    range is counted as missed, and the accuracy shown is below 1 even
    for a proposal that contains every correct boundary. *)
Theorem last_correct_range_is_always_missed
    (indices : list Z) (start : Z) (chord_ranges : list ChordRange) :
  (forall r, In r chord_ranges -> snd r <> None) ->
  exists not_found,
    missed_cell (indices ++ [start]) chord_ranges
    = (not_found
         ++ [Missed (length not_found) (S (length indices));
             Accuracy (length not_found) (S (length indices))],
       Py.Returned tt)
    /\ last not_found = Some (NotFound (start, None) (length indices))
    /\ 1 <= length not_found.
Proof.
  intros Hclosed.
  assert (Hlen : length (indices ++ [start]) = S (length indices))
    by (rewrite length_app; simpl; lia).
  unfold missed_cell. rewrite count_missed_spec, Hlen.
  change (S (length indices) =? 0)%nat with false.
  rewrite correct_chord_ranges_last, imap_app, misses_app.
  set (init := zip indices (map Some (tail (indices ++ [start])))).
  assert (Hinit : length init = length indices).
  { unfold init. rewrite length_zip_with, length_map.
    assert (Htail : length (tail (indices ++ [start])) = length indices).
    { destruct indices; [reflexivity|].
      rewrite <- app_comm_cons. cbn [tail]. rewrite length_app. simpl. lia. }
    rewrite Htail. apply Nat.min_id. }
  unfold ChordRange in *.
  set (tl := omap _ (imap _ [(start, @None Z)])).
  assert (Hlast : tl = [NotFound (start, None) (length indices)]).
  { unfold tl. simpl. rewrite Nat.add_0_r, Hinit.
    rewrite bool_decide_false; [reflexivity|].
    rewrite list_elem_of_In. intros Hin. now apply Hclosed in Hin. }
  rewrite Hlast.
  exists (misses chord_ranges (imap (fun i r => (i, r)) init)
          ++ [NotFound (start, None) (length indices)]).
  split; [|split].
  - rewrite app_nil_l, Nat.add_0_l, <- (app_assoc _ [_] [_]). reflexivity.
  - apply last_snoc.
  - rewrite length_app. simpl. lia.
Qed.

End MissedRangesProofs.

(** ** [split], [strip] and [join] *)

Section PyStrFacts.
Import PyStr.

Lemma split_nonempty sep s : split sep s <> [].
Proof.
  destruct s as [|c s]; simpl; [discriminate|].
  destruct (Ascii.eqb c sep); [discriminate|].
  destruct (split sep s); discriminate.
Qed.

Lemma split_length sep s : length (split sep s) = S (count sep s).
Proof.
  induction s as [|c s IH]; simpl; [reflexivity|].
  destruct (Ascii.eqb c sep); simpl; [now rewrite IH|].
  destruct (split sep s) as [|piece pieces] eqn:E; simpl in *; [discriminate|].
  exact IH.
Qed.

Lemma count_app c s t : count c (s +:+ t) = count c s + count c t.
Proof.
  induction s as [|d s IH]; simpl; [reflexivity|]. rewrite IH. lia.
Qed.

Lemma split_no_sep sep s : count sep s = 0 -> split sep s = [s].
Proof.
  induction s as [|c s IH]; simpl; [reflexivity|].
  destruct (Ascii.eqb c sep); simpl; [discriminate|].
  intros H. now rewrite (IH H).
Qed.

Lemma split_app sep a r :
  count sep a = 0 -> split sep (a +:+ String sep r) = a :: split sep r.
Proof.
  induction a as [|c a IH]; simpl.
  - intros _. now rewrite Ascii.eqb_refl.
  - destruct (Ascii.eqb c sep); simpl; [discriminate|].
    intros H. now rewrite (IH H).
Qed.

Lemma split_join sep piece pieces :
  Forall (fun p => count sep p = 0) (piece :: pieces) ->
  split sep (join (String sep "") (piece :: pieces)) = piece :: pieces.
Proof.
  revert piece. induction pieces as [|next pieces IH]; intros piece Hall.
  - simpl. apply split_no_sep. now inversion Hall.
  - change (join (String sep "") (piece :: next :: pieces))
      with (piece +:+ String sep (join (String sep "") (next :: pieces))).
    inversion Hall; subst.
    rewrite split_app by assumption. f_equal. now apply IH.
Qed.

Lemma count_join sep c piece pieces :
  Ascii.eqb sep c = false ->
  Forall (fun p => count c p = 0) (piece :: pieces) ->
  count c (join (String sep "") (piece :: pieces)) = 0.
Proof.
  intros Hsep. revert piece.
  induction pieces as [|next pieces IH]; intros piece Hall.
  - now inversion Hall.
  - change (join (String sep "") (piece :: next :: pieces))
      with (piece +:+ String sep (join (String sep "") (next :: pieces))).
    inversion Hall; subst. rewrite count_app. cbn [count]. rewrite Hsep.
    rewrite IH by assumption. lia.
Qed.

(** *** The bytes of a string *)

Lemma bytes_app s t :
  String.list_ascii_of_string (s +:+ t)
  = String.list_ascii_of_string s ++ String.list_ascii_of_string t.
Proof.
  induction s as [|c s IH]; [reflexivity|].
  change (String c s +:+ t) with (String c (s +:+ t)).
  cbn [String.list_ascii_of_string]. now rewrite IH.
Qed.

Lemma string_app (a b : list ascii) :
  String.string_of_list_ascii (a ++ b)
  = String.string_of_list_ascii a +:+ String.string_of_list_ascii b.
Proof. induction a as [|c a IH]; [reflexivity|]. simpl. now rewrite IH. Qed.

(** *** White space *)

(** An ASCII byte is none of the bytes above 127. *)
Lemma one_of_high (bytes : list nat) (c : ascii) :
  is_ascii c = true ->
  forallb (fun n => negb (is_ascii (ascii_of_nat n))) bytes = true ->
  one_of bytes c = false.
Proof.
  intros Hc. unfold one_of.
  induction bytes as [|n bytes IH]; [reflexivity|].
  cbn [forallb existsb]. intros H. apply andb_prop in H as [Hn Hrest].
  rewrite (IH Hrest), orb_false_r.
  destruct (Ascii.eqb c (ascii_of_nat n)) eqn:E; [|reflexivity].
  apply Ascii.eqb_eq in E. subst c. rewrite Hc in Hn. discriminate.
Qed.

(** An ASCII byte neither begins nor ends white space of several bytes. *)
Lemma ascii_not_in_space c :
  is_ascii c = true ->
  (forall d, isspace2 c d = false) /\ (forall d, isspace2 d c = false)
  /\ (forall d e, isspace3 c d e = false)
  /\ (forall d e, isspace3 e d c = false).
Proof.
  intros Hc.
  assert (H1 : forall bytes,
             forallb (fun n => negb (is_ascii (ascii_of_nat n))) bytes = true ->
             one_of bytes c = false)
    by (intros bytes; now apply one_of_high).
  unfold isspace2, isspace3. repeat split; intros.
  - now rewrite (H1 [194]).
  - rewrite (H1 [133; 160]) by reflexivity. apply andb_false_r.
  - rewrite (H1 [225]), (H1 [226]), (H1 [227]) by reflexivity. reflexivity.
  - rewrite (H1 [128]), (H1 [159]) by reflexivity.
    rewrite (H1 [128; 129; 130; 131; 132; 133; 134; 135; 136; 137; 138;
                 168; 169; 175]) by reflexivity.
    now rewrite !andb_false_r.
Qed.

(** What stays is the end of what was there. *)
Lemma skip_spaces_suffix two three : forall n bytes,
  length bytes <= n ->
  exists front, bytes = front ++ skip_spaces two three bytes.
Proof.
  induction n as [|n IH]; intros bytes Hn.
  - destruct bytes; [now exists [] | simpl in Hn; lia].
  - destruct bytes as [|c rest1]; [now exists []|].
    cbn [skip_spaces]. simpl in Hn.
    destruct (isspace c).
    { destruct (IH rest1 ltac:(lia)) as [front Hf].
      exists (c :: front). simpl. now rewrite <- Hf. }
    destruct rest1 as [|d rest2]; [now exists []|].
    simpl in Hn.
    destruct (two c d).
    { destruct (IH rest2 ltac:(lia)) as [front Hf].
      exists (c :: d :: front). simpl. now rewrite <- Hf. }
    destruct rest2 as [|e rest3]; [now exists []|].
    simpl in Hn.
    destruct (three c d e); [|now exists []].
    destruct (IH rest3 ltac:(lia)) as [front Hf].
    exists (c :: d :: e :: front). simpl. now rewrite <- Hf.
Qed.

Lemma skip_spaces_length two three bytes :
  length (skip_spaces two three bytes) <= length bytes.
Proof.
  destruct (skip_spaces_suffix two three (length bytes) bytes (le_n _))
    as [front Hf].
  rewrite Hf at 2. rewrite length_app. lia.
Qed.

(** Nothing is taken off exactly when the bytes do not begin with white
    space. *)
Lemma skip_spaces_fixed two three bytes :
  skip_spaces two three bytes = bytes
  <-> match bytes with
      | [] => True
      | c :: rest1 =>
          isspace c = false
          /\ match rest1 with
             | [] => True
             | d :: rest2 =>
                 two c d = false
                 /\ match rest2 with
                    | [] => True
                    | e :: _ => three c d e = false
                    end
             end
      end.
Proof.
  destruct bytes as [|c rest1]; [tauto|]. cbn [skip_spaces].
  destruct (isspace c).
  { split; [|intros [? _]; discriminate].
    intros H. pose proof (skip_spaces_length two three rest1) as Hlen.
    rewrite H in Hlen. simpl in Hlen. lia. }
  destruct rest1 as [|d rest2]; [tauto|].
  destruct (two c d).
  { split; [|intros [_ [? _]]; discriminate].
    intros H. pose proof (skip_spaces_length two three rest2) as Hlen.
    rewrite H in Hlen. simpl in Hlen. lia. }
  destruct rest2 as [|e rest3]; [tauto|].
  destruct (three c d e); [|tauto].
  split; [|intros [_ [_ ?]]; discriminate].
  intros H. pose proof (skip_spaces_length two three rest3) as Hlen.
  rewrite H in Hlen. simpl in Hlen. lia.
Qed.

(** Bytes that do not begin with white space have no beginning that
    does. *)
Lemma skip_spaces_front two three (front back : list ascii) :
  skip_spaces two three (front ++ back) = front ++ back ->
  skip_spaces two three front = front.
Proof.
  rewrite !skip_spaces_fixed.
  destruct front as [|c [|d [|e front]]]; simpl; try tauto;
    destruct back as [|x [|y back]]; tauto.
Qed.

(** Bytes that begin with an ASCII character other than white space
    lose nothing, from the front or from the back. *)
Lemma skip_spaces_solid c rest :
  is_ascii c = true -> isspace c = false ->
  skip_spaces isspace2 isspace3 (c :: rest) = c :: rest
  /\ skip_spaces (fun d c => isspace2 c d) (fun e d c => isspace3 c d e)
       (c :: rest) = c :: rest.
Proof.
  intros Hc Hs.
  destruct (ascii_not_in_space c Hc) as (H2 & H2' & H3 & H3').
  split; apply skip_spaces_fixed; (split; [exact Hs|]);
    destruct rest as [|d [|e rest]]; auto.
Qed.

Lemma lstrip_solid c s :
  is_ascii c = true -> isspace c = false -> lstrip (String c s) = String c s.
Proof.
  intros Hc Hs. unfold lstrip. cbn [String.list_ascii_of_string].
  rewrite (proj1 (skip_spaces_solid c _ Hc Hs)).
  apply (String.string_of_list_ascii_of_string (String c s)).
Qed.

(** A string of ASCII characters, none of them white space. *)
Local Abbreviation solid s :=
  (forallb (fun c => is_ascii c && negb (isspace c))
           (String.list_ascii_of_string s)).

Lemma rstrip_newline s :
  solid s = true -> rstrip (s +:+ String "010" "") = s.
Proof.
  intros Hs. unfold rstrip. rewrite bytes_app. cbn [String.list_ascii_of_string].
  rewrite rev_app_distr. cbn [rev app skip_spaces].
  change (isspace "010") with true. cbv iota.
  assert (Hfix : skip_spaces (fun d c => isspace2 c d)
                   (fun e d c => isspace3 c d e)
                   (rev (String.list_ascii_of_string s))
                 = rev (String.list_ascii_of_string s)).
  { destruct (rev (String.list_ascii_of_string s)) as [|c rest] eqn:E;
      [reflexivity|].
    assert (Hin : In c (String.list_ascii_of_string s)).
    { apply in_rev. rewrite E. now left. }
    rewrite forallb_forall in Hs. specialize (Hs c Hin).
    apply andb_prop in Hs as [Hc Hsp]. apply negb_true_iff in Hsp.
    apply (skip_spaces_solid c rest Hc Hsp). }
  rewrite Hfix, rev_involutive.
  apply String.string_of_list_ascii_of_string.
Qed.

Lemma strip_line s :
  solid s = true -> strip (s +:+ String "010" "") = s.
Proof.
  intros Hs. unfold strip. destruct s as [|c s]; [reflexivity|].
  change (String c s +:+ String "010" "") with (String c (s +:+ String "010" "")).
  pose proof Hs as Hc. cbn [String.list_ascii_of_string forallb] in Hc.
  apply andb_prop in Hc as [Hc _]. apply andb_prop in Hc as [Hc Hsp].
  apply negb_true_iff in Hsp.
  rewrite (lstrip_solid c _ Hc Hsp).
  change (String c (s +:+ String "010" "")) with (String c s +:+ String "010" "").
  now apply rstrip_newline.
Qed.

Lemma prefix_refl s : String.prefix s s = true.
Proof.
  induction s as [|c s IH]; simpl; [reflexivity|].
  destruct (ascii_dec c c); [exact IH | congruence].
Qed.

Lemma prefix_trans s : forall t u,
  String.prefix s t = true -> String.prefix t u = true ->
  String.prefix s u = true.
Proof.
  induction s as [|c s IH]; intros t u Hst Htu; [now destruct u|].
  destruct t as [|d t]; [discriminate|]. destruct u as [|e u]; [discriminate|].
  simpl in *.
  destruct (ascii_dec c d); [subst d|discriminate].
  destruct (ascii_dec c e); [|discriminate]. eauto.
Qed.

Lemma prefix_app s t : String.prefix s (s +:+ t) = true.
Proof.
  induction s as [|c s IH]; [now destruct t|].
  change (String c s +:+ t) with (String c (s +:+ t)). cbn [String.prefix].
  destruct (ascii_dec c c); [exact IH | congruence].
Qed.

Lemma rstrip_prefix s : String.prefix (rstrip s) s = true.
Proof.
  unfold rstrip.
  set (bytes := rev (String.list_ascii_of_string s)).
  destruct (skip_spaces_suffix (fun d c => isspace2 c d)
              (fun e d c => isspace3 c d e) (length bytes) bytes (le_n _))
    as [front Hf].
  rewrite <- (String.string_of_list_ascii_of_string s) at 1.
  rewrite <- (rev_involutive (String.list_ascii_of_string s)).
  fold bytes. rewrite Hf at 2. rewrite rev_app_distr, string_app.
  apply prefix_app.
Qed.

Lemma lstrip_front front back :
  lstrip (front +:+ back) = front +:+ back -> lstrip front = front.
Proof.
  unfold lstrip. intros H.
  apply (f_equal String.list_ascii_of_string) in H.
  rewrite String.list_ascii_of_string_of_list_ascii, bytes_app in H.
  rewrite (skip_spaces_front _ _ _ _ H).
  apply String.string_of_list_ascii_of_string.
Qed.

Lemma split_head_app sep s :
  exists rest, s = hd EmptyString (split sep s) +:+ rest.
Proof.
  induction s as [|c s [rest IH]]; [now exists EmptyString|].
  simpl. destruct (Ascii.eqb c sep); [now exists (String c s)|].
  destruct (split sep s) as [|piece pieces] eqn:E.
  - now destruct (split_nonempty sep s).
  - exists rest. cbn [hd] in *.
    change (String c s = String c (piece +:+ rest)). now rewrite <- IH.
Qed.

Lemma split_head_prefix sep s :
  String.prefix (hd EmptyString (split sep s)) s = true.
Proof.
  induction s as [|c s IH]; simpl; [reflexivity|].
  destruct (Ascii.eqb c sep); simpl; [reflexivity|].
  destruct (split sep s) as [|piece pieces] eqn:E; simpl in *.
  - now destruct (split_nonempty sep s).
  - destruct (ascii_dec c c); [exact IH | congruence].
Qed.

Lemma split_head_first sep c s :
  hd EmptyString (split sep (String c s)) = EmptyString
  \/ exists t, hd EmptyString (split sep (String c s)) = String c t.
Proof.
  simpl. destruct (Ascii.eqb c sep); simpl; [now left|].
  right. destruct (split sep s); simpl; eauto.
Qed.

End PyStrFacts.
(** ** The Beethoven alignment loop *)

(** The path of a label file, by what follows [fh-] or [dcml-] in its
    name: the pieces of the name between the slashes, without the empty
    ones and the ones that are [.] after the first. *)
Local Abbreviation spelled name :=
  (PyStr.join "/"
     match PyStr.split "/" name with
     | piece :: pieces =>
         piece :: List.filter
                    (fun part => negb (String.eqb part "" || String.eqb part "."))
                    pieces
     | [] => []
     end).

Lemma split_after prefix name :
  PyStr.count "/" prefix = 0 ->
  PyStr.split "/" (prefix +:+ name)
  = match PyStr.split "/" name with
    | piece :: pieces => (prefix +:+ piece) :: pieces
    | [] => [prefix]
    end.
Proof.
  induction prefix as [|c prefix IH]; intros Hcount.
  - change ("" +:+ name) with name.
    destruct (PyStr.split "/" name) eqn:E; [|reflexivity].
    now destruct (split_nonempty "/" name).
  - change (String c prefix +:+ name) with (String c (prefix +:+ name)).
    cbn [PyStr.count PyStr.split] in *.
    destruct (Ascii.eqb c "/"); [discriminate|].
    rewrite IH by exact Hcount.
    destruct (PyStr.split "/" name); reflexivity.
Qed.

Lemma append_assoc (a b c : string) : (a +:+ b) +:+ c = a +:+ (b +:+ c).
Proof.
  induction a as [|x a IH]; [reflexivity|].
  change (String x ((a +:+ b) +:+ c) = String x (a +:+ (b +:+ c))).
  now rewrite IH.
Qed.

Lemma join_after prefix piece pieces :
  PyStr.join "/" ((prefix +:+ piece) :: pieces)
  = prefix +:+ PyStr.join "/" (piece :: pieces).
Proof.
  destruct pieces as [|next pieces]; [reflexivity|].
  change (PyStr.join "/" ((prefix +:+ piece) :: next :: pieces))
    with ((prefix +:+ piece) +:+ "/" +:+ PyStr.join "/" (next :: pieces)).
  change (PyStr.join "/" (piece :: next :: pieces))
    with (piece +:+ "/" +:+ PyStr.join "/" (next :: pieces)).
  now rewrite append_assoc.
Qed.

Lemma fh_path_eq name : fh_path name = "Beethoven-labels/fh-" +:+ spelled name.
Proof.
  unfold fh_path, BeethovenAlignment.label_path, path_div.
  change (path_root ("fh-" +:+ name)) with "". cbv iota.
  unfold path_parts at 2. rewrite (split_after "fh-" name eq_refl).
  destruct (PyStr.split "/" name) as [|piece pieces] eqn:E;
    [now destruct (split_nonempty "/" name)|].
  cbn [List.filter].
  change (negb (String.eqb ("fh-" +:+ piece) "" || String.eqb ("fh-" +:+ piece) "."))
    with true. cbv iota.
  change (path_root BeethovenAlignment.OUTPUT_DIR) with "".
  change (path_parts BeethovenAlignment.OUTPUT_DIR) with ["Beethoven-labels"].
  cbn [app path_str].
  set (rest := List.filter _ pieces).
  change (PyStr.join "/" ("Beethoven-labels" :: ("fh-" +:+ piece) :: rest))
    with ("Beethoven-labels" +:+ "/" +:+ PyStr.join "/" (("fh-" +:+ piece) :: rest)).
  rewrite join_after. reflexivity.
Qed.

Lemma dcml_path_eq name :
  dcml_path name = "Beethoven-labels/dcml-" +:+ spelled name.
Proof.
  unfold dcml_path, BeethovenAlignment.label_path, path_div.
  change (path_root ("dcml-" +:+ name)) with "". cbv iota.
  unfold path_parts at 2. rewrite (split_after "dcml-" name eq_refl).
  destruct (PyStr.split "/" name) as [|piece pieces] eqn:E;
    [now destruct (split_nonempty "/" name)|].
  cbn [List.filter].
  change (negb (String.eqb ("dcml-" +:+ piece) ""
                || String.eqb ("dcml-" +:+ piece) "."))
    with true. cbv iota.
  change (path_root BeethovenAlignment.OUTPUT_DIR) with "".
  change (path_parts BeethovenAlignment.OUTPUT_DIR) with ["Beethoven-labels"].
  cbn [app path_str].
  set (rest := List.filter _ pieces).
  change (PyStr.join "/" ("Beethoven-labels" :: ("dcml-" +:+ piece) :: rest))
    with ("Beethoven-labels" +:+ "/"
          +:+ PyStr.join "/" (("dcml-" +:+ piece) :: rest)).
  rewrite join_after. reflexivity.
Qed.

(** Two names have the same [fh-] file exactly when they have the same
    [dcml-] file. *)
Lemma fh_path_same a b : fh_path a = fh_path b <-> dcml_path a = dcml_path b.
Proof.
  rewrite (fh_path_eq a), (fh_path_eq b), (dcml_path_eq a), (dcml_path_eq b).
  split; intros H; simplify_eq; congruence.
Qed.

Lemma fh_path_not_dcml a b : fh_path a <> dcml_path b.
Proof. rewrite fh_path_eq, dcml_path_eq. intros H. simplify_eq. Qed.

Lemma paired_insert_fh_dcml {L} (fs : gmap string L) name fh dcml :
  paired fs -> paired (<[ dcml_path name := dcml ]> (<[ fh_path name := fh ]> fs)).
Proof.
  intros Hp other.
  destruct (String.string_dec (fh_path name) (fh_path other)) as [Heq|Hne].
  - assert (Heq' : dcml_path name = dcml_path other) by now apply fh_path_same.
    rewrite <- Heq, <- Heq'.
    rewrite lookup_insert_ne by (apply not_eq_sym, fh_path_not_dcml).
    rewrite !lookup_insert_eq. split; eauto.
  - assert (Hne' : dcml_path name <> dcml_path other)
      by (intros H; now apply Hne, fh_path_same).
    rewrite lookup_insert_ne by (apply not_eq_sym, fh_path_not_dcml).
    rewrite lookup_insert_ne by exact Hne.
    rewrite lookup_insert_ne by exact Hne'.
    rewrite lookup_insert_ne by apply fh_path_not_dcml.
    apply Hp.
Qed.

Section AlignmentProofs.
Context {L : Type}.
Variable path_exists : string -> bool.
Variable open_file : string -> Py.outcome unit.
Variable get_score_piece_from_music_xml : string -> string -> Py.outcome Piece.
Variable files_df : list (Z * file_row).
Variable get_score_piece_from_data_frames : Z -> Py.outcome Piece.
Variable get_labels_df : Piece -> Py.outcome L.

Import BeethovenAlignment.

Local Abbreviation align_score :=
  (BeethovenAlignment.align_score path_exists open_file
     get_score_piece_from_music_xml files_df get_score_piece_from_data_frames
     get_labels_df).
Local Abbreviation align_scores :=
  (BeethovenAlignment.align_scores path_exists open_file
     get_score_piece_from_music_xml files_df get_score_piece_from_data_frames
     get_labels_df).

(** The log does not steer the loop. *)
Lemma align_score_log_free stem (w1 w2 : world L) :
  written w1 = written w2 ->
  written (fst (align_score stem w1)) = written (fst (align_score stem w2))
  /\ snd (align_score stem w1) = snd (align_score stem w2).
Proof.
  intros H. unfold BeethovenAlignment.align_score, BeethovenAlignment.to_csv.
  repeat case_match; simplify_eq; simpl; rewrite ?H; auto.
Qed.

Lemma align_scores_log_free stems : forall w1 w2 : world L,
  written w1 = written w2 ->
  written (fst (align_scores stems w1)) = written (fst (align_scores stems w2))
  /\ snd (align_scores stems w1) = snd (align_scores stems w2).
Proof.
  induction stems as [|stem stems IH]; intros w1 w2 H; simpl; [auto|].
  destruct (align_score_log_free stem w1 w2 H) as [Hw Ho].
  destruct (BeethovenAlignment.align_score _ _ _ _ _ _ stem w1) as [w1' o1].
  destruct (BeethovenAlignment.align_score _ _ _ _ _ _ stem w2) as [w2' o2].
  simpl in *. subst o2. destruct o1 as [[]|e]; [now apply IH | auto].
Qed.

Lemma align_scores_app pre : forall post (w : world L),
  align_scores (pre ++ post) w
  = match align_scores pre w with
    | (w', Py.Returned _) => align_scores post w'
    | (w', Py.Raised e) => (w', Py.Raised e)
    end.
Proof.
  induction pre as [|stem pre IH]; intros post w; simpl.
  - reflexivity.
  - destruct (BeethovenAlignment.align_score _ _ _ _ _ _ stem w) as [w' [[]|e]];
      [apply IH | reflexivity].
Qed.

(** A score whose body ends by [continue], with nothing written, can be
    taken out of the batch. *)
Lemma skipped_score_leaves_no_trace stem :
  (forall w : world L,
     written (fst (align_score stem w)) = written w
     /\ snd (align_score stem w) = Py.Returned tt) ->
  forall pre post (w : world L),
    written (fst (align_scores (pre ++ stem :: post) w))
    = written (fst (align_scores (pre ++ post) w))
    /\ snd (align_scores (pre ++ stem :: post) w)
       = snd (align_scores (pre ++ post) w).
Proof.
  intros Hskip pre post w. rewrite !align_scores_app.
  destruct (BeethovenAlignment.align_scores _ _ _ _ _ _ pre w) as [w' [[]|e]];
    [|auto].
  simpl. destruct (Hskip w') as [Hw Ho].
  destruct (BeethovenAlignment.align_score _ _ _ _ _ _ stem w') as [w'' o].
  simpl in *. subst o. now apply align_scores_log_free.
Qed.

(** X12.  A score that the alignment loop cannot match is skipped and
    leaves no trace in the label files: when its label csv does not
    exist (its MusicXML is then not even read), or when no row of
    [files_df] has the corpus [beethoven_piano_sonatas] and the file name
    made of the score's number and the last character of its movement
    (the character, of however many bytes), a batch with the score writes
    what the batch without it writes and ends as it ends. *)
Theorem unmatched_score_is_skipped
    (stem : string) (pre post : list string) (w : world L) :
  (path_exists (label_csv_path stem) = false
   \/ exists fh_score prefix number movement name,
        get_score_piece_from_music_xml (music_xml_path stem) (label_csv_path stem)
        = Py.Returned fh_score
        /\ PyStr.split "_" stem = [prefix; number; movement]
        /\ dcml_file_name number movement = Py.Returned name
        /\ matching files_df name = []) ->
  written (fst (align_scores (pre ++ stem :: post) w))
  = written (fst (align_scores (pre ++ post) w))
  /\ snd (align_scores (pre ++ stem :: post) w)
     = snd (align_scores (pre ++ post) w).
Proof.
  intros Hwhy. apply skipped_score_leaves_no_trace. intros w0.
  unfold BeethovenAlignment.align_score.
  destruct Hwhy as [Hnone|(fh & prefix & number & movement & name
                            & Hxml & Hsplit & Hname & Hmatch)].
  - rewrite Hnone. simpl. auto.
  - destruct (path_exists (label_csv_path stem)); simpl; [|auto].
    rewrite Hxml, Hsplit, Hname, Hmatch. simpl. auto.
Qed.

(** X13.  The handler of the alignment loop is [except KeyError] and
    nothing more.  For a score that reaches the DCML constructor: if the
    constructor raises [KeyError] the score is skipped, a batch with it
    writing what the batch without it writes; if it raises anything else,
    an ordinary [Exception] such as [ValueError] included, the loop ends
    there with that exception, the files being those the scores before it
    left, and no later score is aligned. *)
Theorem only_KeyError_is_skipped
    (stem prefix number movement name : string) (fh_score : Piece)
    (file_id : Z) (row : file_row) (others : list (Z * file_row))
    (e : Py.exn) :
  path_exists (label_csv_path stem) = true ->
  get_score_piece_from_music_xml (music_xml_path stem) (label_csv_path stem)
  = Py.Returned fh_score ->
  PyStr.split "_" stem = [prefix; number; movement] ->
  dcml_file_name number movement = Py.Returned name ->
  matching files_df name = (file_id, row) :: others ->
  get_score_piece_from_data_frames file_id = Py.Raised e ->
  (e = Py.KeyError ->
   forall pre post (w : world L),
     written (fst (align_scores (pre ++ stem :: post) w))
     = written (fst (align_scores (pre ++ post) w))
     /\ snd (align_scores (pre ++ stem :: post) w)
        = snd (align_scores (pre ++ post) w))
  /\ (e <> Py.KeyError ->
      forall pre post (w w' : world L),
        align_scores pre w = (w', Py.Returned tt) ->
        snd (align_scores (pre ++ stem :: post) w) = Py.Raised e
        /\ written (fst (align_scores (pre ++ stem :: post) w)) = written w').
Proof.
  intros Hexists Hxml Hsplit Hname Hmatch Hfail.
  assert (Hbody : forall w0 : world L,
    align_score stem w0
    = let w1 := match others with
                | [] => w0
                | _ :: _ =>
                    error (MultipleMatchingFiles (music_xml_path stem)
                             (map fst ((file_id, row) :: others))) w0
                end in
      match e with
      | Py.KeyError =>
          (error (NoMatchingChordData (music_xml_path stem) file_id) w1,
           Py.Returned tt)
      | _ => (w1, Py.Raised e)
      end).
  { intros w0. unfold BeethovenAlignment.align_score.
    rewrite Hexists, Hxml, Hsplit, Hname, Hmatch, Hfail. simpl.
    destruct e; reflexivity. }
  split.
  - intros -> pre post w. apply skipped_score_leaves_no_trace.
    intros w0. rewrite Hbody. simpl. destruct others; simpl; auto.
  - intros Hne pre post w w' Hpre.
    rewrite align_scores_app, Hpre. simpl. rewrite Hbody.
    destruct e; try contradiction; destruct others; simpl; auto.
Qed.

Lemma align_score_paired stem (w : world L) :
  snd (align_score stem w) = Py.Returned tt ->
  paired (written w) -> paired (written (fst (align_score stem w))).
Proof.
  unfold BeethovenAlignment.align_score, BeethovenAlignment.to_csv.
  repeat case_match; simplify_eq; simpl; try discriminate; intros _ Hp;
    try exact Hp.
  all: apply paired_insert_fh_dcml; exact Hp.
Qed.

(** X14.  The alignment loop writes the label files in pairs: when it
    returns, started among files in which every [fh-] file has its
    [dcml-] twin and every [dcml-] file its [fh-] twin, the same holds of
    the files it leaves. *)
Theorem label_files_come_in_pairs
    (stems : list string) (w w' : world L) :
  align_scores stems w = (w', Py.Returned tt) ->
  paired (written w) -> paired (written w').
Proof.
  revert w. induction stems as [|stem stems IH]; intros w Hrun Hp; simpl in Hrun.
  - now inversion Hrun; subst.
  - pose proof (align_score_paired stem w) as Hstep.
    destruct (BeethovenAlignment.align_score _ _ _ _ _ _ stem w) as [w1 [[]|e]];
      [|discriminate].
    apply (IH w1 Hrun). now apply Hstep.
Qed.

Lemma label_path_in_output_dir name :
  String.prefix "Beethoven-labels/" (fh_path name) = true
  /\ String.prefix "Beethoven-labels/" (dcml_path name) = true.
Proof. rewrite fh_path_eq, dcml_path_eq. split; reflexivity. Qed.

Lemma align_score_frame stem (w : world L) path :
  String.prefix "Beethoven-labels/" path = false ->
  written (fst (align_score stem w)) !! path = written w !! path.
Proof.
  intros Hout.
  assert (Hfh : forall name, label_path ("fh-" +:+ name) <> path).
  { intros name Heq. change (fh_path name = path) in Heq. subst path.
    now rewrite (proj1 (label_path_in_output_dir name)) in Hout. }
  assert (Hdcml : forall name, label_path ("dcml-" +:+ name) <> path).
  { intros name Heq. change (dcml_path name = path) in Heq. subst path.
    now rewrite (proj2 (label_path_in_output_dir name)) in Hout. }
  unfold BeethovenAlignment.align_score, BeethovenAlignment.to_csv.
  repeat case_match; simplify_eq; simpl; try reflexivity;
    rewrite ?lookup_insert_ne by auto; reflexivity.
Qed.

(** X15.  The alignment loop writes inside [Beethoven-labels] only:
    however it ends, a path that does not begin with
    [Beethoven-labels/] holds afterwards what it held before. *)
Theorem alignment_writes_in_output_dir_only
    (stems : list string) (w : world L) (path : string) :
  String.prefix "Beethoven-labels/" path = false ->
  written (fst (align_scores stems w)) !! path = written w !! path.
Proof.
  intros Hout. revert w. induction stems as [|stem stems IH]; intros w; simpl;
    [reflexivity|].
  pose proof (align_score_frame stem w path Hout) as Hstep.
  destruct (BeethovenAlignment.align_score _ _ _ _ _ _ stem w) as [w1 [[]|e]];
    simpl in *; [now rewrite IH | exact Hstep].
Qed.

(** X16.  The name of a score has to be three parts joined by two
    underscores.  For a score whose label csv exists and whose MusicXML
    is read: with any other number of underscores the unpacking of
    [stem.split("_")] ends the loop with [ValueError]; with two
    underscores of which the second ends the name, [movement[-1]] ends it
    with [IndexError].  Either way nothing is logged or written for the
    score and no later score is aligned. *)
Theorem malformed_score_name_ends_the_loop
    (stem : string) (rest : list string) (w : world L) (fh_score : Piece) :
  path_exists (label_csv_path stem) = true ->
  get_score_piece_from_music_xml (music_xml_path stem) (label_csv_path stem)
  = Py.Returned fh_score ->
  (PyStr.count "_" stem <> 2 ->
   align_scores (stem :: rest) w = (w, Py.Raised Py.ValueError))
  /\ (forall prefix number,
        PyStr.count "_" prefix = 0 -> PyStr.count "_" number = 0 ->
        stem = prefix +:+ "_" +:+ number +:+ "_" ->
        align_scores (stem :: rest) w = (w, Py.Raised Py.IndexError)).
Proof.
  intros Hexists Hxml. split.
  - intros Hcount. simpl. unfold BeethovenAlignment.align_score.
    rewrite Hexists, Hxml. simpl.
    pose proof (split_length "_" stem) as Hlen.
    destruct (PyStr.split "_" stem) as [|a [|b [|c [|d l]]]]; simpl in Hlen;
      try reflexivity.
    exfalso. apply Hcount. lia.
  - intros prefix number Hprefix Hnumber ->. simpl.
    unfold BeethovenAlignment.align_score.
    rewrite Hexists, Hxml. simpl.
    change (prefix +:+ "_" +:+ number +:+ "_")
      with (prefix +:+ String "_" (number +:+ String "_" "")).
    rewrite (split_app "_" prefix _ Hprefix), (split_app "_" number _ Hnumber).
    reflexivity.
Qed.

End AlignmentProofs.

(** ** The label lines of the ML-course export *)

Section LabelLines.
Import PyStr MLCourseLabels.

Lemma count_no_space (s : string) (c : ascii) :
  isspace c = true ->
  forallb (fun d => negb (isspace d)) (String.list_ascii_of_string s) = true ->
  count c s = 0.
Proof.
  intros Hc. induction s as [|d s IH]; simpl; [reflexivity|].
  intros H. apply andb_prop in H as [Hd Hs]. rewrite (IH Hs).
  destruct (Ascii.eqb d c) eqn:E; [|reflexivity].
  apply Ascii.eqb_eq in E. subst d. rewrite Hc in Hd. discriminate.
Qed.

Lemma eqb_not_space (d c : ascii) :
  isspace c = true -> isspace d = false -> Ascii.eqb d c = false.
Proof.
  intros Hc Hd. destruct (Ascii.eqb d c) eqn:E; [|reflexivity].
  apply Ascii.eqb_eq in E. congruence.
Qed.

Lemma mode_label_values mode :
  mode_label mode = match mode with MAJOR => "MAJOR" | MINOR => "MINOR" end.
Proof. destruct mode; reflexivity. Qed.

Lemma add_labels_mode (mode : KeyMode) (new : list string) (l : labels) :
  labels_of mode (add_labels (mode_label mode) new l)
  = labels_of mode l ∪ list_to_set new
  /\ forall other, other <> mode ->
       labels_of other (add_labels (mode_label mode) new l) = labels_of other l.
Proof.
  destruct mode; (split; [reflexivity|]); intros [] H; try reflexivity;
    contradiction.
Qed.

Local Abbreviation clean separators label :=
  (forall c, isspace c = true \/ In c separators -> count c label = 0).

Lemma plain_clean separators label :
  plain separators label = true -> clean separators label.
Proof.
  unfold plain. induction label as [|d label IH]; simpl; [reflexivity|].
  intros H c Hc. apply andb_prop in H as [Hd Hrest].
  apply andb_prop in Hd as [Hspace Hsep].
  apply andb_prop in Hspace as [_ Hspace].
  rewrite (IH Hrest c Hc).
  destruct (Ascii.eqb d c) eqn:E; [|reflexivity].
  apply Ascii.eqb_eq in E. subst d. exfalso.
  destruct Hc as [Hc|Hc].
  - rewrite Hc in Hspace. discriminate.
  - assert (Hex : existsb (Ascii.eqb c) separators = true).
    { apply existsb_exists. exists c. split; [exact Hc | apply Ascii.eqb_refl]. }
    rewrite Hex in Hsep. discriminate.
Qed.

(** A string of ASCII characters, none of them white space. *)
Local Abbreviation solid s :=
  (forallb (fun c => is_ascii c && negb (isspace c))
           (String.list_ascii_of_string s)).

Lemma plain_solid separators label :
  plain separators label = true -> solid label = true.
Proof.
  unfold plain. intros H. rewrite forallb_forall in *. intros c Hc.
  specialize (H c Hc). apply andb_prop in H as [H _]. exact H.
Qed.

Lemma solid_app s t : solid s = true -> solid t = true -> solid (s +:+ t) = true.
Proof.
  intros Hs Ht. rewrite bytes_app, forallb_app, Hs, Ht. reflexivity.
Qed.

Lemma solid_join sep pieces :
  solid sep = true ->
  Forall (fun piece => solid piece = true) pieces ->
  solid (join sep pieces) = true.
Proof.
  intros Hsep. induction pieces as [|piece pieces IH]; intros Hall;
    [reflexivity|].
  inversion Hall as [|? ? Hpiece Hrest]; subst.
  destruct pieces as [|next pieces]; [exact Hpiece|].
  change (join sep (piece :: next :: pieces))
    with (piece +:+ sep +:+ join sep (next :: pieces)).
  apply solid_app; [exact Hpiece|]. apply solid_app; [exact Hsep|].
  now apply IH.
Qed.

Lemma solid_mode_label mode : solid (mode_label mode) = true.
Proof. destruct mode; reflexivity. Qed.

(** X17.  A chord csv line is read back as it was written.  For labels
    of ASCII characters without white space, semicolon and comma, reading
    the line that the
    export writes for a mode and its chord symbols adds exactly those
    symbols to the label set of that mode and leaves the other set as it
    was.  A line written for no chord symbol at all adds the empty
    string as a label. *)
Theorem chord_line_round_trip
    (mode : KeyMode) (chord_symbols : list string) (l : labels) :
  Forall (fun symbol => plain [";"; ","]%char symbol = true) chord_symbols ->
  exists l',
    read_chord_line (chord_line mode chord_symbols) l = Py.Returned l'
    /\ labels_of mode l'
       = labels_of mode l
         ∪ list_to_set (match chord_symbols with
                        | [] => [EmptyString]
                        | _ :: _ => chord_symbols
                        end)
    /\ forall other, other <> mode -> labels_of other l' = labels_of other l.
Proof.
  intros Hplain0.
  assert (Hplain : Forall (fun symbol => clean [";"; ","]%char symbol)
                          chord_symbols).
  { eapply List.Forall_impl; [|exact Hplain0].
    intros symbol H. now apply plain_clean. }
  assert (Hsolid : solid (join "," chord_symbols) = true).
  { apply solid_join; [reflexivity|].
    eapply List.Forall_impl; [|exact Hplain0].
    intros symbol H. now apply (plain_solid _ _ H). }
  clear Hplain0.
  set (chords := join "," chord_symbols) in *.
  assert (Hchords : forall c,
             isspace c = true \/ c = ";"%char -> count c chords = 0).
  { intros c Hc. unfold chords.
    destruct chord_symbols as [|first rest]; [reflexivity|].
    apply count_join.
    - destruct Hc as [Hc| ->]; [|reflexivity].
      now apply eqb_not_space.
    - apply List.Forall_forall. intros p Hp.
      rewrite List.Forall_forall in Hplain. apply (Hplain p Hp).
      destruct Hc as [Hc| ->]; [now left | right; now left]. }
  assert (Hsplit : split "," chords
                   = match chord_symbols with
                     | [] => [EmptyString]
                     | _ :: _ => chord_symbols
                     end).
  { unfold chords. destruct chord_symbols as [|first rest]; [reflexivity|].
    apply split_join. apply List.Forall_forall. intros p Hp.
    rewrite List.Forall_forall in Hplain. apply (Hplain p Hp).
    right. right. now left. }
  assert (Hline : chord_line mode chord_symbols
                  = (mode_label mode +:+ String ";" chords) +:+ String "010" "").
  { unfold chord_line. fold chords. rewrite mode_label_values.
    destruct mode; reflexivity. }
  assert (Hmode : forall c, isspace c = true \/ c = ";"%char ->
                            count c (mode_label mode) = 0).
  { intros c [Hc| ->]; [|destruct mode; reflexivity].
    apply count_no_space; [exact Hc | destruct mode; reflexivity]. }
  exists (add_labels (mode_label mode) (split "," chords) l).
  split.
  - unfold read_chord_line. rewrite Hline, strip_line.
    + rewrite split_app by (apply Hmode; now right).
      rewrite split_no_sep by (apply Hchords; now right). reflexivity.
    + apply solid_app; [apply solid_mode_label|].
      change (String ";" chords) with (";" +:+ chords).
      now apply solid_app.
  - rewrite Hsplit. apply add_labels_mode.
Qed.

Section KeyLineProofs.
Variable get_scale_degree_from_interval : Z -> KeyMode -> string.

Local Abbreviation key_symbol := (MLCourseLabels.key_symbol get_scale_degree_from_interval).
Local Abbreviation key_line := (MLCourseLabels.key_line get_scale_degree_from_interval).
Local Abbreviation degree key :=
  (get_scale_degree_from_interval (local_tonic key - global_tonic key)
                                  (global_mode key)).

Lemma key_symbol_count key c :
  clean [","; ":"]%char (degree key) ->
  isspace c = true \/ c = ","%char -> count c (key_symbol key) = 0.
Proof.
  intros Hplain Hc. unfold MLCourseLabels.key_symbol.
  rewrite count_app. cbn [String.append count].
  assert (Hd : count c (degree key) = 0).
  { apply Hplain. destruct Hc as [Hc| ->]; [now left | right; now left]. }
  rewrite Hd, count_app. cbn [count].
  destruct Hc as [Hc| ->].
  - rewrite (eqb_not_space ":" c Hc eq_refl).
    rewrite (count_no_space (mode_label (local_mode key)) c Hc);
      [reflexivity | destruct (local_mode key); reflexivity].
  - destruct (local_mode key); reflexivity.
Qed.

(** X18.  A key csv line is read back under the mode of its first key.
    For scale degrees of ASCII characters without white space, comma and
    colon, reading the line that the export writes for the keys of a piece adds every key
    symbol of the line to the label set of the local mode of the first
    key, whatever the modes of the later keys and whatever the global
    mode, and leaves the other set as it was. *)
Theorem key_line_round_trip
    (key : Key) (keys : list Key) (l : labels) :
  Forall (fun k => plain [","; ":"]%char (degree k) = true) (key :: keys) ->
  exists l',
    read_key_line (key_line (key :: keys)) l = Py.Returned l'
    /\ labels_of (local_mode key) l'
       = labels_of (local_mode key) l
         ∪ list_to_set (map key_symbol (key :: keys))
    /\ forall other, other <> local_mode key ->
         labels_of other l' = labels_of other l.
Proof.
  intros Hplain0.
  assert (Hplain : Forall (fun k => clean [","; ":"]%char (degree k))
                          (key :: keys)).
  { eapply List.Forall_impl; [|exact Hplain0].
    intros k H. now apply plain_clean. }
  assert (Hsolid : solid (join "," (map key_symbol (key :: keys))) = true).
  { apply solid_join; [reflexivity|]. apply List.Forall_forall.
    intros p Hp. apply in_map_iff in Hp as (k & <- & Hk).
    rewrite List.Forall_forall in Hplain0.
    unfold MLCourseLabels.key_symbol.
    apply solid_app; [exact (plain_solid _ _ (Hplain0 k Hk))|].
    apply solid_app; [reflexivity | apply solid_mode_label]. }
  clear Hplain0.
  assert (Hsym : forall c, isspace c = true \/ c = ","%char ->
            Forall (fun p => count c p = 0) (map key_symbol (key :: keys))).
  { intros c Hc. apply List.Forall_forall. intros p Hp.
    apply in_map_iff in Hp as (k & <- & Hk).
    rewrite List.Forall_forall in Hplain.
    apply key_symbol_count; [now apply Hplain | exact Hc]. }
  exists (add_labels (mode_label (local_mode key))
            (map key_symbol (key :: keys)) l).
  split; [|apply add_labels_mode].
  unfold read_key_line, MLCourseLabels.key_line.
  rewrite strip_line.
  - change (map key_symbol (key :: keys))
      with (key_symbol key :: map key_symbol keys) in *.
    rewrite split_join by (apply Hsym; now right).
    unfold MLCourseLabels.key_symbol at 1.
    change (degree key +:+ ":" +:+ mode_label (local_mode key))
      with (degree key +:+ String ":" (mode_label (local_mode key))).
    rewrite split_app.
    + rewrite split_no_sep by (destruct (local_mode key); reflexivity).
      reflexivity.
    + inversion Hplain as [|? ? Hk _]; subst. apply Hk. right. right. now left.
  - exact Hsolid.
Qed.

End KeyLineProofs.

(** X19.  Lines that the cell "Recreate labels from csv" cannot read.
    A chord line ends the cell with [ValueError] exactly when, stripped,
    it does not hold one semicolon and one only; a blank line is such a
    line.  A key line ends the cell with [IndexError] exactly when its
    first entry holds no colon. *)
Theorem unreadable_label_lines (line : string) (l : labels) :
  (read_chord_line line l = Py.Raised Py.ValueError
   <-> count ";" (strip line) <> 1)
  /\ ((exists l', read_chord_line line l = Py.Returned l')
      <-> count ";" (strip line) = 1)
  /\ (read_key_line line l = Py.Raised Py.IndexError
      <-> count ":" (hd EmptyString (split "," (strip line))) = 0)
  /\ ((exists l', read_key_line line l = Py.Returned l')
      <-> count ":" (hd EmptyString (split "," (strip line))) <> 0).
Proof.
  assert (Hchord : forall s, length (split ";" s) = S (count ";" s))
    by (intros s; apply split_length).
  assert (Hkey : forall s, length (split ":" s) = S (count ":" s))
    by (intros s; apply split_length).
  unfold read_chord_line, read_key_line.
  specialize (Hchord (strip line)).
  pose proof (split_nonempty "," (strip line)) as Hne.
  destruct (split ";" (strip line)) as [|a [|b [|c rest]]]; simpl in Hchord;
    (split; [|split]).
  all: try (split; [intros _; lia | intros _; reflexivity]).
  all: try (split; [intros [l' H]; discriminate | intros H; lia]).
  all: try (split; [intros H; discriminate | intros H; lia]).
  all: try (split; [intros _; lia | intros _; eauto]).
  all: destruct (split "," (strip line)) as [|first others]; [contradiction|];
    simpl; specialize (Hkey first);
    destruct (split ":" first) as [|x [|y more]]; simpl in Hkey; split.
  all: try (split; [intros _; lia | intros _; reflexivity]).
  all: try (split; [intros [l' H]; discriminate | intros H; lia]).
  all: try (split; [intros H; discriminate | intros H; lia]).
  all: try (split; [intros _; lia | intros _; eauto]).
Qed.

End LabelLines.

(** ** The composers *)

Section ComposersProofs.
Import PyStr.

Lemma composer_is_prefix name :
  lstrip name = name ->
  String.prefix (MLCourseLabels.composer_of name) name = true.
Proof.
  intros Hfixed. unfold MLCourseLabels.composer_of, strip.
  destruct (split_head_app "-" name) as [rest Hname].
  assert (Hl : lstrip (hd EmptyString (split "-" name))
               = hd EmptyString (split "-" name)).
  { apply (lstrip_front _ rest). now rewrite <- Hname. }
  rewrite Hl.
  apply (prefix_trans _ (hd EmptyString (split "-" name)));
    [apply rstrip_prefix | apply split_head_prefix].
Qed.

Lemma In_composers files_df composer :
  In composer (MLCourseLabels.composers files_df)
  <-> In composer
        (map (fun r => MLCourseLabels.composer_of (corpus_name (snd r))) files_df).
Proof.
  unfold MLCourseLabels.composers, sorted.
  rewrite sort_by_In, <- !list_elem_of_In, elem_of_elements, elem_of_list_to_set.
  reflexivity.
Qed.

(** X20.  Every file is exported under some composer, and each
    composer is taken once.  The composers are distinct, and a row of
    [files_df] whose corpus name does not begin with white space (a
    character that [str.strip] takes off, the ASCII ones or another, such
    as the no-break space) is among the rows selected, by [startswith],
    for the composer computed from its own corpus name. *)
Theorem every_file_has_its_composer
    (files_df : list (Z * file_row)) (file_id : Z) (row : file_row) :
  In (file_id, row) files_df ->
  lstrip (corpus_name row) = corpus_name row ->
  List.NoDup (MLCourseLabels.composers files_df)
  /\ In (MLCourseLabels.composer_of (corpus_name row))
        (MLCourseLabels.composers files_df)
  /\ In (file_id, row)
        (MLCourseData.composer_rows
           (MLCourseLabels.composer_of (corpus_name row)) files_df).
Proof.
  intros Hin Hfixed. split; [|split].
  - unfold MLCourseLabels.composers, sorted.
    apply (Permutation_NoDup (Permutation_sym (sort_by_perm String.leb _))).
    apply NoDup_ListNoDup, NoDup_elements.
  - apply In_composers, in_map_iff. now exists (file_id, row).
  - unfold MLCourseData.composer_rows. apply filter_In. split; [exact Hin|].
    simpl. now apply composer_is_prefix.
Qed.

End ComposersProofs.

(** ** The name of the chosen piece *)

Section ChoosePieceProofs.
Import PyStr ChoosePiece.

Lemma lstrip_space s : lstrip (String " " s) = lstrip s.
Proof. reflexivity. Qed.

(** X21.  The name given to a validation piece is taken apart again by
    the cell that chooses a piece.  For a file id whose text holds no
    colon: if neither the corpus name nor the file name holds a colon,
    the cell gets back the stripped file id and the stripped
    [corpus_name/file_name], stripped as [str.strip] does it, of all
    white space at either end, the white space beyond ASCII included; if
    either holds a colon, the unpacking ends the cell with
    [ValueError]. *)
Theorem piece_name_round_trip (file_id : string) (row : file_row) :
  count ":" file_id = 0 ->
  (count ":" (corpus_name row +:+ "/" +:+ file_name row) = 0 ->
   split_name (piece_name file_id row)
   = Py.Returned (strip file_id,
                  strip (corpus_name row +:+ "/" +:+ file_name row)))
  /\ (count ":" (corpus_name row +:+ "/" +:+ file_name row) <> 0 ->
      split_name (piece_name file_id row) = Py.Raised Py.ValueError).
Proof.
  intros Hid.
  assert (Hname : piece_name file_id row
                  = file_id +:+ String ":" (String " "
                      (corpus_name row +:+ "/" +:+ file_name row)))
    by reflexivity.
  unfold split_name. rewrite Hname, (split_app ":" file_id _ Hid).
  split.
  - intros Hrest.
    rewrite split_no_sep by (cbn [count]; simpl; exact Hrest).
    reflexivity.
  - intros Hrest.
    pose proof (split_length ":"
      (String " " (corpus_name row +:+ "/" +:+ file_name row))) as Hlen.
    cbn [count] in Hlen. simpl Ascii.eqb in Hlen. simpl Nat.add in Hlen.
    destruct (split ":" (String " " (corpus_name row +:+ "/" +:+ file_name row)))
      as [|a [|b rest]]; simpl in Hlen; [discriminate | lia | reflexivity].
Qed.

End ChoosePieceProofs.


(* ===================================================================== *)
(** * Part IV: properties of the modelled decoder *)
(* ===================================================================== *)

Module DecoderProofs.
Import Decoder.

(** ** Lists *)

Lemma In_take {A} (n : nat) (l : list A) (x : A) : In x (take n l) -> In x l.
Proof.
  revert n. induction l as [|y l IH]; intros [|n]; simpl; try tauto.
  intros [->|H]; [now left | right; eauto].
Qed.

Lemma In_take_drop {A} (n : nat) (l : list A) (x : A) : In x (drop n l) -> In x l.
Proof.
  revert n. induction l as [|y l IH]; intros [|n]; simpl; try tauto.
  intros H. right. eauto.
Qed.

Lemma In_rank {A} (score : A -> Q) (l : list A) (x : A) :
  In x (rank score l) <-> In x l.
Proof. apply sort_by_In. Qed.

Lemma In_imap {A B} (f : nat -> A -> B) (l : list A) (y : B) :
  In y (imap f l) -> exists i x, y = f i x /\ l !! i = Some x.
Proof.
  intros H. apply list_elem_of_In in H. now apply elem_of_lookup_imap in H.
Qed.

(** ** Ranges *)

Lemma ends_at_cons from r rs : ends_at from (r :: rs) = ends_at (snd r) rs.
Proof.
  unfold ends_at. destruct rs as [|r' rs]; [reflexivity|].
  change (last (r :: r' :: rs)) with (last (r' :: rs)).
  destruct (last (r' :: rs)) eqn:E; [reflexivity|].
  apply last_None in E. discriminate.
Qed.

Lemma ends_at_snoc from rs r : ends_at from (rs ++ [r]) = snd r.
Proof. unfold ends_at. now rewrite last_snoc. Qed.


Lemma consecutive_snoc from rs e :
  consecutive from rs -> (ends_at from rs < e)%nat ->
  consecutive from (rs ++ [(ends_at from rs, e)]).
Proof.
  revert from. induction rs as [|r rs IH]; intros from Hc Hlt.
  - simpl. unfold ends_at in *. simpl in *. tauto.
  - destruct Hc as (Hs & Hr & Hrest). rewrite ends_at_cons in *.
    simpl. repeat split; auto.
Qed.





(** ** The range proposer *)

Section Proposer.
Variable ln : Q -> Q.
Variable cfg : Config.

Lemma scan_bounds ps : forall j running e lp,
  In (e, lp) (scan ln cfg ps j running) -> (j <= e <= j + length ps)%nat.
Proof.
  induction ps as [|p ps IH]; intros j running e lp Hin; simpl in *.
  - destruct Hin as [[= <- _]|[]]. lia.
  - apply in_app_iff in Hin as [Hin|Hin].
    + destruct (may_change cfg p); [|destruct Hin].
      destruct Hin as [[= <- _]|[]]. lia.
    + destruct (may_continue cfg p); [|destruct Hin].
      apply IH in Hin. lia.
Qed.

Lemma next_ranges_bounds probs start e lp :
  In (e, lp) (next_ranges ln cfg probs start) ->
  (start < e <= length probs)%nat.
Proof.
  unfold next_ranges. destruct (start <? length probs)%nat eqn:E; [|intros []].
  apply Nat.ltb_lt in E. intros Hin. apply scan_bounds in Hin.
  rewrite length_drop in Hin. lia.
Qed.

Lemma propose_bounds fuel : forall probs start starts r lp,
  In (r, lp) (propose ln cfg fuel probs start starts) ->
  (fst r < snd r <= length probs)%nat.
Proof.
  induction fuel as [|fuel IH]; intros probs start starts r lp Hin; [destruct Hin|].
  simpl in Hin. destruct (existsb (Nat.eqb start) starts); [|now apply IH in Hin].
  apply in_app_iff in Hin as [Hin|Hin]; [|now apply IH in Hin].
  apply in_map_iff in Hin as ([e lp'] & [= <- <-] & Hin).
  apply next_ranges_bounds in Hin. exact Hin.
Qed.

Lemma propose_mono fuel : forall probs start starts starts' x,
  (forall s, In s starts -> In s starts') ->
  In x (propose ln cfg fuel probs start starts) ->
  In x (propose ln cfg fuel probs start starts').
Proof.
  induction fuel as [|fuel IH]; intros probs start starts starts' x Hsub Hin;
    [destruct Hin|].
  simpl in *. destruct (existsb (Nat.eqb start) starts) eqn:E.
  - assert (E' : existsb (Nat.eqb start) starts' = true).
    { apply existsb_exists in E as (s & Hs & Hes).
      apply existsb_exists. exists s. split; [now apply Hsub | exact Hes]. }
    rewrite E'. apply in_app_iff in Hin as [Hin|Hin]; apply in_app_iff;
      [now left | right].
    apply (IH _ _ _ _ _ ) with (2 := Hin).
    intros s Hs. apply in_app_iff in Hs as [Hs|Hs]; apply in_app_iff;
      [now left | right; now apply Hsub].
  - destruct (existsb (Nat.eqb start) starts').
    + apply in_app_iff. right. apply (IH _ _ _ _ _ ) with (2 := Hin).
      intros s Hs. apply in_app_iff. right. now apply Hsub.
    + now apply (IH _ _ starts starts').
Qed.



(** A proposed range that starts at [start] is not empty and stays inside
    the timeline. *)
Lemma ranges_from_bounds probs start r lp :
  In (r, lp) (ranges_from (get_chord_ranges ln cfg probs) start) ->
  fst r = start /\ (start < snd r <= length probs)%nat.
Proof.
  unfold ranges_from, get_chord_ranges. cbn [fst snd]. rewrite zip_fst_snd.
  intros Hin. apply filter_In in Hin as [Hin Hstart].
  apply propose_bounds in Hin. cbn [fst] in Hstart.
  apply Nat.eqb_eq in Hstart. subst start. split; [reflexivity | exact Hin].
Qed.






End Proposer.

(** ** The hypotheses of the search *)

(** What every hypothesis of the search satisfies on a timeline of [N]
    frames: its chords form a chain from frame [0] that stays inside the
    timeline. *)
Definition sound (N : nat) (s : State) : Prop :=
  consecutive 0 (ranges s) /\ (change_index s <= N)%nat.

Lemma sound_root N k prior : sound N (root_state k prior).
Proof. split; [exact I | unfold change_index, ends_at; simpl; lia]. Qed.

Lemma ranges_chord_transition s chord e lp :
  ranges (chord_transition s chord e lp) = ranges s ++ [(change_index s, e)].
Proof. unfold ranges. simpl. now rewrite map_app. Qed.

Lemma change_index_chord_transition s chord e lp :
  change_index (chord_transition s chord e lp) = e.
Proof.
  unfold change_index. rewrite ranges_chord_transition. apply ends_at_snoc.
Qed.

Lemma sound_chord_transition N s chord e lp :
  sound N s -> (change_index s < e <= N)%nat ->
  sound N (chord_transition s chord e lp).
Proof.
  intros [Hc Hle] [Hlt HeN]. split.
  - rewrite ranges_chord_transition. now apply consecutive_snoc.
  - rewrite change_index_chord_transition. exact HeN.
Qed.

Lemma sound_key_transition N s k lp : sound N s -> sound N (key_transition s k lp).
Proof. intros H. exact H. Qed.

Section Search.
Variable ln : Q -> Q.
Variable cfg : Config.
Variable m : Submodels.
Variable timeline : Timeline.

Local Abbreviation N := (length timeline).

Lemma length_get_chord_change_probs :
  length (get_chord_change_probs m timeline) = N.
Proof. unfold get_chord_change_probs. now rewrite length_map, length_seq. Qed.

Lemma sound_run_csm s : sound N s -> sound N (run_csm m s).
Proof.
  unfold run_csm. destruct (chord_history s) eqn:E; [tauto|].
  intros H. exact H.
Qed.


Lemma sound_root_states s : In s (root_states m) -> sound N s.
Proof.
  intros H. apply In_imap in H as (k & mode & -> & _). apply sound_root.
Qed.

Lemma sound_chord_candidates s c :
  sound N s -> In c (chord_candidates ln cfg m timeline s) -> sound N c.
Proof.
  intros Hs Hin. unfold chord_candidates in Hin.
  apply in_flat_map in Hin as ([r rlp] & Hcand & Hin).
  apply in_map_iff in Hin as (chord & <- & _).
  apply ranges_from_bounds in Hcand as [_ Hcand].
  rewrite length_get_chord_change_probs in Hcand.
  now apply sound_chord_transition.
Qed.

Lemma sound_key_candidates s c :
  sound N s -> In c (key_candidates cfg m s) -> sound N c.
Proof.
  intros Hs. unfold key_candidates.
  destruct (Qle_bool _ _).
  - intros Hin. apply In_take, In_rank, In_imap in Hin as (k & mode & -> & _).
    now apply sound_key_transition.
  - intros [<-|[]]. exact Hs.
Qed.

Lemma sound_extend s c :
  sound N s -> In c (extend ln cfg m timeline s) -> sound N c.
Proof.
  intros Hs Hin. unfold extend in Hin.
  apply in_flat_map in Hin as (child & Hchild & Hin).
  apply In_take, In_rank in Hchild.
  eapply sound_key_candidates; [|exact Hin].
  eapply sound_chord_candidates; [exact Hs | exact Hchild].
Qed.

Lemma sound_extend_all beam : forall candidates,
  (forall s, In s beam -> sound N s) ->
  extend_all ln cfg m timeline beam = Decoded candidates ->
  forall c, In c candidates -> sound N c.
Proof.
  induction beam as [|s beam IH]; intros candidates Hbeam Hext c Hc; simpl in Hext.
  - injection Hext as <-. destruct Hc.
  - assert (Hs : sound N s) by (apply Hbeam; now left).
    assert (Hrest : forall s', In s' beam -> sound N s')
      by (intros s' H'; apply Hbeam; now right).
    destruct (complete timeline s).
    + destruct (extend_all ln cfg m timeline beam) as [cs|f]; [|discriminate].
      injection Hext as <-. destruct Hc as [<-|Hc]; [exact Hs|].
      now apply (IH cs).
    + destruct (extend ln cfg m timeline s) as [|c0 cs0] eqn:Ee; [discriminate|].
      destruct (extend_all ln cfg m timeline beam) as [cs|f]; [|discriminate].
      injection Hext as <-.
      change (In c ((c0 :: cs0) ++ cs)) in Hc.
      apply in_app_iff in Hc as [Hc|Hc]; [|now apply (IH cs)].
      apply (sound_extend s); [exact Hs | now rewrite Ee].
Qed.




End Search.

(** ** The rounds are enough *)

Section Rounds.
Variable ln : Q -> Q.
Variable cfg : Config.
Variable m : Submodels.
Variable timeline : Timeline.

Local Abbreviation N := (length timeline).

(** At most [k] frames are left to every hypothesis of the beam. *)
Definition within (k : nat) (beam : list State) : Prop :=
  forall s, In s beam -> sound N s /\ (N - change_index s <= k)%nat.

Lemma change_index_run_csm s : change_index (run_csm m s) = change_index s.
Proof. unfold run_csm. now destruct (chord_history s). Qed.

Lemma within_run_csm_batched k beam :
  within k beam -> within k (run_csm_batched m beam).
Proof.
  intros Hbeam s Hin. apply in_map_iff in Hin as (s' & <- & Hin).
  destruct (Hbeam s' Hin) as [Hs Hk]. rewrite change_index_run_csm.
  split; [now apply sound_run_csm | exact Hk].
Qed.

Lemma change_index_key_candidates s c :
  In c (key_candidates cfg m s) -> change_index c = change_index s.
Proof.
  unfold key_candidates. destruct (Qle_bool _ _).
  - intros Hin. now apply In_take, In_rank, In_imap in Hin as (k & mode & -> & _).
  - now intros [<-|[]].
Qed.

Lemma extend_advances s c :
  In c (extend ln cfg m timeline s) ->
  (change_index s < change_index c <= N)%nat.
Proof.
  unfold extend. intros Hin.
  apply in_flat_map in Hin as (child & Hchild & Hin).
  apply change_index_key_candidates in Hin. rewrite Hin.
  apply In_take, In_rank in Hchild. unfold chord_candidates in Hchild.
  apply in_flat_map in Hchild as ([r rlp] & Hcand & Hchild).
  apply in_map_iff in Hchild as (chord & <- & _).
  apply ranges_from_bounds in Hcand as [_ Hcand].
  rewrite length_get_chord_change_probs in Hcand.
  now rewrite change_index_chord_transition.
Qed.

Lemma within_extend_all k beam : forall candidates,
  within (S k) beam ->
  extend_all ln cfg m timeline beam = Decoded candidates ->
  within k candidates.
Proof.
  induction beam as [|s beam IH]; intros candidates Hbeam Hext c Hc.
  - simpl in Hext. injection Hext as <-. destruct Hc.
  - assert (Hall : forall c, In c candidates -> sound N c).
    { apply (sound_extend_all ln cfg m timeline (s :: beam));
        [intros s' H'; now apply Hbeam | exact Hext]. }
    split; [now apply Hall|].
    simpl in Hext.
    assert (Hrest : within (S k) beam)
      by (intros s' H'; apply Hbeam; now right).
    destruct (complete timeline s) eqn:Hcomplete.
    + destruct (extend_all ln cfg m timeline beam) as [cs|f]; [|discriminate].
      injection Hext as <-. destruct Hc as [<-|Hc].
      * unfold complete in Hcomplete. apply Nat.eqb_eq in Hcomplete. lia.
      * now apply (IH cs).
    + destruct (extend ln cfg m timeline s) as [|c0 cs0] eqn:Ee; [discriminate|].
      destruct (extend_all ln cfg m timeline beam) as [cs|f]; [|discriminate].
      injection Hext as <-. change (In c ((c0 :: cs0) ++ cs)) in Hc.
      apply in_app_iff in Hc as [Hc|Hc]; [|now apply (IH cs)].
      rewrite <- Ee in Hc. apply extend_advances in Hc.
      destruct (Hbeam s) as [_ Hk]; [now left|]. lia.
Qed.

Lemma extend_all_exhausted beam : forall f,
  (forall s, In s beam -> sound N s) ->
  extend_all ln cfg m timeline beam = DecodingExhausted f -> (f < N)%nat.
Proof.
  induction beam as [|s beam IH]; intros f Hbeam Hext; simpl in Hext;
    [discriminate|].
  assert (Hrest : forall s', In s' beam -> sound N s')
    by (intros s' H'; apply Hbeam; now right).
  destruct (complete timeline s) eqn:Hcomplete.
  - destruct (extend_all ln cfg m timeline beam) as [cs|f']; [discriminate|].
    injection Hext as <-. now apply IH.
  - destruct (extend ln cfg m timeline s) as [|c0 cs0].
    + injection Hext as <-. destruct (Hbeam s) as [_ Hle]; [now left|].
      unfold complete in Hcomplete. apply Nat.eqb_neq in Hcomplete. lia.
    + destruct (extend_all ln cfg m timeline beam) as [cs|f']; [discriminate|].
      injection Hext as <-. now apply IH.
Qed.

(** With a round per frame the search never stops for want of rounds: a
    failure names a frame inside the timeline, where some hypothesis had
    no extension. *)
Lemma search_rounds_suffice fuel : forall beam f,
  within fuel beam ->
  search ln cfg m timeline fuel beam = DecodingExhausted f -> (f < N)%nat.
Proof.
  induction fuel as [|fuel IH]; intros beam f Hbeam Hsearch; simpl in Hsearch;
    destruct (forallb (complete timeline) beam) eqn:Hdone; try discriminate.
  - exfalso. apply Bool.not_true_iff_false in Hdone. apply Hdone.
    apply forallb_forall. intros s Hs. destruct (Hbeam s Hs) as [[_ Hle] Hk].
    unfold complete. apply Nat.eqb_eq. lia.
  - destruct (extend_all ln cfg m timeline (run_csm_batched m beam))
      as [candidates|f'] eqn:Hext.
    + apply (IH (prune cfg candidates)); [|exact Hsearch].
      intros s Hs. unfold prune in Hs. apply In_take, In_rank in Hs.
      apply (within_extend_all fuel (run_csm_batched m beam) candidates);
        [|exact Hext | exact Hs].
      now apply within_run_csm_batched.
    + injection Hsearch as <-.
      apply (extend_all_exhausted (run_csm_batched m beam)); [|exact Hext].
      intros s Hs. now apply (within_run_csm_batched (S fuel) beam).
Qed.

(** On a timeline that has a frame, a failure of [get_harmony] names a
    frame of the timeline. *)
Lemma get_harmony_rounds_suffice f :
  (0 < N)%nat ->
  get_harmony ln cfg m timeline = DecodingExhausted f -> (f < N)%nat.
Proof.
  intros HN. unfold get_harmony.
  destruct (search ln cfg m timeline N (root_states m))
    as [beam|f'] eqn:Hsearch.
  - destruct (head (rank log_prob beam)); [discriminate|].
    now intros [= <-].
  - intros [= <-]. eapply search_rounds_suffice; [|exact Hsearch].
    intros s Hs. split; [now apply (sound_root_states m)|]. lia.
Qed.

End Rounds.

(** ** Scores along the parent chain *)

Lemma ancestors_with_csm_log_prior s prior :
  ancestors (with_csm_log_prior s prior) = ancestors s.
Proof. now destruct s as [k ch kh lp pr [p|]]. Qed.

Lemma grown_chain s :
  grown s -> forall a, In a (ancestors s) -> (log_prob s <= log_prob a)%Q.
Proof.
  induction 1 as [k prior | s chord e lp Hs IH Hlp | s k lp Hs IH Hlp
                 | s prior Hs IH]; intros a Ha.
  - destruct Ha.
  - simpl in Ha. destruct Ha as [<-|Ha]; simpl.
    + lra.
    + specialize (IH a Ha). lra.
  - simpl in Ha. destruct Ha as [<-|Ha]; simpl.
    + lra.
    + specialize (IH a Ha). lra.
  - rewrite ancestors_with_csm_log_prior in Ha. now apply IH.
Qed.

(** *** The hypotheses of a decode are grown *)

Section Scores.
Variable ln : Q -> Q.
Variable cfg : Config.
Variable m : Submodels.
Variable timeline : Timeline.
Hypothesis Hlog : log_probabilities ln m.

Lemma scan_nonpositive ps : forall j running e lp,
  (forall p, In p ps -> 0 <= p <= 1)%Q -> (running <= 0)%Q ->
  In (e, lp) (scan ln cfg ps j running) -> (lp <= 0)%Q.
Proof using Hlog.
  destruct Hlog as (Hln & _).
  induction ps as [|p ps IH]; intros j running e lp Hps Hrun Hin; simpl in Hin.
  - destruct Hin as [[= _ <-]|[]]. exact Hrun.
  - assert (Hp : (0 <= p <= 1)%Q) by (apply Hps; now left).
    apply in_app_iff in Hin as [Hin|Hin].
    + destruct (may_change cfg p); [|destruct Hin].
      destruct Hin as [[= _ <-]|[]].
      pose proof (Hln p Hp). lra.
    + destruct (may_continue cfg p); [|destruct Hin].
      apply IH in Hin; [exact Hin | intros q Hq; apply Hps; now right |].
      assert (H1 : (0 <= 1 - p <= 1)%Q) by lra.
      pose proof (Hln _ H1). lra.
Qed.

Lemma next_ranges_nonpositive start e lp :
  In (e, lp) (next_ranges ln cfg (get_chord_change_probs m timeline) start) ->
  (lp <= 0)%Q.
Proof using Hlog.
  unfold next_ranges. destruct (start <? _)%nat; [|intros []].
  intros Hin. apply scan_nonpositive in Hin; [exact Hin | | lra].
  intros p Hp. apply In_take_drop in Hp. unfold get_chord_change_probs in Hp.
  apply in_map_iff in Hp as (i & <- & _).
  destruct Hlog as (_ & Hctm & _). apply Hctm.
Qed.

Lemma propose_nonpositive fuel : forall start starts r lp,
  In (r, lp)
     (propose ln cfg fuel (get_chord_change_probs m timeline) start starts) ->
  (lp <= 0)%Q.
Proof using Hlog.
  induction fuel as [|fuel IH]; intros start starts r lp Hin; [destruct Hin|].
  simpl in Hin. destruct (existsb (Nat.eqb start) starts); [|now apply IH in Hin].
  apply in_app_iff in Hin as [Hin|Hin]; [|now apply IH in Hin].
  apply in_map_iff in Hin as ([e lp'] & [= _ <-] & Hin).
  now apply next_ranges_nonpositive in Hin.
Qed.

Lemma ranges_from_nonpositive start r lp :
  In (r, lp)
     (ranges_from (get_chord_ranges ln cfg (get_chord_change_probs m timeline))
                  start) ->
  (lp <= 0)%Q.
Proof using Hlog.
  unfold ranges_from, get_chord_ranges. cbn [fst snd]. rewrite zip_fst_snd.
  intros Hin. apply filter_In in Hin as [Hin _].
  now apply propose_nonpositive in Hin.
Qed.

(** What every hypothesis of a decode satisfies: it is grown, and the prior
    it carries for its next chord is a log-probability. *)
Definition scored (s : State) : Prop :=
  grown s /\ forall chord, (csm_log_prior s chord <= 0)%Q.

Lemma scored_root_states s : In s (root_states m) -> scored s.
Proof using Hlog.
  intros H. apply In_imap in H as (k & mode & -> & _).
  split; [constructor|]. destruct Hlog as (_ & _ & Hicm & _). apply Hicm.
Qed.

Lemma scored_run_csm s : scored s -> scored (run_csm m s).
Proof using Hlog.
  intros [Hg Hp]. unfold run_csm. destruct (chord_history s); [now split|].
  split; [now constructor|]. destruct Hlog as (_ & _ & _ & _ & Hcsm & _).
  apply Hcsm.
Qed.

Lemma scored_extend s c :
  scored s -> In c (extend ln cfg m timeline s) -> scored c.
Proof using Hlog.
  intros [Hg Hp] Hin. unfold extend in Hin.
  apply in_flat_map in Hin as (child & Hchild & Hin).
  apply In_take, In_rank in Hchild. unfold chord_candidates in Hchild.
  apply in_flat_map in Hchild as ([r rlp] & Hcand & Hchild).
  apply in_map_iff in Hchild as (chord & <- & _).
  apply ranges_from_nonpositive in Hcand.
  destruct Hlog as (_ & _ & _ & Hccm & _ & Hksm).
  assert (Hchord : scored
            (chord_transition s chord (snd r)
               (ccm m timeline r chord + csm_log_prior s chord + rlp))).
  { split; [|exact Hp]. constructor; [exact Hg|].
    pose proof (Hccm timeline r chord). pose proof (Hp chord). lra. }
  unfold key_candidates in Hin. destruct (Qle_bool _ _).
  - apply In_take, In_rank, In_imap in Hin as (k & mode & -> & _).
    destruct Hchord as [Hg' Hp']. split; [|exact Hp'].
    constructor; [exact Hg' | apply Hksm].
  - destruct Hin as [<-|[]]. exact Hchord.
Qed.

Lemma scored_extend_all beam : forall candidates,
  (forall s, In s beam -> scored s) ->
  extend_all ln cfg m timeline beam = Decoded candidates ->
  forall c, In c candidates -> scored c.
Proof using Hlog.
  induction beam as [|s beam IH]; intros candidates Hbeam Hext c Hc; simpl in Hext.
  - injection Hext as <-. destruct Hc.
  - assert (Hs : scored s) by (apply Hbeam; now left).
    assert (Hrest : forall s', In s' beam -> scored s')
      by (intros s' H'; apply Hbeam; now right).
    destruct (complete timeline s).
    + destruct (extend_all ln cfg m timeline beam) as [cs|f]; [|discriminate].
      injection Hext as <-. destruct Hc as [<-|Hc]; [exact Hs|].
      now apply (IH cs).
    + destruct (extend ln cfg m timeline s) as [|c0 cs0] eqn:Ee; [discriminate|].
      destruct (extend_all ln cfg m timeline beam) as [cs|f]; [|discriminate].
      injection Hext as <-. change (In c ((c0 :: cs0) ++ cs)) in Hc.
      apply in_app_iff in Hc as [Hc|Hc]; [|now apply (IH cs)].
      apply (scored_extend s); [exact Hs | now rewrite Ee].
Qed.

Lemma search_scored fuel : forall beam final,
  (forall s, In s beam -> scored s) ->
  search ln cfg m timeline fuel beam = Decoded final ->
  forall s, In s final -> scored s.
Proof using Hlog.
  induction fuel as [|fuel IH]; intros beam final Hbeam Hsearch s Hs;
    simpl in Hsearch;
    destruct (forallb (complete timeline) beam); try discriminate;
    try (injection Hsearch as <-; now apply Hbeam).
  destruct (extend_all ln cfg m timeline (run_csm_batched m beam))
    as [candidates|f] eqn:Hext; [|discriminate].
  apply (IH (prune cfg candidates) final); [|exact Hsearch | exact Hs].
  intros s' Hs'. unfold prune in Hs'. apply In_take, In_rank in Hs'.
  apply (scored_extend_all (run_csm_batched m beam) candidates);
    [|exact Hext | exact Hs'].
  intros s0 H0. apply in_map_iff in H0 as (s1 & <- & H1).
  now apply scored_run_csm, Hbeam.
Qed.

Lemma get_harmony_grown best :
  get_harmony ln cfg m timeline = Decoded best -> grown best.
Proof using Hlog.
  unfold get_harmony.
  destruct (search ln cfg m timeline (length timeline) (root_states m))
    as [beam|f] eqn:Hsearch; [|discriminate].
  destruct (head (rank log_prob beam)) as [b|] eqn:Hhead; [|discriminate].
  intros [= <-].
  assert (Hin : In b beam).
  { apply (In_rank log_prob). apply list_elem_of_In.
    apply head_Some_elem_of. exact Hhead. }
  apply (search_scored _ _ _ ) with (2 := Hsearch) (3 := Hin).
  intros s Hs. now apply scored_root_states.
Qed.

End Scores.

(** C3.  A transition that carries the logarithm of a probability (a
    number that is at most [0]) gives a child whose parent is the state it
    was taken from and whose score is not above the parent's.  So in a tree
    grown by such transitions no hypothesis scores above any of its
    ancestors; and when the adapters hand out log-probabilities, the
    hypothesis that [get_harmony] decodes is the leaf of such a tree. *)
Theorem log_prob_never_rises :
  (forall (s : State) (chord e k : nat) (lp : Q),
     (lp <= 0)%Q ->
     (parent (chord_transition s chord e lp) = Some s
      /\ (log_prob (chord_transition s chord e lp) <= log_prob s)%Q)
     /\ (parent (key_transition s k lp) = Some s
         /\ (log_prob (key_transition s k lp) <= log_prob s)%Q))
  /\ (forall s : State,
        grown s ->
        forall a, In a (ancestors s) -> (log_prob s <= log_prob a)%Q)
  /\ (forall ln cfg m timeline best,
        log_probabilities ln m ->
        get_harmony ln cfg m timeline = Decoded best ->
        grown best).
Proof.
  split; [|split].
  - intros s chord e k lp Hlp. repeat split; simpl; lra.
  - apply grown_chain.
  - intros ln cfg m timeline best Hlog. now apply get_harmony_grown.
Qed.

(** ** The chord ranges *)


End DecoderProofs.

(* ===================================================================== *)
(** * Part V: the properties on the small instances *)
(* ===================================================================== *)

Module Runs.
Import Instances.

(** ** The export loops *)

(** File 0 is skipped, file 1 stops the loop, file 2 is never reached. *)
Lemma chord_count_mismatch_is_fatal_run :
  SelimProjectData.export_pieces three_files id type_name (open_in data_dirs)
    ([(0%Z, a_row)] ++ (1%Z, a_row) :: [(2%Z, a_row)]) (mkEnv [] ∅)
  = (log_no_data 0 Py.KeyError (mkEnv [] ∅), Py.Raised Py.AssertionError).
Proof.
  apply (chord_count_mismatch_is_fatal three_files id type_name
           (open_in data_dirs)
           [(0%Z, a_row)] [(2%Z, a_row)] 1%Z a_row (mkEnv [] ∅)
           (log_no_data 0 Py.KeyError (mkEnv [] ∅))
           (mkPiece [a_chord; a_chord] []) (mkPiece [a_chord] [])).
  - reflexivity.
  - reflexivity.
  - reflexivity.
  - simpl. discriminate.
Defined.

(** File 0 costs both loops a log entry and no more. *)
Lemma failed_piece_is_skipped_run :
  SelimProjectData.export_pieces three_files id type_name (open_in data_dirs)
    [(0%Z, a_row); (2%Z, a_row)] (mkEnv [] ∅)
  = SelimProjectData.export_pieces three_files id type_name (open_in data_dirs)
      [(2%Z, a_row)] (log_no_data 0 Py.KeyError (mkEnv [] ∅))
  /\ files (fst (SelimProjectData.export_pieces three_files id type_name (open_in data_dirs)
                   ([(2%Z, a_row)] ++ [(0%Z, a_row); (2%Z, a_row)]) (mkEnv [] ∅)))
     = files (fst (SelimProjectData.export_pieces three_files id type_name (open_in data_dirs)
                     ([(2%Z, a_row)] ++ [(2%Z, a_row)]) (mkEnv [] ∅)))
  /\ MLCourseData.create_composer_data (fun f => three_files f false)
       (open_in data_dirs) (fun _ _ => Py.Returned "I") "Bach"
       [(0%Z, a_row); (2%Z, a_row)] (mkEnv [] ∅)
     = MLCourseData.create_composer_data (fun f => three_files f false)
       (open_in data_dirs) (fun _ _ => Py.Returned "I") "Bach"
         [(2%Z, a_row)] (log_no_data 0 Py.KeyError (mkEnv [] ∅))
  /\ files (log_no_data 0 Py.KeyError (mkEnv [] (∅ : gmap string (list string))))
     = ∅.
Proof.
  destruct (failed_piece_is_skipped three_files id type_name
              (fun f => three_files f false) (open_in data_dirs)
              (fun _ _ => Py.Returned "I") 0%Z a_row [(2%Z, a_row)]
              Py.KeyError eq_refl) as (Hselim & Hcourse & Hfiles).
  destruct (Hselim eq_refl) as [Hstep Hbatch].
  destruct (Hcourse eq_refl) as [Hstep' _].
  split; [|split; [|split]].
  - apply Hstep.
  - apply (Hbatch [(2%Z, a_row)] (mkEnv [] ∅)).
  - apply Hstep'.
  - apply (Hfiles (list string) (mkEnv [] ∅)).
Defined.

(** ** Loading the submodels *)

(** ["ccm"] is loaded from the checkpoint of [version_1] and frozen;
    ["ctm"] has no checkpoint and ends the cell, with [NameError]. *)
Lemma checkpoint_selection_run :
  (exists c,
     last (sorted (two_checkpoints (LoadModels.checkpoint_pattern "ccm"))) = Some c
     /\ c = "checkpoints/ccm/lightning_logs/version_1/checkpoints/epoch=3.ckpt"
     /\ exists st,
          LoadModels.load_models_loop registry two_checkpoints toy_load toy_freeze
            ([] ++ [("ccm", 1%nat)]) (LoadModels.mkCell [] ∅)
          = (st, Py.Returned tt)
          /\ LoadModels.models st = <[ "ccm" := (1%nat, c, true) ]> ∅)
  /\ LoadModels.load_models registry two_checkpoints toy_load toy_freeze
       toy_prior []
     = (LoadModels.mkCell
          [LogInfo (MultipleCheckpoints "ccm"
             "checkpoints/ccm/lightning_logs/version_1/checkpoints/epoch=3.ckpt");
           LogError (NoCheckpointsFound "ctm"
             "checkpoints/ctm/lightning_logs/version_*/checkpoints/*.ckpt")]
          (<[ "ccm" :=
                (1%nat,
                 "checkpoints/ccm/lightning_logs/version_1/checkpoints/epoch=3.ckpt",
                 true) ]> ∅),
        Py.Raised (Py.NameError "sys")).
Proof.
  split.
  - destruct (checkpoint_selection registry toy_load toy_freeze toy_prior
                two_checkpoints [] [("icm", 0%nat); ("ctm", 2%nat)] "ccm" 1%nat
                [] (LoadModels.mkCell [] ∅) eq_refl ltac:(discriminate) eq_refl)
      as [_ Hfound].
    destruct (Hfound ltac:(discriminate)) as (c & Hlast & _ & _ & Hload).
    assert (Hc : c = "checkpoints/ccm/lightning_logs/version_1/checkpoints/epoch=3.ckpt")
      by (vm_compute in Hlast; congruence).
    exists c. split; [exact Hlast|]. split; [exact Hc|].
    destruct (Hload (1%nat, c, false) (1%nat, c, true) eq_refl eq_refl)
      as (st & Hrun & Hmodels).
    exists st. split; [exact Hrun | exact Hmodels].
  - destruct (checkpoint_selection registry toy_load toy_freeze toy_prior
                two_checkpoints [("ccm", 1%nat); ("icm", 0%nat)] [] "ctm" 2%nat
                []
                (LoadModels.mkCell
                   [LogInfo (MultipleCheckpoints "ccm"
                      "checkpoints/ccm/lightning_logs/version_1/checkpoints/epoch=3.ckpt")]
                   (<[ "ccm" :=
                         (1%nat,
                          "checkpoints/ccm/lightning_logs/version_1/checkpoints/epoch=3.ckpt",
                          true) ]> ∅))
                eq_refl ltac:(discriminate) eq_refl)
      as [Hmissing _].
    destruct (Hmissing eq_refl) as [Hends _]. exact Hends.
Defined.

(** ** The decoder *)

(** The scenarios of the specification's section 8. *)
Example forced_split_scenario :
  fst (Decoder.get_chord_ranges tangent_ln thresholds forced_split)
  = [(0, 2); (2, 4)]%nat.
Proof. reflexivity. Qed.

Example single_chord_scenario :
  fst (Decoder.get_chord_ranges tangent_ln thresholds [1; 0; 0; 0]%Q)
  = [(0, 4)]%nat.
Proof. reflexivity. Qed.

Example ambiguous_frame_scenario :
  fst (Decoder.get_chord_ranges tangent_ln thresholds [1; 1 # 2]%Q)
  = [(0, 1); (0, 2); (1, 2)]%nat.
Proof. reflexivity. Qed.

(** A transition of probability one half from a root, its grandchild by a
    key transition, and the decode of the four frames. *)
Lemma log_prob_never_rises_run :
  let s := Decoder.root_state 0 (fun _ => 0%Q) in
  let child := Decoder.chord_transition s 1 2 (-1 # 2) in
  let grandchild := Decoder.key_transition child 3 (-1 # 2) in
  (Decoder.parent child = Some s
   /\ (Decoder.log_prob child <= Decoder.log_prob s)%Q)
  /\ (Decoder.parent grandchild = Some child
      /\ (Decoder.log_prob grandchild <= Decoder.log_prob child)%Q)
  /\ (Decoder.log_prob grandchild <= Decoder.log_prob s)%Q
  /\ (exists best,
        Decoder.get_harmony tangent_ln thresholds two_chords_one_key four_frames
        = Decoder.Decoded best
        /\ Decoder.grown best).
Proof.
  intros s child grandchild.
  destruct DecoderProofs.log_prob_never_rises as (Hstep & Hchain & Hdecode).
  assert (Hhalf : (-1 # 2 <= 0)%Q) by (unfold Qle; simpl; discriminate).
  split; [|split; [|split]].
  - apply (Hstep s 1%nat 2%nat 0%nat (-1 # 2)%Q Hhalf).
  - apply (Hstep child 0%nat 0%nat 3%nat (-1 # 2)%Q Hhalf).
  - apply (Hchain grandchild).
    + repeat constructor; exact Hhalf.
    + right. left. reflexivity.
  - eexists. split; [reflexivity|].
    apply (Hdecode tangent_ln thresholds two_chords_one_key four_frames);
      [|reflexivity].
    unfold Decoder.log_probabilities. simpl.
    repeat split; intros; try (unfold tangent_ln; lra);
      try (destruct (_ =? _)%nat; unfold Qle; simpl; discriminate);
      try (unfold Qle; simpl; discriminate);
      do 5 (try destruct i as [|i]); simpl; unfold Qle; simpl; discriminate.
Defined.


End Runs.

(** ** The other notebook cells on small instances *)

Module CellRuns.
Import Instances CellInstances.

(** *** The Selim export *)



(** The log of that batch: the two records of file 0. *)
Lemma export_log_lists_skipped_files_run :
  log (fst (SelimProjectData.export_pieces three_files id type_name (open_in data_dirs)
              [(0%Z, a_row); (2%Z, another_row)] (mkEnv [] ∅)))
  = [LogError (NoDataCreated 0); LogException Py.KeyError].
Proof.
  apply (export_log_lists_skipped_files three_files id type_name
           (open_in data_dirs)
           [(0%Z, a_row); (2%Z, another_row)] (mkEnv [] ∅)).
  reflexivity.
Defined.

(** *** The ML-course export *)

(** File 0 is skipped; file 1 is built, its key csv is made, and
    [set.add] ends the cell. *)
Example ml_course_export_run :
  MLCourseData.create_data one_key_piece (open_in data_dirs) degree_of
    ["Bach"] [(0%Z, a_row); (1%Z, another_row)] (mkEnv [] ∅)
  = (mkEnv [LogError (NoDataCreated 0); LogException Py.KeyError]
           {[ "ML_course_data/key/Bach.csv" := [] ]},
     Py.Raised Py.TypeError).
Proof. reflexivity. Qed.

(** For a composer with a slash in the name the key csv cannot be
    opened. *)
Example ml_course_export_of_a_nested_composer :
  snd (MLCourseData.create_data one_key_piece (open_in data_dirs) degree_of
         ["Bach/WTC"] [(1%Z, nested_row)] (mkEnv [] ∅))
  = Py.Raised (Py.OtherException "FileNotFoundError").
Proof. reflexivity. Qed.

(** *** Loading the submodels *)

Lemma every_submodel_is_loaded_run :
  exists st,
    LoadModels.load_models small_registry two_checkpoints toy_load toy_freeze
      toy_prior []
    = (st, Py.Returned tt)
    /\ (exists prior,
          toy_prior "checkpoints/icm/initial_chord_prior.json"
          = Py.Returned prior
          /\ LoadModels.models st !! "icm" = Some prior)
    /\ (forall n cls, In (n, cls) small_registry -> n <> "icm" ->
          exists c model frozen,
            last (sorted (two_checkpoints (LoadModels.checkpoint_pattern n)))
            = Some c
            /\ toy_load cls c = Py.Returned model
            /\ toy_freeze model = Py.Returned frozen
            /\ LoadModels.models st !! n = Some frozen)
    /\ (forall n, is_Some (LoadModels.models st !! n) ->
          n = "icm" \/ In n (map fst small_registry)).
Proof.
  apply (every_submodel_is_loaded small_registry toy_load toy_freeze toy_prior
           two_checkpoints []).
  - apply NoDup_cons. split; [|apply NoDup_singleton].
    intros H. apply list_elem_of_In in H. destruct H as [H|[]]. discriminate H.
  - intros n c [[= <- <-]|[[= <- <-]|[]]] Hicm.
    + discriminate.
    + now contradiction Hicm.
  - intros n cls c _ _ _. now eexists _, _.
  - now eexists.
Defined.

(** A checkpoint that cannot be read ends the cell with what the loader
    raised. *)
Example unreadable_checkpoint :
  snd (LoadModels.load_models small_registry two_checkpoints unreadable_load
         toy_freeze toy_prior [])
  = Py.Raised (Py.OtherException "UnpicklingError").
Proof. reflexivity. Qed.

(** The reversed listing loads the same models. *)
Lemma listing_order_is_irrelevant_run :
  LoadModels.load_models registry two_checkpoints toy_load toy_freeze
    toy_prior []
  = LoadModels.load_models registry two_checkpoints_reversed toy_load
      toy_freeze toy_prior [].
Proof.
  apply (listing_order_is_irrelevant registry toy_load toy_freeze toy_prior
           two_checkpoints two_checkpoints_reversed []).
  intros pattern. apply Permutation_rev.
Defined.

(** *** The validation pieces *)

(** Three file ids and a pickle of two dicts: two pieces, the third
    file id is dropped. *)
Lemma pieces_follow_file_ids_run :
  exists file_ids dicts,
    three_ids = Py.Returned (Some file_ids)
    /\ LoadPieces.piece_dicts two_dicts file_ids = Py.Returned dicts
    /\ ([] : list LoadPieces.message) = []
    /\ length [mkPiece [] []; mkPiece [] []]
       = Nat.min (length file_ids) (length dicts)
    /\ (two_dicts = None ->
        length [mkPiece [] []; mkPiece [] []] = length file_ids
        /\ dicts = replicate (length file_ids) None)
    /\ forall i piece, [mkPiece [] []; mkPiece [] []] !! i = Some piece ->
         exists file_id piece_dict,
           file_ids !! i = Some file_id
           /\ dicts !! i = Some piece_dict
           /\ any_piece file_id piece_dict = Py.Returned piece.
Proof.
  apply (pieces_follow_file_ids three_ids two_dicts any_piece []
           [mkPiece [] []; mkPiece [] []]).
  reflexivity.
Defined.

(** Without a pickle, the piece of file 2 ends the cell. *)
Lemma first_failing_piece_ends_the_cell_run :
  LoadPieces.load_pieces three_ids None all_but_two
  = ([], Py.Raised Py.ValueError).
Proof.
  apply (first_failing_piece_ends_the_cell three_ids None all_but_two
           [1; 2; 3]%Z [None; None; None]
           [(1%Z, None)] [(3%Z, None)] 2%Z None Py.ValueError).
  - reflexivity.
  - reflexivity.
  - reflexivity.
  - intros pair [<-|[]]. now eexists.
  - reflexivity.
Defined.

(** *** The missed ranges *)

(** The proposal has the three boundaries; the last correct range,
    [(8, None)], is still counted as missed. *)
Lemma last_correct_range_is_always_missed_run :
  exists not_found,
    MissedRanges.missed_cell ([0; 4] ++ [8])%Z every_boundary
    = (not_found ++ [MissedRanges.Missed (length not_found) 3;
                     MissedRanges.Accuracy (length not_found) 3],
       Py.Returned tt)
    /\ last not_found = Some (MissedRanges.NotFound (8%Z, None) 2)
    /\ 1 <= length not_found.
Proof.
  apply (last_correct_range_is_always_missed [0; 4]%Z 8%Z every_boundary).
  intros r [<-|[<-|[<-|[]]]]; discriminate.
Defined.

(** *** The alignment loop *)

(** Score [b] has no label file. *)
Lemma unmatched_score_is_skipped_run :
  BeethovenAlignment.written
    (fst (BeethovenAlignment.align_scores no_labels_for_b (open_in data_dirs)
            any_score
            sonata_files sonata_data count_labels
            (["a_01_mv1"] ++ "b_02_mv1" :: ["e_05_mv3"]) nothing_yet))
  = BeethovenAlignment.written
      (fst (BeethovenAlignment.align_scores no_labels_for_b (open_in data_dirs)
            any_score
              sonata_files sonata_data count_labels
              (["a_01_mv1"] ++ ["e_05_mv3"]) nothing_yet))
  /\ snd (BeethovenAlignment.align_scores no_labels_for_b (open_in data_dirs)
            any_score
            sonata_files sonata_data count_labels
            (["a_01_mv1"] ++ "b_02_mv1" :: ["e_05_mv3"]) nothing_yet)
     = snd (BeethovenAlignment.align_scores no_labels_for_b (open_in data_dirs)
            any_score
              sonata_files sonata_data count_labels
              (["a_01_mv1"] ++ ["e_05_mv3"]) nothing_yet).
Proof.
  apply (unmatched_score_is_skipped no_labels_for_b (open_in data_dirs)
             any_score sonata_files
           sonata_data count_labels "b_02_mv1" ["a_01_mv1"] ["e_05_mv3"]
           nothing_yet).
  left. reflexivity.
Defined.

(** The data of score [d] raise [ValueError]: the loop ends there, with
    the two files of score [a]. *)
Lemma only_KeyError_is_skipped_run :
  snd (BeethovenAlignment.align_scores no_labels_for_b (open_in data_dirs)
            any_score
         sonata_files sonata_data count_labels
         (["a_01_mv1"] ++ "d_04_mv1" :: ["a_01_mv1"]) nothing_yet)
  = Py.Raised Py.ValueError
  /\ BeethovenAlignment.written
       (fst (BeethovenAlignment.align_scores no_labels_for_b (open_in data_dirs)
            any_score
               sonata_files sonata_data count_labels
               (["a_01_mv1"] ++ "d_04_mv1" :: ["a_01_mv1"]) nothing_yet))
     = BeethovenAlignment.written
         (fst (BeethovenAlignment.align_scores no_labels_for_b (open_in data_dirs)
            any_score
                 sonata_files sonata_data count_labels
                 ["a_01_mv1"] nothing_yet)).
Proof.
  destruct (only_KeyError_is_skipped no_labels_for_b (open_in data_dirs)
             any_score sonata_files
              sonata_data count_labels
              "d_04_mv1" "d" "04" "mv1" "04-1.tsv" (mkPiece [a_chord] [])
              11%Z (mkFileRow "beethoven_piano_sonatas" "04-1.tsv") []
              Py.ValueError eq_refl eq_refl eq_refl eq_refl eq_refl eq_refl)
    as [_ Hends].
  apply (Hends ltac:(discriminate) ["a_01_mv1"] ["a_01_mv1"] nothing_yet).
  reflexivity.
Defined.

(** Score [a] is aligned, [b] and [c] are skipped: the two files of
    [a] are both there. *)
Lemma label_files_come_in_pairs_run :
  is_Some
    (BeethovenAlignment.written
       (fst (BeethovenAlignment.align_scores no_labels_for_b (open_in data_dirs)
            any_score
               sonata_files sonata_data count_labels
               ["a_01_mv1"; "b_02_mv1"; "c_03_mv2"] nothing_yet))
       !! fh_path "01-1.tsv")
  <-> is_Some
        (BeethovenAlignment.written
           (fst (BeethovenAlignment.align_scores no_labels_for_b (open_in data_dirs)
            any_score
                   sonata_files sonata_data count_labels
                   ["a_01_mv1"; "b_02_mv1"; "c_03_mv2"] nothing_yet))
           !! dcml_path "01-1.tsv").
Proof.
  apply (label_files_come_in_pairs no_labels_for_b (open_in data_dirs)
             any_score sonata_files
           sonata_data count_labels
           ["a_01_mv1"; "b_02_mv1"; "c_03_mv2"] nothing_yet).
  - reflexivity.
  - intros name. simpl. rewrite !lookup_empty. split; intros [x H]; discriminate H.
Defined.

Lemma alignment_writes_in_output_dir_only_run :
  BeethovenAlignment.written
    (fst (BeethovenAlignment.align_scores no_labels_for_b (open_in data_dirs)
            any_score
            sonata_files sonata_data count_labels
            ["a_01_mv1"; "d_04_mv1"] nothing_yet))
    !! "Selim_data/fh-01-1.tsv"
  = None.
Proof.
  rewrite (alignment_writes_in_output_dir_only no_labels_for_b (open_in data_dirs)
             any_score
             sonata_files sonata_data count_labels
             ["a_01_mv1"; "d_04_mv1"] nothing_yet "Selim_data/fh-01-1.tsv").
  - reflexivity.
  - reflexivity.
Defined.

(** A name with one underscore, and a name that ends with the second. *)
Lemma malformed_score_name_ends_the_loop_run :
  BeethovenAlignment.align_scores no_labels_for_b (open_in data_dirs)
            any_score sonata_files
    sonata_data count_labels ["sonata_01"; "a_01_mv1"] nothing_yet
  = (nothing_yet, Py.Raised Py.ValueError)
  /\ BeethovenAlignment.align_scores no_labels_for_b (open_in data_dirs)
            any_score sonata_files
       sonata_data count_labels ["a_01_"; "a_01_mv1"] nothing_yet
     = (nothing_yet, Py.Raised Py.IndexError).
Proof.
  split.
  - apply (malformed_score_name_ends_the_loop no_labels_for_b (open_in data_dirs)
             any_score
             sonata_files sonata_data count_labels "sonata_01" ["a_01_mv1"]
             nothing_yet (mkPiece [a_chord] []) eq_refl eq_refl).
    simpl. discriminate.
  - apply (malformed_score_name_ends_the_loop no_labels_for_b (open_in data_dirs)
             any_score
             sonata_files sonata_data count_labels "a_01_" ["a_01_mv1"]
             nothing_yet (mkPiece [a_chord] []) eq_refl eq_refl) with "a" "01";
      reflexivity.
Defined.

(** The last character of a movement, of two bytes here. *)
Example last_character_of_a_movement :
  BeethovenAlignment.dcml_file_name "01" "mvé" = Py.Returned "01-é.tsv".
Proof. reflexivity. Qed.

(** *** The label lines *)

Lemma chord_line_round_trip_run :
  exists l',
    MLCourseLabels.read_chord_line
      (MLCourseLabels.chord_line MINOR ["i:MIN"; "V:MAJ"])
      MLCourseLabels.no_labels
    = Py.Returned l'
    /\ MLCourseLabels.labels_of MINOR l'
       = MLCourseLabels.labels_of MINOR MLCourseLabels.no_labels
         ∪ list_to_set ["i:MIN"; "V:MAJ"]
    /\ forall other, other <> MINOR ->
         MLCourseLabels.labels_of other l'
         = MLCourseLabels.labels_of other MLCourseLabels.no_labels.
Proof.
  apply (chord_line_round_trip MINOR ["i:MIN"; "V:MAJ"] MLCourseLabels.no_labels).
  repeat constructor.
Defined.

(** A piece that begins in the minor: its major key symbol is filed
    with the minor labels. *)
Lemma key_line_round_trip_run :
  exists l',
    MLCourseLabels.read_key_line
      (MLCourseLabels.key_line degree_name minor_then_major)
      MLCourseLabels.no_labels
    = Py.Returned l'
    /\ MLCourseLabels.labels_of MINOR l'
       = MLCourseLabels.labels_of MINOR MLCourseLabels.no_labels
         ∪ list_to_set ["I:MINOR"; "bIII:MAJOR"]
    /\ forall other, other <> MINOR ->
         MLCourseLabels.labels_of other l'
         = MLCourseLabels.labels_of other MLCourseLabels.no_labels.
Proof.
  apply (key_line_round_trip degree_name (mkKey 0 0 MINOR MAJOR)
           [mkKey 3 0 MAJOR MAJOR] MLCourseLabels.no_labels).
  repeat constructor.
Defined.

(** *** The composers and the names *)

(** A no-break space in front is stripped like a space. *)
Example strip_no_break_space :
  PyStr.strip (String "194" (String "160" "Bach ")) = "Bach"
  /\ MLCourseLabels.composer_of (String "194" (String "160" "Bach - WTC"))
     = "Bach".
Proof. split; reflexivity. Qed.


Lemma every_file_has_its_composer_run :
  List.NoDup (MLCourseLabels.composers
                [(0%Z, mkFileRow "Bach - WTC" "prelude.tsv"); (1%Z, a_row)])
  /\ In "Bach" (MLCourseLabels.composers
                  [(0%Z, mkFileRow "Bach - WTC" "prelude.tsv"); (1%Z, a_row)])
  /\ In (0%Z, mkFileRow "Bach - WTC" "prelude.tsv")
        (MLCourseData.composer_rows "Bach"
           [(0%Z, mkFileRow "Bach - WTC" "prelude.tsv"); (1%Z, a_row)]).
Proof.
  apply (every_file_has_its_composer
           [(0%Z, mkFileRow "Bach - WTC" "prelude.tsv"); (1%Z, a_row)]
           0%Z (mkFileRow "Bach - WTC" "prelude.tsv")).
  - now left.
  - reflexivity.
Defined.

(** A file name that ends with a no-break space comes back without it. *)
Example piece_name_with_no_break_space :
  ChoosePiece.split_name
    (ChoosePiece.piece_name "12"
       (mkFileRow "Bach" ("prelude.tsv" +:+ String "194" (String "160" ""))))
  = Py.Returned ("12", "Bach/prelude.tsv").
Proof. reflexivity. Qed.

Lemma piece_name_round_trip_run :
  ChoosePiece.split_name (ChoosePiece.piece_name "12" a_row)
  = Py.Returned ("12", "Bach/prelude.tsv")
  /\ ChoosePiece.split_name
       (ChoosePiece.piece_name "12" (mkFileRow "Bach" "BWV:846.tsv"))
     = Py.Raised Py.ValueError.
Proof.
  split.
  - apply (piece_name_round_trip "12" a_row eq_refl). reflexivity.
  - apply (piece_name_round_trip "12" (mkFileRow "Bach" "BWV:846.tsv") eq_refl).
    simpl. discriminate.
Defined.

End CellRuns.
